(** * fizmix: the curve-fit endpoints

    A shallow embedding of the two Cloudflare Pages Functions of the
    repository:

    - [functions/api/result.js], the selectable variant, which fits
      [y = b/x² + a], computes R² and maps it through a transform chosen by
      the caller from the table [TRANSFORMS] (module [Selectable]);
    - the fixed variant, the same handler with the single hard-wired
      transform [-log(1-R²)] (module [Fixed]).

    Numbers.  A JavaScript number is an IEEE 754 binary64 value, and the
    program only uses it through the operators and the functions of
    [Number] and [Math].  The program is therefore written once, over an
    arithmetic ([Arith]) that supplies these operations, and read in three
    arithmetics.

    - [ExactArith], over [R]: the finite numbers with exact operations.
      This is the reading of the statements made "in exact arithmetic";
      it has no [NaN] and no infinity, so the handlers are not read in it.
    - [ExtendedArith], over [jsnumber]: the reals together with [NaN] and
      the two infinities, with the IEEE rules for these and exact
      operations on the reals (no rounding, no overflow, one zero).
    - [Binary64.arith], over the primitive floats: [+], [-], [*], [/],
      the comparisons, [Math.abs], [Math.sqrt], [Math.max] and [Math.min]
      are the IEEE operations the engine performs; the transcendental
      functions of [Math] and [toFixed] are functions of the host.

    Host functions that are not part of the repository ([parseFloat] and
    the conversion of a value that is not a string to a property key) are
    section variables of the handlers; both can throw. *)

From Stdlib Require Import Reals Lra Lia.
From Stdlib Require Import List String Ascii Bool Arith ZArith DecimalString.
From Stdlib Require Import QArith Qreals.
From Stdlib Require Import Permutation.
From Stdlib Require Floats Uint63.
Import ListNotations.

Open Scope R_scope.

(* ------------------------------------------------------------------ *)
(** ** Numbers *)
(* ------------------------------------------------------------------ *)

(** The decimal literals of the two files that are not integers:
    [1e-20], [1e-10], [0.999], [0.9999], [1e10], [1e30] and [1e100]. *)
Inductive literal : Type :=
| d1e_20
| d1e_10
| d0_999
| d0_9999
| d1e10
| d1e30
| d1e100.

(** What the program uses of JavaScript numbers. *)
Class Arith (N : Type) : Type := {
  int : Z -> N;                    (* an integer literal *)
  lit : literal -> N;              (* a decimal literal *)
  of_nat : nat -> N;               (* [x.length] *)
  nan : N;                         (* [NaN], also [undefined] in arithmetic *)
  op_add : N -> N -> N;
  op_sub : N -> N -> N;
  op_mul : N -> N -> N;
  op_div : N -> N -> N;
  op_neg : N -> N;
  op_lt : N -> N -> bool;          (* [a < b], and [b > a] *)
  op_ge : N -> N -> bool;          (* [a >= b] *)
  op_pow : N -> nat -> N;          (* [a ** k] and [Math.pow(a, k)] *)
  isNaN : N -> bool;
  isFinite : N -> bool;
  Math_abs : N -> N;
  Math_max : N -> N -> N;
  Math_min : N -> N -> N;
  Math_exp : N -> N;
  Math_log : N -> N;
  Math_sqrt : N -> N;
  Math_tan : N -> N;
  Math_atan : N -> N;
  Math_sinh : N -> N;
  Math_PI : N;
  Number_toFixed6 : N -> N         (* [Number(m.toFixed(6))] *)
}.

Declare Scope js_scope.
Delimit Scope js_scope with js.
Notation "a + b" := (op_add a b) : js_scope.
Notation "a - b" := (op_sub a b) : js_scope.
Notation "a * b" := (op_mul a b) : js_scope.
Notation "a / b" := (op_div a b) : js_scope.
Notation "- a" := (op_neg a) : js_scope.
Notation "a <? b" := (op_lt a b) (at level 70) : js_scope.
Notation "a >=? b" := (op_ge a b) (at level 70) : js_scope.
Notation "a ** k" := (op_pow a k) (at level 30, right associativity) : js_scope.

(** Truthiness of a number: [0] and [NaN] are falsy. *)
Definition truthy_number {N : Type} {A : Arith N} (n : N) : bool :=
  (int 0 <? n)%js || (n <? int 0)%js.

(** [Number(m.toFixed(6))] on a real (ECMA-262, Number.prototype.toFixed):
    the sign is split off, a magnitude of [1e21] or more is printed by
    [ToString] and so read back unchanged, and otherwise the integer [n]
    with [n / 10^6] closest to the magnitude is taken, the larger one on a
    tie. *)
Definition toFixed6 (m : R) : R :=
  if Rle_dec 1e21 (Rabs m) then m
  else
    let n := Int_part (Rabs m * 1e6 + / 2) in
    if Rlt_dec m 0 then - (IZR n / 1e6) else IZR n / 1e6.

(** The reals with [NaN], [Infinity] and [-Infinity]. *)
Inductive jsnumber : Type :=
| NaN
| PInf
| NInf
| Num (r : R).

(* ------------------------------------------------------------------ *)
(** ** JavaScript values *)
(* ------------------------------------------------------------------ *)

(** The result of [JSON.parse]. *)
#[local] Unset Elimination Schemes.
Inductive json (N : Type) : Type :=
| JNull
| JBool (b : bool)
| JNum (n : N)
| JStr (s : string)
| JArr (items : list (json N))
| JObj (fields : list (string * json N)).
#[local] Set Elimination Schemes.

Arguments JNull {N}.
Arguments JBool {N} b.
Arguments JNum {N} n.
Arguments JStr {N} s.
Arguments JArr {N} items.
Arguments JObj {N} fields.

(** What a call of [forward] can return: a transform of the table returns a
    number, the functions inherited from [Object.prototype] return other
    things. *)
Inductive jsval (N : Type) : Type :=
| VNumber (n : N)
| VString (s : string)
| VBool (b : bool)
| VNumberObject (n : N).

Arguments VNumber {N} n.
Arguments VString {N} s.
Arguments VBool {N} b.
Arguments VNumberObject {N} n.

(** What the handler did, in order: the calls of [fit] and of the
    transform. *)
Inductive event (N : Type) : Type :=
| CallFit (x y : list N)
| CallForward (r2 : N).

Arguments CallFit {N} x y.
Arguments CallForward {N} r2.

(** The object handed to [JSON.stringify], or no body at all. *)
Inductive payload (N : Type) : Type :=
| NoBody
| ErrorBody (error : string)
| MainResultBody (mainResult : jsval N).

Arguments NoBody {N}.
Arguments ErrorBody {N} error.
Arguments MainResultBody {N} mainResult.

Record Response (N : Type) : Type := mkResponse {
  status : nat;
  headers : list (string * string);
  body : payload N
}.

Arguments mkResponse {N} status headers body.
Arguments status {N} r.
Arguments headers {N} r.
Arguments body {N} r.

(** A handler either answers or lets an exception escape. *)
Inductive outcome (N : Type) : Type :=
| Respond (r : Response N)
| Uncaught.

Arguments Respond {N} r.
Arguments Uncaught {N}.

Record Request (N : Type) : Type := mkRequest {
  method : string;
  origin : option string;      (* the [Origin] header *)
  parsed : option (json N)     (* [request.json()]; [None] when it throws *)
}.

Arguments mkRequest {N} method origin parsed.
Arguments method {N} r.
Arguments origin {N} r.
Arguments parsed {N} r.

Section Values.

Context {N : Type} {A : Arith N}.

(** The last binding of a key wins in a parsed object. *)
Fixpoint get_field (k : string) (fields : list (string * json N))
  : option (json N) :=
  match fields with
  | [] => None
  | (k', v) :: rest =>
      match get_field k rest with
      | Some w => Some w
      | None => if String.eqb k k' then Some v else None
      end
  end.

(** [v.k] for a parsed value that is not [null]: only an object literal has
    the properties [rows] and [transformKey]. *)
Definition prop (k : string) (v : json N) : option (json N) :=
  match v with
  | JObj fields => get_field k fields
  | _ => None
  end.

(** Truthiness of a value; [None] is [undefined]. *)
Definition truthy (v : option (json N)) : bool :=
  match v with
  | None => false
  | Some JNull => false
  | Some (JBool b) => b
  | Some (JNum n) => truthy_number n
  | Some (JStr s) => negb (String.eqb s "")
  | Some (JArr _) => true
  | Some (JObj _) => true
  end.

(** Decimal name of an array index. *)
Definition index_name (i : nat) : string :=
  NilEmpty.string_of_uint (Nat.to_uint i).

(** [row[i]]: [None] when the access throws a [TypeError] ([row] is [null]),
    [Some None] when it yields [undefined].  A string is indexed by its
    characters (bytes here, which agrees with JavaScript on ASCII). *)
Definition index (row : json N) (i : nat) : option (option (json N)) :=
  match row with
  | JNull => None
  | JArr items => Some (nth_error items i)
  | JStr s =>
      Some (match String.get i s with
            | Some c => Some (JStr (String c EmptyString))
            | None => None
            end)
  | JObj fields => Some (get_field (index_name i) fields)
  | JBool _ => Some None
  | JNum _ => Some None
  end.

Definition corsHeaders (request : Request N) : list (string * string) :=
  let origin :=
    match origin request with
    | Some o => o
    | None => ""%string
    end in
  [ ("Access-Control-Allow-Origin"%string,
     if String.eqb origin "" then "*"%string else origin);
    ("Access-Control-Allow-Methods"%string, "POST, OPTIONS"%string);
    ("Access-Control-Allow-Headers"%string, "Content-Type"%string) ].

Definition jsonResponse (request : Request N) (st : nat) (p : payload N)
  : Response N :=
  mkResponse st (("Content-Type"%string, "application/json"%string) :: corsHeaders request) p.

(** The rounding step shared by both handlers:
    [typeof m === 'number' && isFinite(m) ? Number(m.toFixed(6)) : m]. *)
Definition round_result (mainResult : jsval N) : jsval N :=
  match mainResult with
  | VNumber n =>
      if isFinite n then VNumber (Number_toFixed6 n) else mainResult
  | _ => mainResult
  end.

End Values.

(* ------------------------------------------------------------------ *)
(** ** The fixed variant *)
(* ------------------------------------------------------------------ *)

Module Fixed.

Section Program.

Context {N : Type} {A : Arith N}.

Local Open Scope js_scope.

(** The four running sums of the first loop of [fit].  Reading past the
    end of an array gives [undefined], which is [NaN] in arithmetic; it
    does not occur when the arrays have equal length, as in the handler. *)
Definition sums (n : nat) (u y : list N) : N * N * N * N :=
  fold_left
    (fun '(sumU, sumU2, sumY, sumUY) i =>
       (sumU + nth i u nan,
        sumU2 + nth i u nan * nth i u nan,
        sumY + nth i y nan,
        sumUY + nth i u nan * nth i y nan))
    (seq 0 n) (int 0, int 0, int 0, int 0).

(** The two running sums of the second loop. *)
Definition squares (n : nat) (y yPred : list N) (yMean : N) : N * N :=
  fold_left
    (fun '(ssRes, ssTot) i =>
       (ssRes + (nth i y nan - nth i yPred nan) ** 2,
        ssTot + (nth i y nan - yMean) ** 2))
    (seq 0 n) (int 0, int 0).

(** [fit(x, y)]; [None] is [null]. *)
Definition fit (x y : list N) : option N :=
  let n := List.length x in
  let u := map (fun xi => int 1 / (xi * xi)) x in
  let '(sumU, sumU2, sumY, sumUY) := sums n u y in
  let det := of_nat n * sumU2 - sumU * sumU in
  if Math_abs det <? lit d1e_20 then None
  else
    let a := (sumY * sumU2 - sumU * sumUY) / det in
    let b := (of_nat n * sumUY - sumU * sumY) / det in
    let yPred := map (fun xi => b / (xi * xi) + a) x in
    let yMean := sumY / of_nat n in
    let '(ssRes, ssTot) := squares n y yPred yMean in
    let r2 := if int 0 <? ssTot then int 1 - ssRes / ssTot else int 0 in
    Some r2.

Definition transform (r2 : N) : N :=
  - Math_log (Math_max (lit d1e_10)
                (int 1 - Math_max (int 0) (Math_min (lit d0_9999) r2))).

(** The host's [parseFloat], applied to [row[0]] and [row[1]] (the
    argument [None] is [undefined]).  It converts its argument to a string
    first, which throws a [TypeError] on an object or an array that cannot
    be converted: the result [None]. *)
Variable parseFloat : option (json N) -> option N.

(** One turn of [for (const row of rows)]: [None] when [row[0]] or one of
    the two calls of [parseFloat] throws. *)
Definition push_row (acc : option (list N * list N)) (row : json N)
  : option (list N * list N) :=
  match acc with
  | None => None
  | Some (x, y) =>
      match index row 0 with
      | None => None
      | Some e0 =>
          match parseFloat e0 with
          | None => None
          | Some xi =>
              match index row 1 with
              | None => None
              | Some e1 =>
                  match parseFloat e1 with
                  | None => None
                  | Some yi =>
                      if negb (isNaN xi) && negb (isNaN yi) && (int 0 <? xi)
                      then Some (x ++ [xi], y ++ [yi])
                      else Some (x, y)
                  end
              end
          end
      end
  end.

Definition collect (rows : list (json N)) : option (list N * list N) :=
  fold_left push_row rows (Some ([], [])).

(** The handler.  The [catch] around [transform(r2)] has no counterpart:
    [transform] is built from [Math.log], [Math.max] and [Math.min], which
    do not throw. *)
Definition onRequestPost (request : Request N) : list (event N) * outcome N :=
  if String.eqb (method request) "OPTIONS" then
    ([], Respond (mkResponse 204 (corsHeaders request) NoBody))
  else
    match parsed request with
    | None =>
        ([], Respond (jsonResponse request 400 (ErrorBody "Nederīga JSON struktūra")))
    | Some body =>
        let rows := if truthy (Some body) then prop "rows" body else None in
        match rows with
        | Some (JArr rows) =>
            match collect rows with
            | None => ([], Uncaught)
            | Some (x, y) =>
                if (List.length x <? 2)%nat then
                  ([], Respond (jsonResponse request 400
                                  (ErrorBody "Vajag vismaz 2 derīgus punktus")))
                else
                  match fit x y with
                  | None =>
                      ([CallFit x y],
                       Respond (jsonResponse request 422
                                  (ErrorBody "Pielāgošana neizdevās")))
                  | Some r2 =>
                      let mainResult := VNumber (transform r2) in
                      let value := round_result mainResult in
                      ([CallFit x y; CallForward r2],
                       Respond (jsonResponse request 200 (MainResultBody value)))
                  end
            end
        | _ =>
            ([], Respond (jsonResponse request 400 (ErrorBody "Trūkst datu rindu")))
        end
    end.

End Program.

End Fixed.

(* ------------------------------------------------------------------ *)
(** ** The selectable variant ([functions/api/result.js]) *)
(* ------------------------------------------------------------------ *)

Module Selectable.

(** The functions an object literal inherits from [Object.prototype]
    (ECMA-262, 20.1.3 and B.2.2). *)
Inductive builtin : Type :=
| Object_constructor
| Object_defineGetter
| Object_defineSetter
| Object_hasOwnProperty
| Object_lookupGetter
| Object_lookupSetter
| Object_isPrototypeOf
| Object_propertyIsEnumerable
| Object_toString
| Object_valueOf
| Object_toLocaleString.

(** What [TRANSFORMS[key]] evaluates to. *)
Inductive property (N : Type) : Type :=
| Closure (f : N -> N)
| Builtin (b : builtin)
| PrototypeObject           (* [__proto__]: an object, not a function *)
| Undefined.

Arguments Closure {N} f.
Arguments Builtin {N} b.
Arguments PrototypeObject {N}.
Arguments Undefined {N}.

Section Program.

Context {N : Type} {A : Arith N}.

Local Open Scope js_scope.

Definition sums (n : nat) (u y : list N) : N * N * N * N :=
  fold_left
    (fun '(sumU, sumU2, sumY, sumUY) i =>
       (sumU + nth i u nan,
        sumU2 + nth i u nan * nth i u nan,
        sumY + nth i y nan,
        sumUY + nth i u nan * nth i y nan))
    (seq 0 n) (int 0, int 0, int 0, int 0).

Definition squares (n : nat) (y yPred : list N) (yMean : N) : N * N :=
  fold_left
    (fun '(ssRes, ssTot) i =>
       (ssRes + (nth i y nan - nth i yPred nan) ** 2,
        ssTot + (nth i y nan - yMean) ** 2))
    (seq 0 n) (int 0, int 0).

Definition fit (x y : list N) : option N :=
  let n := List.length x in
  let u := map (fun xi => int 1 / (xi * xi)) x in
  let '(sumU, sumU2, sumY, sumUY) := sums n u y in
  let det := of_nat n * sumU2 - sumU * sumU in
  if Math_abs det <? lit d1e_20 then None
  else
    let a := (sumY * sumU2 - sumU * sumUY) / det in
    let b := (of_nat n * sumUY - sumU * sumY) / det in
    let yPred := map (fun xi => b / (xi * xi) + a) x in
    let yMean := sumY / of_nat n in
    let '(ssRes, ssTot) := squares n y yPred yMean in
    let r2 := if int 0 <? ssTot then int 1 - ssRes / ssTot else int 0 in
    Some r2.

(** The closures of the table, under the names the specification gives
    them. *)

Definition reciprocal_complement (r2 : N) : N :=
  if r2 >=? lit d0_999 then lit d1e10
  else int 1 / (int 1 - Math_max (int 0) (Math_min (lit d0_999) r2)).

Definition exp_reciprocal_complement (r2 : N) : N :=
  if r2 >=? lit d0_999 then lit d1e100
  else Math_exp (int 1 / (int 1 - Math_max (int 0) (Math_min (lit d0_999) r2))).

Definition neg_log_complement (r2 : N) : N :=
  - Math_log (Math_max (lit d1e_10)
                (int 1 - Math_max (int 0) (Math_min (lit d0_9999) r2))).

Definition inverse_sqrt_complement (r2 : N) : N :=
  if r2 >=? lit d0_999 then lit d1e10
  else int 1 / Math_sqrt (Math_max (lit d1e_10)
                            (int 1 - Math_max (int 0) (Math_min (lit d0_999) r2))).

Definition tangent_half_pi (r2 : N) : N :=
  Math_tan (Math_PI * Math_max (int 0) (Math_min (lit d0_999) r2) / int 2).

Definition exp_decay_scaled (r2 : N) : N :=
  Math_exp (int 10 * (Math_max (int 0) r2 - int 1)).

Definition inverse_cube_complement (r2 : N) : N :=
  if r2 >=? lit d0_999 then lit d1e30
  else int 1 / (Math_max (lit d1e_10)
                  (int 1 - Math_max (int 0) (Math_min (lit d0_999) r2))) ** 3.

Definition log1p (r2 : N) : N :=
  Math_log (int 1 + Math_max (int 0) r2).

Definition exp_clamped_low (r2 : N) : N :=
  Math_exp (Math_max (int (-10)) r2).

Definition sqrt1p (r2 : N) : N :=
  Math_sqrt (int 1 + Math_max (int 0) r2).

Definition square (r2 : N) : N :=
  (Math_max (int 0) r2) ** 2.

Definition arctan_normalized (r2 : N) : N :=
  Math_atan (Math_max (int 0) r2) * int 2 / Math_PI.

(** [v || 0]: a number is falsy when it is zero or [NaN]. *)
Definition saturating_ratio (r2 : N) : N :=
  let v := Math_max (int 0) r2 / (int 1 + Math_max (int 0) r2) in
  if truthy_number v then v else int 0.

Definition sinh_transform (r2 : N) : N :=
  Math_sinh (Math_max (int 0) r2).

Definition exp_negative (r2 : N) : N :=
  Math_exp (- Math_max (int 0) r2).

(** The object literal [TRANSFORMS], one binding per line of the source. *)
Definition TRANSFORMS : list (string * (N -> N)) :=
  [ ("1/(1-R²) ★"%string, reciprocal_complement);
    ("exp(1/(1-R²)) ★"%string, exp_reciprocal_complement);
    ("-log(1-R²) ★"%string, neg_log_complement);
    ("1/√(1-R²) ★"%string, inverse_sqrt_complement);
    ("tan(π·R²/2) ★"%string, tangent_half_pi);
    ("exp(10·(R²-1)) ★"%string, exp_decay_scaled);
    ("(1-R²)⁻³ ★"%string, inverse_cube_complement);
    ("log(1 + R²)"%string, log1p);
    ("exp(R²)"%string, exp_clamped_low);
    ("√(1 + R²)"%string, sqrt1p);
    ("R²²"%string, square);
    ("arctan(R²)×2/π"%string, arctan_normalized);
    ("R²/(1+R²)"%string, saturating_ratio);
    ("sinh(R²)"%string, sinh_transform);
    ("exp(-R²)"%string, exp_negative) ].

(** An own property of the table. *)
Fixpoint own (key : string) (table : list (string * (N -> N))) : option (N -> N) :=
  match table with
  | [] => None
  | (k, f) :: rest => if String.eqb key k then Some f else own key rest
  end.

Definition inherited (key : string) : property N :=
  if String.eqb key "constructor" then Builtin Object_constructor
  else if String.eqb key "__defineGetter__" then Builtin Object_defineGetter
  else if String.eqb key "__defineSetter__" then Builtin Object_defineSetter
  else if String.eqb key "hasOwnProperty" then Builtin Object_hasOwnProperty
  else if String.eqb key "__lookupGetter__" then Builtin Object_lookupGetter
  else if String.eqb key "__lookupSetter__" then Builtin Object_lookupSetter
  else if String.eqb key "isPrototypeOf" then Builtin Object_isPrototypeOf
  else if String.eqb key "propertyIsEnumerable" then Builtin Object_propertyIsEnumerable
  else if String.eqb key "toString" then Builtin Object_toString
  else if String.eqb key "valueOf" then Builtin Object_valueOf
  else if String.eqb key "toLocaleString" then Builtin Object_toLocaleString
  else if String.eqb key "__proto__" then PrototypeObject
  else Undefined.

(** Property lookup: own properties first, then the prototype. *)
Definition lookup (key : string) : property N :=
  match own key TRANSFORMS with
  | Some f => Closure f
  | None => inherited key
  end.

(** [typeof forward === 'function'] *)
Definition is_function (p : property N) : bool :=
  match p with
  | Closure _ => true
  | Builtin _ => true
  | PrototypeObject => false
  | Undefined => false
  end.

(** [forward(r2)], a call with [this] undefined; [None] when it throws.
    A closure of the table returns a number, which may be [NaN] or
    infinite.  [Object(r2)] wraps the number, [toString] answers for
    [undefined], [isPrototypeOf] answers [false] for a primitive argument,
    and the others start with [ToObject(this)], which throws a
    [TypeError]. *)
Definition call (forward : property N) (r2 : N) : option (jsval N) :=
  match forward with
  | Closure f => Some (VNumber (f r2))
  | Builtin Object_constructor => Some (VNumberObject r2)
  | Builtin Object_toString => Some (VString "[object Undefined]")
  | Builtin Object_isPrototypeOf => Some (VBool false)
  | Builtin _ => None
  | PrototypeObject => None
  | Undefined => None
  end.

Variable parseFloat : option (json N) -> option N.

(** The host's conversion of a value that is not a string to a property
    key ([ToPropertyKey]); a string is its own key.  The conversion throws
    a [TypeError] on an object or an array that cannot be converted to a
    string: the result [None]. *)
Variable toKey : json N -> option string.

Definition ToPropertyKey (v : json N) : option string :=
  match v with
  | JStr s => Some s
  | _ => toKey v
  end.

Definition push_row (acc : option (list N * list N)) (row : json N)
  : option (list N * list N) :=
  match acc with
  | None => None
  | Some (x, y) =>
      match index row 0 with
      | None => None
      | Some e0 =>
          match parseFloat e0 with
          | None => None
          | Some xi =>
              match index row 1 with
              | None => None
              | Some e1 =>
                  match parseFloat e1 with
                  | None => None
                  | Some yi =>
                      if negb (isNaN xi) && negb (isNaN yi) && (int 0 <? xi)
                      then Some (x ++ [xi], y ++ [yi])
                      else Some (x, y)
                  end
              end
          end
      end
  end.

Definition collect (rows : list (json N)) : option (list N * list N) :=
  fold_left push_row rows (Some ([], [])).

Definition missing (request : Request N) : list (event N) * outcome N :=
  ([], Respond (jsonResponse request 400 (ErrorBody "Missing rows or transformKey"))).

(** The handler.  The lookup [TRANSFORMS[transformKey]] stands outside
    every [try]: an exception of the key conversion leaves the handler. *)
Definition onRequestPost (request : Request N) : list (event N) * outcome N :=
  if String.eqb (method request) "OPTIONS" then
    ([], Respond (mkResponse 204 (corsHeaders request) NoBody))
  else
    match parsed request with
    | None => ([], Respond (jsonResponse request 400 (ErrorBody "Invalid JSON")))
    | Some body =>
        let rows := if truthy (Some body) then prop "rows" body else None in
        let transformKey :=
          if truthy (Some body) then prop "transformKey" body else None in
        match rows, transformKey with
        | Some (JArr rows), Some key =>
            if negb (truthy transformKey) then missing request
            else
              match collect rows with
              | None => ([], Uncaught)
              | Some (x, y) =>
                  if (List.length x <? 2)%nat then
                    ([], Respond (jsonResponse request 400
                                    (ErrorBody "Need at least 2 valid points")))
                  else
                    match ToPropertyKey key with
                    | None => ([], Uncaught)
                    | Some name =>
                        let forward := lookup name in
                        if negb (is_function forward) then
                          ([], Respond (jsonResponse request 400
                                          (ErrorBody "Unknown transform")))
                        else
                          match fit x y with
                          | None =>
                              ([CallFit x y],
                               Respond (jsonResponse request 422
                                          (ErrorBody "Fit failed")))
                          | Some r2 =>
                              match call forward r2 with
                              | None =>
                                  ([CallFit x y; CallForward r2],
                                   Respond (jsonResponse request 422
                                              (ErrorBody "Transform failed")))
                              | Some mainResult =>
                                  let value := round_result mainResult in
                                  ([CallFit x y; CallForward r2],
                                   Respond (jsonResponse request 200
                                              (MainResultBody value)))
                              end
                          end
                    end
              end
        | _, _ => missing request
        end
    end.

End Program.

End Selectable.

(* ------------------------------------------------------------------ *)
(** ** Exact arithmetic *)
(* ------------------------------------------------------------------ *)

(** The decimal literals as reals. *)
Definition exact_lit (d : literal) : R :=
  match d with
  | d1e_20 => 1e-20
  | d1e_10 => 1e-10
  | d0_999 => 0.999
  | d0_9999 => 0.9999
  | d1e10 => 1e10
  | d1e30 => 1e30
  | d1e100 => 1e100
  end.

(** Arithmetic over the reals: every number is finite and every operation
    exact.  There is no [NaN]: the field [nan] is read only past the end
    of an array, which does not occur on arrays of equal length, and is 0
    here.  A quotient by zero, the logarithm of a number that is not
    positive and the square root of a negative number are what [Rdiv],
    [ln] and [sqrt] make of them; the statements made in this arithmetic
    keep away from them. *)
#[global] Instance ExactArith : Arith R := {
  int := IZR;
  lit := exact_lit;
  of_nat := INR;
  nan := 0;
  op_add := Rplus;
  op_sub := Rminus;
  op_mul := Rmult;
  op_div := Rdiv;
  op_neg := Ropp;
  op_lt := fun a b => if Rlt_dec a b then true else false;
  op_ge := fun a b => if Rge_dec a b then true else false;
  op_pow := pow;
  isNaN := fun _ => false;
  isFinite := fun _ => true;
  Math_abs := Rabs;
  Math_max := Rmax;
  Math_min := Rmin;
  Math_exp := exp;
  Math_log := ln;
  Math_sqrt := sqrt;
  Math_tan := tan;
  Math_atan := atan;
  Math_sinh := sinh;
  Math_PI := PI;
  Number_toFixed6 := toFixed6
}.

(** Exact arithmetic with the special values: the operations are exact on
    the reals and follow IEEE 754 on [NaN] and the infinities.  There is
    one zero, read as [+0] where a sign is needed (a quotient by it). *)
Module Extended.

Definition inf (positive : bool) : jsnumber :=
  if positive then PInf else NInf.

Definition add (a b : jsnumber) : jsnumber :=
  match a, b with
  | NaN, _ | _, NaN => NaN
  | PInf, NInf | NInf, PInf => NaN
  | PInf, _ | _, PInf => PInf
  | NInf, _ | _, NInf => NInf
  | Num r, Num s => Num (r + s)
  end.

Definition neg (a : jsnumber) : jsnumber :=
  match a with
  | NaN => NaN
  | PInf => NInf
  | NInf => PInf
  | Num r => Num (- r)
  end.

Definition sub (a b : jsnumber) : jsnumber :=
  match a, b with
  | NaN, _ | _, NaN => NaN
  | PInf, PInf | NInf, NInf => NaN
  | PInf, _ | _, NInf => PInf
  | NInf, _ | _, PInf => NInf
  | Num r, Num s => Num (r - s)
  end.

(** An infinity of sign [positive] times, or divided by, the real [s]. *)
Definition scale_inf (positive : bool) (s : R) : jsnumber :=
  if Rlt_dec 0 s then inf positive
  else if Rlt_dec s 0 then inf (negb positive)
  else NaN.

Definition mul (a b : jsnumber) : jsnumber :=
  match a, b with
  | NaN, _ | _, NaN => NaN
  | PInf, PInf | NInf, NInf => PInf
  | PInf, NInf | NInf, PInf => NInf
  | PInf, Num s | Num s, PInf => scale_inf true s
  | NInf, Num s | Num s, NInf => scale_inf false s
  | Num r, Num s => Num (r * s)
  end.

Definition div (a b : jsnumber) : jsnumber :=
  match a, b with
  | NaN, _ | _, NaN => NaN
  | PInf, PInf | PInf, NInf | NInf, PInf | NInf, NInf => NaN
  | PInf, Num s => if Rlt_dec s 0 then NInf else PInf
  | NInf, Num s => if Rlt_dec s 0 then PInf else NInf
  | Num _, PInf | Num _, NInf => Num 0
  | Num r, Num s =>
      if Req_dec_T s 0 then scale_inf true r else Num (r / s)
  end.

Definition lt (a b : jsnumber) : bool :=
  match a, b with
  | NaN, _ | _, NaN => false
  | _, NInf => false
  | NInf, _ => true
  | PInf, _ => false
  | _, PInf => true
  | Num r, Num s => if Rlt_dec r s then true else false
  end.

Definition ge (a b : jsnumber) : bool :=
  match a, b with
  | NaN, _ | _, NaN => false
  | _, _ => negb (lt a b)
  end.

(** [a ** k] for a literal exponent [k]. *)
Definition power (a : jsnumber) (k : nat) : jsnumber :=
  match k with
  | O => Num 1
  | S _ =>
      match a with
      | NaN => NaN
      | PInf => PInf
      | NInf => if Nat.even k then PInf else NInf
      | Num r => Num (r ^ k)
      end
  end.

Definition is_nan (a : jsnumber) : bool :=
  match a with NaN => true | _ => false end.

Definition is_finite (a : jsnumber) : bool :=
  match a with Num _ => true | _ => false end.

Definition abs (a : jsnumber) : jsnumber :=
  match a with
  | NaN => NaN
  | PInf | NInf => PInf
  | Num r => Num (Rabs r)
  end.

Definition max (a b : jsnumber) : jsnumber :=
  match a, b with
  | NaN, _ | _, NaN => NaN
  | PInf, _ | _, PInf => PInf
  | NInf, c | c, NInf => c
  | Num r, Num s => Num (Rmax r s)
  end.

Definition min (a b : jsnumber) : jsnumber :=
  match a, b with
  | NaN, _ | _, NaN => NaN
  | NInf, _ | _, NInf => NInf
  | PInf, c | c, PInf => c
  | Num r, Num s => Num (Rmin r s)
  end.

Definition exponential (a : jsnumber) : jsnumber :=
  match a with
  | NaN => NaN
  | PInf => PInf
  | NInf => Num 0
  | Num r => Num (exp r)
  end.

Definition log (a : jsnumber) : jsnumber :=
  match a with
  | NaN => NaN
  | PInf => PInf
  | NInf => NaN
  | Num r =>
      if Rlt_dec 0 r then Num (ln r)
      else if Rlt_dec r 0 then NaN
      else NInf
  end.

Definition root (a : jsnumber) : jsnumber :=
  match a with
  | NaN => NaN
  | PInf => PInf
  | NInf => NaN
  | Num r => if Rlt_dec r 0 then NaN else Num (sqrt r)
  end.

(** The tangent of a real; the program calls it below [π/2] only. *)
Definition tangent (a : jsnumber) : jsnumber :=
  match a with
  | Num r => Num (tan r)
  | _ => NaN
  end.

Definition arctangent (a : jsnumber) : jsnumber :=
  match a with
  | NaN => NaN
  | PInf => Num (PI / 2)
  | NInf => Num (- (PI / 2))
  | Num r => Num (atan r)
  end.

Definition hyperbolic_sine (a : jsnumber) : jsnumber :=
  match a with
  | Num r => Num (sinh r)
  | _ => a
  end.

(** [toFixed] prints [NaN] and the infinities by name, and [Number] reads
    them back. *)
Definition fixed6 (a : jsnumber) : jsnumber :=
  match a with
  | Num r => Num (toFixed6 r)
  | _ => a
  end.

End Extended.

Arguments Extended.add !a !b.
Arguments Extended.sub !a !b.
Arguments Extended.mul !a !b.
Arguments Extended.div !a !b.
Arguments Extended.lt !a !b.
Arguments Extended.ge !a !b.
Arguments Extended.max !a !b.
Arguments Extended.min !a !b.
Arguments Extended.neg !a.
Arguments Extended.abs !a.
Arguments Extended.power !a !k.
Arguments Extended.exponential !a.
Arguments Extended.log !a.
Arguments Extended.root !a.
Arguments Extended.tangent !a.
Arguments Extended.arctangent !a.
Arguments Extended.hyperbolic_sine !a.
Arguments Extended.fixed6 !a.
Arguments Extended.is_nan !a.
Arguments Extended.is_finite !a.

#[global] Instance ExtendedArith : Arith jsnumber := {
  int := fun z => Num (IZR z);
  lit := fun d => Num (exact_lit d);
  of_nat := fun n => Num (INR n);
  nan := NaN;
  op_add := Extended.add;
  op_sub := Extended.sub;
  op_mul := Extended.mul;
  op_div := Extended.div;
  op_neg := Extended.neg;
  op_lt := Extended.lt;
  op_ge := Extended.ge;
  op_pow := Extended.power;
  isNaN := Extended.is_nan;
  isFinite := Extended.is_finite;
  Math_abs := Extended.abs;
  Math_max := Extended.max;
  Math_min := Extended.min;
  Math_exp := Extended.exponential;
  Math_log := Extended.log;
  Math_sqrt := Extended.root;
  Math_tan := Extended.tangent;
  Math_atan := Extended.arctangent;
  Math_sinh := Extended.hyperbolic_sine;
  Math_PI := Num PI;
  Number_toFixed6 := Extended.fixed6
}.

(* ------------------------------------------------------------------ *)
(** ** Binary64 arithmetic *)
(* ------------------------------------------------------------------ *)

(** Every [+], [-], [*], [/], [Math.abs] and [<] is the IEEE 754 binary64
    operation, as in the engine; [v ** 2] is taken to be the rounded
    product [v * v].  The module first repeats [fit] (its text is the same
    in both files) directly over the primitive floats, and then gives the
    arithmetic in which the whole program is read. *)
Module Binary64.

Import Floats.
Local Open Scope float_scope.

(** The literal [1e-20] denotes the binary64 number nearest to it. *)
Definition tiny : float := 0x1.79ca10c924223p-67.

Definition of_length (n : nat) : float :=
  PrimFloat.of_uint63 (Uint63.of_Z (Z.of_nat n)).

Definition sums (n : nat) (u y : list float) : float * float * float * float :=
  fold_left
    (fun '(sumU, sumU2, sumY, sumUY) i =>
       (sumU + nth i u nan,
        sumU2 + nth i u nan * nth i u nan,
        sumY + nth i y nan,
        sumUY + nth i u nan * nth i y nan))
    (seq 0 n) (0, 0, 0, 0).

Definition squares (n : nat) (y yPred : list float) (yMean : float)
  : float * float :=
  fold_left
    (fun '(ssRes, ssTot) i =>
       (ssRes + (nth i y nan - nth i yPred nan) * (nth i y nan - nth i yPred nan),
        ssTot + (nth i y nan - yMean) * (nth i y nan - yMean)))
    (seq 0 n) (0, 0).

(** The determinant as [fit] computes it. *)
Definition det (x y : list float) : float :=
  let n := List.length x in
  let u := map (fun xi => 1 / (xi * xi)) x in
  let '(sumU, sumU2, sumY, sumUY) := sums n u y in
  of_length n * sumU2 - sumU * sumU.

Definition fit (x y : list float) : option float :=
  let n := List.length x in
  let u := map (fun xi => 1 / (xi * xi)) x in
  let '(sumU, sumU2, sumY, sumUY) := sums n u y in
  let det := of_length n * sumU2 - sumU * sumU in
  if PrimFloat.ltb (abs det) tiny then None
  else
    let a := (sumY * sumU2 - sumU * sumUY) / det in
    let b := (of_length n * sumUY - sumU * sumY) / det in
    let yPred := map (fun xi => b / (xi * xi) + a) x in
    let yMean := sumY / of_length n in
    let '(ssRes, ssTot) := squares n y yPred yMean in
    let r2 := if PrimFloat.ltb 0 ssTot then 1 - ssRes / ssTot else 0 in
    Some r2.

(** The functions of the host that ECMA-262 leaves to the implementation
    (they are "implementation-approximated"), and the decimal printing
    and reading of [Number(m.toFixed(6))]. *)
Record Host : Type := mkHost {
  host_pow : float -> nat -> float;
  host_exp : float -> float;
  host_log : float -> float;
  host_sqrt : float -> float;
  host_tan : float -> float;
  host_atan : float -> float;
  host_sinh : float -> float;
  host_toFixed6 : float -> float
}.

(** The decimal literals denote the binary64 numbers nearest to them. *)
Definition literal64 (d : literal) : float :=
  match d with
  | d1e_20 => tiny
  | d1e_10 => 0x1.b7cdfd9d7bdbbp-34
  | d0_999 => 0x1.ff7ced916872bp-1
  | d0_9999 => 0x1.fff2e48e8a71ep-1
  | d1e10 => 0x1.2a05f2p+33
  | d1e30 => 0x1.93e5939a08ceap+99
  | d1e100 => 0x1.249ad2594c37dp+332
  end.

(** An integer literal of the program (all are small). *)
Definition of_int (z : Z) : float :=
  match z with
  | Z0 => 0
  | Zpos _ => PrimFloat.of_uint63 (Uint63.of_Z z)
  | Zneg p => - PrimFloat.of_uint63 (Uint63.of_Z (Zpos p))
  end.

(** [Math.max] and [Math.min]: [NaN] when an argument is [NaN], and [+0]
    above [-0]. *)
Definition max (a b : float) : float :=
  if PrimFloat.is_nan a || PrimFloat.is_nan b then nan
  else if PrimFloat.ltb a b then b
  else if PrimFloat.ltb b a then a
  else match PrimFloat.classify a with
       | FloatClass.NZero => b
       | _ => a
       end.

Definition min (a b : float) : float :=
  if PrimFloat.is_nan a || PrimFloat.is_nan b then nan
  else if PrimFloat.ltb a b then a
  else if PrimFloat.ltb b a then b
  else match PrimFloat.classify a with
       | FloatClass.PZero => b
       | _ => a
       end.

(** [a ** k] for a literal exponent: the square is the rounded product,
    other powers are the host's. *)
Definition power (h : Host) (a : float) (k : nat) : float :=
  match k with
  | 2%nat => a * a
  | _ => host_pow h a k
  end.

Definition arith (h : Host) : Arith float :=
  Build_Arith float
    of_int                      (* integer literals *)
    literal64                   (* decimal literals *)
    of_length                   (* [x.length] *)
    PrimFloat.nan
    PrimFloat.add
    PrimFloat.sub
    PrimFloat.mul
    PrimFloat.div
    PrimFloat.opp
    PrimFloat.ltb
    (fun a b => PrimFloat.leb b a)
    (power h)
    PrimFloat.is_nan
    PrimFloat.is_finite
    PrimFloat.abs
    max
    min
    (host_exp h)
    (host_log h)
    (host_sqrt h)
    (host_tan h)
    (host_atan h)
    (host_sinh h)
    0x1.921fb54442d18p+1        (* [Math.PI] *)
    (host_toFixed6 h).

End Binary64.

(* ------------------------------------------------------------------ *)
(** ** Quantities the statements speak of *)
(* ------------------------------------------------------------------ *)

(** [Sigma n f] is [f 0 + ... + f (n-1)]. *)
Fixpoint Sigma (n : nat) (f : nat -> R) : R :=
  match n with
  | O => 0
  | S k => Sigma k f + f k
  end.

(** The substituted abscissa [u[i] = 1 / x[i]²]. *)
Definition u_of (x : list R) (i : nat) : R := 1 / (nth i x 0 * nth i x 0).

(** [det = n * Su2 - Su²], the determinant of the normal equations. *)
Definition det_of (x : list R) : R :=
  let n := List.length x in
  INR n * Sigma n (fun i => u_of x i * u_of x i)
  - Sigma n (u_of x) * Sigma n (u_of x).

(** R² as the specification writes it, over the sums rather than the
    loops: [det], [a], [b], [ssRes], [ssTot] and the unclamped quotient. *)
Definition fit_sums (x y : list R) : option R :=
  let n := List.length x in
  let Su := Sigma n (u_of x) in
  let Su2 := Sigma n (fun i => u_of x i * u_of x i) in
  let Sy := Sigma n (fun i => nth i y 0) in
  let Suy := Sigma n (fun i => u_of x i * nth i y 0) in
  let det := INR n * Su2 - Su * Su in
  if Rlt_dec (Rabs det) 1e-20 then None
  else
    let a := (Sy * Su2 - Su * Suy) / det in
    let b := (INR n * Suy - Su * Sy) / det in
    let ssRes := Sigma n (fun i => (nth i y 0 - (b * u_of x i + a)) ^ 2) in
    let ssTot := Sigma n (fun i => (nth i y 0 - Sy / INR n) ^ 2) in
    Some (if Rlt_dec 0 ssTot then 1 - ssRes / ssTot else 0).

(** The sum of [g x[i] y[i]] over the points, by index and over the list
    of pairs. *)
Definition point_sum (x y : list R) (g : R -> R -> R) : R :=
  Sigma (List.length x) (fun i => g (nth i x 0) (nth i y 0)).

Definition pair_sum (l : list (R * R)) (g : R -> R -> R) : R :=
  fold_right (fun p s => g (fst p) (snd p) + s) 0 l.

(** Data lying exactly on a curve [b0/x² + a0]. *)
Definition on_curve (a0 b0 : R) (x y : list R) : Prop :=
  List.length y = List.length x /\
  forall i, (i < List.length x)%nat ->
            nth i y 0 = b0 / (nth i x 0 * nth i x 0) + a0.

(** Monotone transforms. *)
Definition nondecreasing (f : R -> R) : Prop :=
  forall r1 r2, r1 <= r2 -> f r1 <= f r2.

Definition nonincreasing (f : R -> R) : Prop :=
  forall r1 r2, r1 <= r2 -> f r2 <= f r1.

(** The reals as numbers of the extended arithmetic. *)
Definition reals (l : list R) : list jsnumber := map Num l.

(** The names of the functions inherited from [Object.prototype]. *)
Definition prototype_functions : list string :=
  [ "constructor"; "__defineGetter__"; "__defineSetter__"; "hasOwnProperty";
    "__lookupGetter__"; "__lookupSetter__"; "isPrototypeOf";
    "propertyIsEnumerable"; "toString"; "valueOf"; "toLocaleString" ]%string.

(** What the statements in exact arithmetic assume of the host's
    [parseFloat]: a real parses to itself. *)
Definition parses_numbers (parseFloat : option (json jsnumber) -> option jsnumber)
  : Prop :=
  forall r, parseFloat (Some (JNum (Num r))) = Some (Num r).

(** A valid sample set: sequences of equal length, at least two points,
    positive abscissae. *)
Definition valid_input (x y : list R) : Prop :=
  List.length y = List.length x
  /\ (2 <= List.length x)%nat
  /\ Forall (fun xi => 0 < xi) x.

(** The same for binary64 sequences. *)
Definition valid_input64 (x y : list PrimFloat.float) : Prop :=
  List.length y = List.length x
  /\ (2 <= List.length x)%nat
  /\ Forall (fun xi => PrimFloat.ltb PrimFloat.zero xi = true) x.

(** The largest finite binary64 number, [Number.MAX_VALUE]. *)
Definition MAX_VALUE : R := (2 - / 2 ^ 52) * 2 ^ 1023.

(** The terms [x^i / i!] of the exponential series, and, for a rational
    [q], the partial sums of the alternating series of [exp (- q)] together
    with their last term. *)
Definition exp_term (x : R) (i : nat) : R := x ^ i / INR (fact i).

Fixpoint alt_terms (q : Q) (n : nat) : Q * Q :=
  match n with
  | O => (1%Q, 1%Q)
  | S k =>
      let '(t, s) := alt_terms q k in
      let t' := Qred (- t * q / inject_Z (Z.of_nat (S k))) in
      (t', Qred (s + t'))
  end.

Section Requests.

Context {N : Type} {A : Arith N}.

(** The rows [[x0, y0], [x1, y1], ...] of a request body. *)
Definition rows_of (x y : list N) : list (json N) :=
  map (fun p => JArr [JNum (fst p); JNum (snd p)]) (combine x y).

(** A [POST] request whose body parsed to [b]. *)
Definition post (b : json N) : Request N := mkRequest "POST" None (Some b).

(** The request is not a preflight and its body is an object whose [rows]
    is the array [rows] and whose [transformKey] is [key] ([None] when the
    body has none). *)
Definition carries (request : Request N) (rows : list (json N))
  (key : option (json N)) : Prop :=
  String.eqb (method request) "OPTIONS" = false /\
  exists b, parsed request = Some b /\
            prop "rows" b = Some (JArr rows) /\
            prop "transformKey" b = key.

(** Host functions for the closed examples.  [parseFloat] reads a number
    as itself, throws on an object with an own property [toString] (no
    value of a parsed body is callable, so that neither [toString] nor the
    inherited [valueOf] yields a primitive), and answers [NaN] otherwise:
    the examples apply it to numbers other than [-0], to missing entries,
    to objects and to the string ["abc"].  The conversion to a key is not
    called on a string; the examples apply it to objects, and it is also
    right on [null] and the booleans. *)
Definition parseFloat_example (v : option (json N)) : option N :=
  match v with
  | Some (JNum n) => Some n
  | Some (JObj fields) =>
      match get_field "toString" fields with
      | Some _ => None
      | None => Some nan
      end
  | _ => Some nan
  end.

Definition toKey_example (v : json N) : option string :=
  match v with
  | JObj fields =>
      match get_field "toString" fields with
      | Some _ => None
      | None => Some "[object Object]"%string
      end
  | JNull => Some "null"%string
  | JBool true => Some "true"%string
  | JBool false => Some "false"%string
  | _ => Some ""%string
  end.

Variable parseFloat : option (json N) -> option N.


(** Reading a row throws: the row is [null], or [parseFloat] throws on
    its first entry or, the first one parsed, on its second. *)
Definition throws (row : json N) : Prop :=
  row = JNull
  \/ (exists e0, index row 0 = Some e0 /\ parseFloat e0 = None)
  \/ (exists e0 xi e1,
        index row 0 = Some e0 /\ parseFloat e0 = Some xi
        /\ index row 1 = Some e1 /\ parseFloat e1 = None).

(** A point that passes the filter: both numbers parse and the abscissa
    is positive. *)
Definition valid (p : N * N) : bool :=
  negb (isNaN (fst p)) && negb (isNaN (snd p)) && (int 0 <? fst p)%js.

(** The pair of numbers a row parses to; [None] when reading it throws. *)
Definition read_row (row : json N) : option (N * N) :=
  match index row 0 with
  | Some e0 =>
      match parseFloat e0 with
      | Some xi =>
          match index row 1 with
          | Some e1 =>
              match parseFloat e1 with
              | Some yi => Some (xi, yi)
              | None => None
              end
          | None => None
          end
      | None => None
      end
  | None => None
  end.

(** The rows that survive the filter, as points. *)
Fixpoint survivors (rows : list (json N)) : list (N * N) :=
  match rows with
  | [] => []
  | row :: rest =>
      match read_row row with
      | Some p => if valid p then p :: survivors rest else survivors rest
      | None => survivors rest
      end
  end.

(** [v] is [m] rounded by [toFixed(6)] when [m] is a finite number, and [m]
    itself otherwise. *)
Definition rounded_or_passed (m v : jsval N) : Prop :=
  match m with
  | VNumber n =>
      if isFinite n then v = VNumber (Number_toFixed6 n) else v = m
  | _ => v = m
  end.

End Requests.

(** A request in binary64 whose points make [fit] overflow: [(1, 1e308)]
    and [(2, -1e308)], the ordinates being the binary64 numbers nearest
    to [1e308] and [-1e308]. *)
Module Binary64Examples.

Import Floats.
Local Open Scope float_scope.

Definition overflow_rows : list (json float) :=
  rows_of [1; 2] [0x1.1ccf385ebc8ap+1023; -0x1.1ccf385ebc8ap+1023].

Definition overflow_request (key : string) : Request float :=
  post (JObj [("rows"%string, JArr overflow_rows);
              ("transformKey"%string, JStr key)]).

(** The same rows without a key, for the fixed variant. *)
Definition overflow_request_fixed : Request float :=
  post (JObj [("rows"%string, JArr overflow_rows)]).

(** A host that answers [NaN] everywhere, which is what every host
    answers on [NaN]. *)
Definition nan_host : Binary64.Host :=
  Binary64.mkHost (fun _ _ => nan) (fun _ => nan) (fun _ => nan) (fun _ => nan)
    (fun _ => nan) (fun _ => nan) (fun _ => nan) (fun _ => nan).

End Binary64Examples.
(* ------------------------------------------------------------------ *)
(** ** Sums *)
(* ------------------------------------------------------------------ *)

Lemma Sigma_ext (n : nat) (f g : nat -> R) :
  (forall i, (i < n)%nat -> f i = g i) -> Sigma n f = Sigma n g.
Proof.
  induction n as [|n IH]; intros H; simpl; [reflexivity|].
  rewrite IH by (intros i Hi; apply H; lia).
  rewrite (H n) by lia. reflexivity.
Qed.

Lemma Sigma_nonneg (n : nat) (f : nat -> R) :
  (forall i, 0 <= f i) -> 0 <= Sigma n f.
Proof.
  intros H. induction n as [|n IH]; simpl; [lra|].
  specialize (H n). lra.
Qed.

(** The squared distances of [f] to a constant. *)
Lemma Sigma_shift_sq (n : nat) (f : nat -> R) (c : R) :
  Sigma n (fun i => (f i - c) ^ 2)
  = Sigma n (fun i => f i * f i) - 2 * c * Sigma n f + INR n * c * c.
Proof.
  induction n as [|n IH].
  - simpl. ring.
  - cbn [Sigma]. rewrite IH, S_INR. ring.
Qed.

(** The determinant is a sum of squares: [n Σf² - (Σf)² >= 0]. *)
Lemma det_nonneg (n : nat) (f : nat -> R) :
  0 <= INR n * Sigma n (fun i => f i * f i) - Sigma n f * Sigma n f.
Proof.
  induction n as [|n IH].
  - simpl. lra.
  - cbn [Sigma]. rewrite S_INR.
    pose proof (Sigma_shift_sq n f (f n)) as E.
    assert (0 <= Sigma n (fun i => (f i - f n) ^ 2)) as P.
    { apply Sigma_nonneg. intros i. apply pow2_ge_0. }
    nra.
Qed.

(** The residual sum of squares of a line [b u + a], expanded. *)
Lemma Sigma_residual (n : nat) (u y : nat -> R) (a b : R) :
  Sigma n (fun i => (y i - (b * u i + a)) ^ 2)
  = Sigma n (fun i => y i * y i)
    - 2 * b * Sigma n (fun i => u i * y i)
    - 2 * a * Sigma n y
    + b * b * Sigma n (fun i => u i * u i)
    + 2 * a * b * Sigma n u
    + INR n * a * a.
Proof.
  induction n as [|n IH].
  - simpl. ring.
  - cbn [Sigma]. rewrite IH, S_INR. ring.
Qed.

(** Sums of a line: the data of a perfect fit. *)
Lemma Sigma_line (n : nat) (u : nat -> R) (a0 b0 : R) :
  Sigma n (fun i => b0 * u i + a0) = b0 * Sigma n u + INR n * a0.
Proof.
  induction n as [|n IH].
  - simpl. ring.
  - cbn [Sigma]. rewrite IH, S_INR. ring.
Qed.

Lemma Sigma_line_u (n : nat) (u : nat -> R) (a0 b0 : R) :
  Sigma n (fun i => u i * (b0 * u i + a0))
  = b0 * Sigma n (fun i => u i * u i) + a0 * Sigma n u.
Proof.
  induction n as [|n IH].
  - simpl. ring.
  - cbn [Sigma]. rewrite IH. ring.
Qed.

Lemma Sigma_zero (n : nat) (f : nat -> R) :
  (forall i, (i < n)%nat -> f i = 0) -> Sigma n f = 0.
Proof.
  induction n as [|n IH]; intros H; simpl; [reflexivity|].
  rewrite IH by (intros i Hi; apply H; lia).
  rewrite (H n) by lia. ring.
Qed.

Lemma Sigma_const (n : nat) (c : R) : Sigma n (fun _ => c) = INR n * c.
Proof.
  induction n as [|n IH].
  - simpl. ring.
  - cbn [Sigma]. rewrite IH, S_INR. ring.
Qed.


(* ------------------------------------------------------------------ *)
(** ** Reading the program in exact arithmetic *)
(* ------------------------------------------------------------------ *)

(** Replaces the operations of [ExactArith] by the functions on [R] they
    stand for. *)
Ltac exact_arith :=
  cbn [int lit of_nat nan op_add op_sub op_mul op_div op_neg op_lt op_ge
       op_pow isNaN isFinite Math_abs Math_max Math_min Math_exp Math_log
       Math_sqrt Math_tan Math_atan Math_sinh Math_PI Number_toFixed6
       ExactArith exact_lit truthy_number] in *.
(* ------------------------------------------------------------------ *)
(** ** The loops of [fit] compute these sums *)
(* ------------------------------------------------------------------ *)

Lemma sums_Sigma (n : nat) (u y : list R) :
  Selectable.sums n u y
  = (Sigma n (fun i => nth i u 0),
     Sigma n (fun i => nth i u 0 * nth i u 0),
     Sigma n (fun i => nth i y 0),
     Sigma n (fun i => nth i u 0 * nth i y 0)).
Proof.
  unfold Selectable.sums.
  induction n as [|n IH].
  - reflexivity.
  - rewrite seq_S, fold_left_app, IH. simpl. reflexivity.
Qed.

Lemma squares_Sigma (n : nat) (y yPred : list R) (yMean : R) :
  Selectable.squares n y yPred yMean
  = (Sigma n (fun i => (nth i y 0 - nth i yPred 0) ^ 2),
     Sigma n (fun i => (nth i y 0 - yMean) ^ 2)).
Proof.
  unfold Selectable.squares.
  induction n as [|n IH].
  - reflexivity.
  - rewrite seq_S, fold_left_app, IH. simpl. reflexivity.
Qed.

Lemma nth_map_lt (f : R -> R) (l : list R) (i : nat) :
  (i < List.length l)%nat -> nth i (map f l) 0 = f (nth i l 0).
Proof.
  intros H. rewrite (nth_indep _ 0 (f 0)) by (rewrite length_map; exact H).
  apply map_nth.
Qed.

Lemma fit_fit_sums (x y : list R) : Selectable.fit x y = fit_sums x y.
Proof.
  unfold Selectable.fit, fit_sums.
  rewrite sums_Sigma.
  rewrite (Sigma_ext _ (fun i => nth i (map (fun xi => 1 / (xi * xi)) x) 0) (u_of x))
    by (intros i Hi; unfold u_of; apply (nth_map_lt (fun xi => 1 / (xi * xi))); exact Hi).
  rewrite (Sigma_ext _ (fun i => nth i (map (fun xi => 1 / (xi * xi)) x) 0
                                 * nth i (map (fun xi => 1 / (xi * xi)) x) 0)
                       (fun i => u_of x i * u_of x i))
    by (intros i Hi; unfold u_of;
        rewrite (nth_map_lt (fun xi => 1 / (xi * xi))) by exact Hi; reflexivity).
  rewrite (Sigma_ext _ (fun i => nth i (map (fun xi => 1 / (xi * xi)) x) 0 * nth i y 0)
                       (fun i => u_of x i * nth i y 0))
    by (intros i Hi; unfold u_of;
        rewrite (nth_map_lt (fun xi => 1 / (xi * xi))) by exact Hi; reflexivity).
  cbv zeta. exact_arith.
  destruct (Rlt_dec _ _) as [Hd|Hd]; [reflexivity|]. cbv iota.
  rewrite squares_Sigma. cbv iota.
  f_equal.
  match goal with
  | |- (if _ then 1 - ?r / _ else 0) = (if Rlt_dec 0 _ then 1 - ?r' / _ else 0) =>
      assert (r = r') as ->
  end.
  { apply Sigma_ext. intros i Hi.
    rewrite (nth_map_lt (fun xi => _ / (xi * xi) + _)) by exact Hi.
    unfold u_of, Rdiv. f_equal. ring. }
  destruct (Rlt_dec 0 _); reflexivity.
Qed.

(* ------------------------------------------------------------------ *)
(** ** [fit] in exact arithmetic *)
(* ------------------------------------------------------------------ *)

Lemma fit_None_iff (x y : list R) :
  Selectable.fit x y = None <-> Rabs (det_of x) < 1e-20.
Proof.
  rewrite fit_fit_sums. unfold fit_sums, det_of. cbv zeta.
  destruct (Rlt_dec _ _) as [Hd|Hd]; split; intros H;
    try assumption; try reflexivity; try discriminate; contradiction.
Qed.

Lemma det_of_nonneg (x : list R) : 0 <= det_of x.
Proof. unfold det_of. cbv zeta. apply det_nonneg. Qed.

(** No input of length zero passes the determinant test. *)
Lemma fit_nil_length (x y : list R) (r : R) :
  Selectable.fit x y = Some r -> (0 < List.length x)%nat.
Proof.
  intros H. destruct x as [|x0 x]; [|simpl; lia].
  exfalso. assert (Selectable.fit [] y = None) as E.
  { apply fit_None_iff. unfold det_of. simpl.
    rewrite Rabs_right by lra. lra. }
  congruence.
Qed.

(** Least squares never does worse than the mean:
    [ssTot - ssRes = b² det / n]. *)
Lemma residual_le_total (n : nat) (u y : nat -> R) :
  let Su := Sigma n u in
  let Su2 := Sigma n (fun i => u i * u i) in
  let Sy := Sigma n y in
  let Suy := Sigma n (fun i => u i * y i) in
  let det := INR n * Su2 - Su * Su in
  let a := (Sy * Su2 - Su * Suy) / det in
  let b := (INR n * Suy - Su * Sy) / det in
  (0 < n)%nat -> det <> 0 ->
  Sigma n (fun i => (y i - Sy / INR n) ^ 2)
  - Sigma n (fun i => (y i - (b * u i + a)) ^ 2)
  = b * b * det / INR n.
Proof.
  intros Su Su2 Sy Suy det a b Hn Hdet.
  rewrite Sigma_residual, Sigma_shift_sq.
  fold Su Su2 Sy Suy.
  assert (INR n <> 0) as Hn0 by (apply not_0_INR; lia).
  set (Syy := Sigma n (fun i => y i * y i)).
  unfold a, b. fold det.
  assert (Su2 = (det + Su * Su) / INR n) as E2.
  { unfold det. field. exact Hn0. }
  rewrite E2. clearbody det. clear E2.
  field. split; assumption.
Qed.

Lemma fit_bounds (x y : list R) (r : R) :
  Selectable.fit x y = Some r -> 0 <= r <= 1.
Proof.
  intros H. pose proof (fit_nil_length _ _ _ H) as Hn.
  rewrite fit_fit_sums in H. unfold fit_sums in H. cbv zeta in H.
  destruct (Rlt_dec _ _) as [Hd|Hd]; [discriminate|].
  apply (f_equal (fun o => match o with Some v => v | None => r end)) in H.
  cbv beta iota in H. subst r.
  destruct (Rlt_dec 0 _) as [Ht|Ht]; [|lra].
  set (n := List.length x) in *.
  pose proof (det_nonneg n (u_of x)) as Hdet.
  set (det := INR n * Sigma n (fun i => u_of x i * u_of x i)
              - Sigma n (u_of x) * Sigma n (u_of x)) in *.
  assert (det <> 0) as Hdet0.
  { intros E. apply Hd. rewrite E, Rabs_R0. lra. }
  pose proof (residual_le_total n (u_of x) (fun i => nth i y 0) Hn Hdet0) as E.
  cbv beta zeta in E. fold det in E.
  match type of E with
  | ?t - ?s = _ => set (ssTot := t) in *; set (ssRes := s) in *
  end.
  assert (0 <= ssRes) as Hres.
  { apply Sigma_nonneg. intros i. apply pow2_ge_0. }
  assert (0 < INR n) as Hn0 by (apply lt_0_INR; exact Hn).
  assert (0 <= ssTot - ssRes) as Hdiff.
  { rewrite E. apply Rmult_le_pos; [|left; apply Rinv_0_lt_compat; exact Hn0].
    apply Rmult_le_pos; [apply Rle_0_sqr|exact Hdet]. }
  split.
  - assert (ssRes / ssTot <= 1); [|lra].
    apply Rmult_le_reg_r with ssTot; [exact Ht|].
    unfold Rdiv. rewrite Rmult_assoc, Rinv_l, Rmult_1_r by lra. lra.
  - assert (0 <= ssRes / ssTot); [|lra].
    apply Rmult_le_pos; [exact Hres|left; apply Rinv_0_lt_compat; exact Ht].
Qed.

(** Equal abscissae make the determinant vanish. *)
Lemma det_of_constant (x : list R) (c : R) :
  Forall (fun xi => xi = c) x -> det_of x = 0.
Proof.
  intros H. unfold det_of. cbv zeta.
  set (n := List.length x).
  assert (forall i, (i < n)%nat -> u_of x i = 1 / (c * c)) as Hu.
  { intros i Hi. unfold u_of.
    rewrite Forall_forall in H.
    rewrite (H (nth i x 0)) by (apply nth_In; exact Hi). reflexivity. }
  rewrite (Sigma_ext n (u_of x) (fun _ => 1 / (c * c))) by exact Hu.
  rewrite (Sigma_ext n (fun i => u_of x i * u_of x i)
                       (fun _ => 1 / (c * c) * (1 / (c * c))))
    by (intros i Hi; rewrite Hu by exact Hi; reflexivity).
  rewrite !Sigma_const. ring.
Qed.

Lemma fit_on_curve (a0 b0 : R) (x y : list R) :
  on_curve a0 b0 x y ->
  ~ Rabs (det_of x) < 1e-20 ->
  Selectable.fit x y = Some (if Req_dec_T b0 0 then 0 else 1).
Proof.
  intros [_ Hy] Hd.
  assert (0 < List.length x)%nat as Hn.
  { destruct x; [|simpl; lia]. exfalso. apply Hd.
    unfold det_of. simpl. rewrite Rabs_right by lra. lra. }
  rewrite fit_fit_sums. unfold fit_sums. cbv zeta.
  unfold det_of in Hd. cbv zeta in Hd.
  set (n := List.length x) in *.
  pose proof (det_nonneg n (u_of x)) as Hdet.
  set (Su := Sigma n (u_of x)) in *.
  set (Su2 := Sigma n (fun i => u_of x i * u_of x i)) in *.
  assert (forall i, (i < n)%nat -> nth i y 0 = b0 * u_of x i + a0) as Hy'.
  { intros i Hi. rewrite (Hy i Hi). unfold u_of, Rdiv. ring. }
  rewrite (Sigma_ext n (fun i => nth i y 0) (fun i => b0 * u_of x i + a0)) by exact Hy'.
  rewrite (Sigma_ext n (fun i => u_of x i * nth i y 0)
                       (fun i => u_of x i * (b0 * u_of x i + a0)))
    by (intros i Hi; rewrite Hy' by exact Hi; reflexivity).
  rewrite Sigma_line, Sigma_line_u. fold Su Su2.
  destruct (Rlt_dec _ _) as [Hd'|_]; [contradiction|].
  set (det := INR n * Su2 - Su * Su) in *.
  assert (det <> 0) as Hdet0.
  { intros E. apply Hd. rewrite E, Rabs_R0. lra. }
  assert (0 < INR n) as Hn0 by (apply lt_0_INR; exact Hn).
  assert (((b0 * Su + INR n * a0) * Su2 - Su * (b0 * Su2 + a0 * Su)) / det = a0) as ->.
  { unfold det. field. exact Hdet0. }
  assert ((INR n * (b0 * Su2 + a0 * Su) - Su * (b0 * Su + INR n * a0)) / det = b0) as ->.
  { unfold det. field. exact Hdet0. }
  rewrite (Sigma_zero n (fun i => (nth i y 0 - (b0 * u_of x i + a0)) ^ 2))
    by (intros i Hi; rewrite Hy' by exact Hi; ring).
  assert (Sigma n (fun i => (nth i y 0 - (b0 * Su + INR n * a0) / INR n) ^ 2)
          = b0 * b0 * det / INR n) as ->.
  { rewrite Sigma_shift_sq.
    rewrite (Sigma_ext n (fun i => nth i y 0 * nth i y 0)
               (fun i => b0 * (u_of x i * (b0 * u_of x i + a0)) + a0 * (b0 * u_of x i + a0)))
      by (intros i Hi; rewrite Hy' by exact Hi; ring).
    rewrite (Sigma_ext n (fun i => nth i y 0) (fun i => b0 * u_of x i + a0)) by exact Hy'.
    assert (forall f g, Sigma n (fun i => b0 * f i + a0 * g i)
                        = b0 * Sigma n f + a0 * Sigma n g) as Hlin.
    { intros f g. clear. induction n as [|n IH]; simpl; [ring|rewrite IH; ring]. }
    rewrite (Hlin (fun i => u_of x i * (b0 * u_of x i + a0)) (fun i => b0 * u_of x i + a0)).
    rewrite Sigma_line, Sigma_line_u. fold Su Su2.
    unfold det. field. lra. }
  f_equal.
  destruct (Req_dec_T b0 0) as [Hb|Hb].
  - subst b0. destruct (Rlt_dec _ _) as [Ht|Ht]; [|reflexivity].
    exfalso. unfold Rdiv in Ht. rewrite !Rmult_0_l in Ht. lra.
  - destruct (Rlt_dec _ _) as [Ht|Ht].
    + unfold Rdiv at 1. rewrite Rmult_0_l. ring.
    + exfalso. apply Ht.
      apply Rmult_lt_0_compat; [|apply Rinv_0_lt_compat; exact Hn0].
      apply Rmult_lt_0_compat; [apply Rsqr_pos_lt; exact Hb|lra].
Qed.

(* ------------------------------------------------------------------ *)
(** ** The transforms in exact arithmetic *)
(* ------------------------------------------------------------------ *)

Lemma exp_le (a b : R) : a <= b -> exp a <= exp b.
Proof.
  intros [H|H]; [left; apply exp_increasing; exact H|subst; right; reflexivity].
Qed.

Lemma ln_le (a b : R) : 0 < a -> a <= b -> ln a <= ln b.
Proof.
  intros Ha [H|H]; [left; apply ln_increasing; assumption|subst; right; reflexivity].
Qed.

Lemma atan_le (a b : R) : a <= b -> atan a <= atan b.
Proof.
  intros [H|H]; [left; apply atan_increasing; exact H|subst; right; reflexivity].
Qed.

Lemma sinh_le (a b : R) : a <= b -> sinh a <= sinh b.
Proof.
  intros [H|H]; [left; apply sinh_lt; exact H|subst; right; reflexivity].
Qed.

Lemma inv_le (a b : R) : 0 < a -> a <= b -> 1 / b <= 1 / a.
Proof.
  intros Ha H. unfold Rdiv. rewrite !Rmult_1_l.
  apply Rinv_le_contravar; assumption.
Qed.

(** The clamp [Math.max(lo, Math.min(hi, r))]. *)
Lemma clamp_le (lo hi r1 r2 : R) :
  r1 <= r2 -> Rmax lo (Rmin hi r1) <= Rmax lo (Rmin hi r2).
Proof.
  intros H. apply Rle_max_compat_l, Rle_min_compat_l, H.
Qed.

Lemma clamp_range (lo hi r : R) :
  lo <= hi -> lo <= Rmax lo (Rmin hi r) <= hi.
Proof.
  intros H. unfold Rmax, Rmin.
  destruct (Rle_dec hi r); destruct (Rle_dec lo _); lra.
Qed.

Lemma clamp_below (lo hi r : R) :
  lo < hi -> r < hi -> Rmax lo (Rmin hi r) < hi.
Proof.
  intros H Hr. unfold Rmax, Rmin.
  destruct (Rle_dec hi r); destruct (Rle_dec lo _); lra.
Qed.

Lemma floor_le (lo a b : R) : a <= b -> Rmax lo a <= Rmax lo b.
Proof. intros H. apply Rle_max_compat_l, H. Qed.

Lemma floor_ge (lo a : R) : lo <= Rmax lo a.
Proof. apply Rmax_l. Qed.

Ltac split_ge :=
  repeat match goal with
         | |- context [Rge_dec ?a ?b] => destruct (Rge_dec a b); cbv iota
         end.

Lemma reciprocal_complement_mono : nondecreasing Selectable.reciprocal_complement.
Proof.
  intros r1 r2 H. unfold Selectable.reciprocal_complement; exact_arith. split_ge; try lra.
  - pose proof (clamp_below 0 0.999 r1 ltac:(lra) ltac:(lra)) as B.
    apply Rle_trans with (1 / (1 - 0.999)); [apply inv_le; lra|].
    apply Rmult_le_reg_r with (1 - 0.999); [lra|].
    unfold Rdiv. rewrite Rmult_assoc, Rinv_l by lra. lra.
  - pose proof (clamp_below 0 0.999 r2 ltac:(lra) ltac:(lra)) as B.
    pose proof (clamp_le 0 0.999 r1 r2 H) as C.
    apply inv_le; lra.
Qed.

Lemma exp_reciprocal_complement_mono_below (r1 r2 : R) :
  r1 <= r2 -> r2 < 0.999 ->
  Selectable.exp_reciprocal_complement r1 <= Selectable.exp_reciprocal_complement r2.
Proof.
  intros H H2. unfold Selectable.exp_reciprocal_complement; exact_arith. split_ge; try lra.
  pose proof (clamp_below 0 0.999 r2 ltac:(lra) ltac:(lra)) as B.
  pose proof (clamp_le 0 0.999 r1 r2 H) as C.
  apply exp_le, inv_le; lra.
Qed.

Lemma exp_reciprocal_complement_mono_above (r1 r2 : R) :
  r1 <= r2 -> 0.999 <= r1 ->
  Selectable.exp_reciprocal_complement r1 <= Selectable.exp_reciprocal_complement r2.
Proof.
  intros H H1. unfold Selectable.exp_reciprocal_complement; exact_arith. split_ge; lra.
Qed.

Lemma neg_log_complement_mono : nondecreasing Selectable.neg_log_complement.
Proof.
  intros r1 r2 H. unfold Selectable.neg_log_complement; exact_arith.
  apply Ropp_le_contravar, ln_le.
  - apply Rlt_le_trans with 1e-10; [lra|apply floor_ge].
  - apply floor_le. pose proof (clamp_le 0 0.9999 r1 r2 H). lra.
Qed.

Lemma sqrt_tiny : sqrt 1e-20 = 1e-10.
Proof.
  replace 1e-20 with (1e-10 * 1e-10) by lra.
  apply sqrt_square. lra.
Qed.

Lemma inverse_sqrt_complement_mono : nondecreasing Selectable.inverse_sqrt_complement.
Proof.
  intros r1 r2 H. unfold Selectable.inverse_sqrt_complement; exact_arith. split_ge; try lra.
  - pose proof (clamp_below 0 0.999 r1 ltac:(lra) ltac:(lra)) as B.
    set (m := Rmax 1e-10 (1 - Rmax 0 (Rmin 0.999 r1))).
    assert (1e-20 <= m) as Hm.
    { apply Rle_trans with (1 - Rmax 0 (Rmin 0.999 r1)); [lra|apply Rmax_r]. }
    assert (1e-10 <= sqrt m) as Hs.
    { rewrite <- sqrt_tiny. apply sqrt_le_1_alt, Hm. }
    apply Rle_trans with (1 / 1e-10); [apply inv_le; lra|].
    apply Rmult_le_reg_r with 1e-10; [lra|].
    unfold Rdiv. rewrite Rmult_assoc, Rinv_l by lra. lra.
  - pose proof (clamp_le 0 0.999 r1 r2 H) as C.
    apply inv_le.
    + apply sqrt_lt_R0. apply Rlt_le_trans with 1e-10; [lra|apply floor_ge].
    + apply sqrt_le_1_alt, floor_le. lra.
Qed.

Lemma tangent_half_pi_mono : nondecreasing Selectable.tangent_half_pi.
Proof.
  intros r1 r2 H. unfold Selectable.tangent_half_pi; exact_arith.
  pose proof (clamp_le 0 0.999 r1 r2 H) as C.
  pose proof (clamp_range 0 0.999 r1 ltac:(lra)) as B1.
  pose proof (clamp_range 0 0.999 r2 ltac:(lra)) as B2.
  set (c1 := Rmax 0 (Rmin 0.999 r1)) in *.
  set (c2 := Rmax 0 (Rmin 0.999 r2)) in *.
  pose proof PI_RGT_0 as HPI.
  destruct C as [C|C]; [|rewrite C; right; reflexivity].
  left. apply tan_increasing; nra.
Qed.

Lemma exp_decay_scaled_mono : nondecreasing Selectable.exp_decay_scaled.
Proof.
  intros r1 r2 H. unfold Selectable.exp_decay_scaled; exact_arith.
  apply exp_le. pose proof (floor_le 0 r1 r2 H). lra.
Qed.

Lemma inverse_cube_complement_mono : nondecreasing Selectable.inverse_cube_complement.
Proof.
  intros r1 r2 H. unfold Selectable.inverse_cube_complement; exact_arith. split_ge; try lra.
  - pose proof (clamp_below 0 0.999 r1 ltac:(lra) ltac:(lra)) as B.
    set (m := Rmax 1e-10 (1 - Rmax 0 (Rmin 0.999 r1))).
    assert (1e-10 <= m) as Hm by apply floor_ge.
    assert (1e-10 ^ 3 <= m ^ 3) as Hp by (apply pow_incr; lra).
    apply Rle_trans with (1 / 1e-10 ^ 3); [apply inv_le; lra|].
    apply Rmult_le_reg_r with (1e-10 ^ 3); [lra|].
    unfold Rdiv. rewrite Rmult_assoc, Rinv_l by lra. lra.
  - pose proof (clamp_le 0 0.999 r1 r2 H) as C.
    set (m1 := Rmax 1e-10 (1 - Rmax 0 (Rmin 0.999 r1))).
    set (m2 := Rmax 1e-10 (1 - Rmax 0 (Rmin 0.999 r2))).
    assert (1e-10 <= m2) as H2 by apply floor_ge.
    assert (m2 <= m1) as H21 by (apply floor_le; lra).
    apply inv_le.
    + apply pow_lt. lra.
    + apply pow_incr. lra.
Qed.

Lemma log1p_mono : nondecreasing Selectable.log1p.
Proof.
  intros r1 r2 H. unfold Selectable.log1p; exact_arith.
  pose proof (floor_le 0 r1 r2 H). pose proof (floor_ge 0 r1).
  apply ln_le; lra.
Qed.

Lemma exp_clamped_low_mono : nondecreasing Selectable.exp_clamped_low.
Proof.
  intros r1 r2 H. unfold Selectable.exp_clamped_low; exact_arith.
  apply exp_le, floor_le, H.
Qed.

Lemma sqrt1p_mono : nondecreasing Selectable.sqrt1p.
Proof.
  intros r1 r2 H. unfold Selectable.sqrt1p; exact_arith.
  apply sqrt_le_1_alt. pose proof (floor_le 0 r1 r2 H). lra.
Qed.

Lemma square_mono : nondecreasing Selectable.square.
Proof.
  intros r1 r2 H. unfold Selectable.square; exact_arith.
  apply pow_incr. split; [apply floor_ge|apply floor_le, H].
Qed.

Lemma arctan_normalized_mono : nondecreasing Selectable.arctan_normalized.
Proof.
  intros r1 r2 H. unfold Selectable.arctan_normalized; exact_arith.
  pose proof PI_RGT_0 as HPI.
  pose proof (atan_le _ _ (floor_le 0 r1 r2 H)) as A.
  unfold Rdiv. apply Rmult_le_compat_r; [left; apply Rinv_0_lt_compat; exact HPI|].
  lra.
Qed.

Lemma saturating_ratio_eq (r2 : R) :
  Selectable.saturating_ratio r2 = Rmax 0 r2 / (1 + Rmax 0 r2).
Proof.
  unfold Selectable.saturating_ratio, truthy_number; exact_arith.
  set (v := Rmax 0 r2 / (1 + Rmax 0 r2)).
  destruct (Rlt_dec 0 v), (Rlt_dec v 0); cbn [orb]; try reflexivity. lra.
Qed.

Lemma saturating_ratio_mono : nondecreasing Selectable.saturating_ratio.
Proof.
  intros r1 r2 H. rewrite !saturating_ratio_eq.
  pose proof (floor_le 0 r1 r2 H) as C.
  pose proof (floor_ge 0 r1) as P.
  set (m1 := Rmax 0 r1) in *. set (m2 := Rmax 0 r2) in *.
  replace (m1 / (1 + m1)) with (1 - 1 / (1 + m1)) by (field; lra).
  replace (m2 / (1 + m2)) with (1 - 1 / (1 + m2)) by (field; lra).
  assert (1 / (1 + m2) <= 1 / (1 + m1)) by (apply inv_le; lra).
  lra.
Qed.

Lemma sinh_transform_mono : nondecreasing Selectable.sinh_transform.
Proof.
  intros r1 r2 H. unfold Selectable.sinh_transform; exact_arith.
  apply sinh_le, floor_le, H.
Qed.

Lemma exp_negative_antitone : nonincreasing Selectable.exp_negative.
Proof.
  intros r1 r2 H. unfold Selectable.exp_negative; exact_arith.
  apply exp_le. pose proof (floor_le 0 r1 r2 H). lra.
Qed.

(** Every closure of the table is nonnegative. *)

Lemma reciprocal_complement_nonneg (r : R) : 0 <= Selectable.reciprocal_complement r.
Proof.
  unfold Selectable.reciprocal_complement; exact_arith. split_ge; [lra|].
  pose proof (clamp_below 0 0.999 r ltac:(lra) ltac:(lra)).
  left. apply Rdiv_lt_0_compat; lra.
Qed.

Lemma exp_reciprocal_complement_nonneg (r : R) :
  0 <= Selectable.exp_reciprocal_complement r.
Proof.
  unfold Selectable.exp_reciprocal_complement; exact_arith. split_ge; [lra|].
  left. apply exp_pos.
Qed.

Lemma neg_log_complement_nonneg (r : R) : 0 <= Selectable.neg_log_complement r.
Proof.
  unfold Selectable.neg_log_complement; exact_arith.
  pose proof (clamp_range 0 0.9999 r ltac:(lra)) as B.
  set (m := Rmax 1e-10 (1 - Rmax 0 (Rmin 0.9999 r))).
  assert (0 < m) by (apply Rlt_le_trans with 1e-10; [lra|apply floor_ge]).
  assert (m <= 1) by (apply Rmax_lub; lra).
  pose proof (ln_le m 1 ltac:(assumption) ltac:(assumption)) as L.
  rewrite ln_1 in L. lra.
Qed.

Lemma inverse_sqrt_complement_nonneg (r : R) :
  0 <= Selectable.inverse_sqrt_complement r.
Proof.
  unfold Selectable.inverse_sqrt_complement; exact_arith. split_ge; [lra|].
  left. apply Rdiv_lt_0_compat; [lra|].
  apply sqrt_lt_R0. apply Rlt_le_trans with 1e-10; [lra|apply floor_ge].
Qed.

Lemma tangent_half_pi_nonneg (r : R) : 0 <= Selectable.tangent_half_pi r.
Proof.
  unfold Selectable.tangent_half_pi; exact_arith.
  pose proof (clamp_range 0 0.999 r ltac:(lra)) as [[B|B] B'].
  - left. pose proof PI_RGT_0. apply tan_gt_0; nra.
  - rewrite <- B. replace (PI * 0 / 2) with 0 by field.
    rewrite tan_0. lra.
Qed.

Lemma inverse_cube_complement_nonneg (r : R) :
  0 <= Selectable.inverse_cube_complement r.
Proof.
  unfold Selectable.inverse_cube_complement; exact_arith. split_ge; [lra|].
  left. apply Rdiv_lt_0_compat; [lra|].
  apply pow_lt. apply Rlt_le_trans with 1e-10; [lra|apply floor_ge].
Qed.

Lemma log1p_nonneg (r : R) : 0 <= Selectable.log1p r.
Proof.
  unfold Selectable.log1p; exact_arith. pose proof (floor_ge 0 r) as P.
  pose proof (ln_le 1 (1 + Rmax 0 r) ltac:(lra) ltac:(lra)) as L.
  rewrite ln_1 in L. exact L.
Qed.

Lemma arctan_normalized_nonneg (r : R) : 0 <= Selectable.arctan_normalized r.
Proof.
  unfold Selectable.arctan_normalized; exact_arith.
  pose proof (atan_le 0 _ (floor_ge 0 r)) as A. rewrite atan_0 in A.
  pose proof PI_RGT_0.
  unfold Rdiv. apply Rmult_le_pos; [lra|left; apply Rinv_0_lt_compat; lra].
Qed.

Lemma saturating_ratio_nonneg (r : R) : 0 <= Selectable.saturating_ratio r.
Proof.
  rewrite saturating_ratio_eq. pose proof (floor_ge 0 r).
  unfold Rdiv. apply Rmult_le_pos; [lra|left; apply Rinv_0_lt_compat; lra].
Qed.

Lemma sinh_transform_nonneg (r : R) : 0 <= Selectable.sinh_transform r.
Proof.
  unfold Selectable.sinh_transform; exact_arith.
  pose proof (sinh_le 0 _ (floor_ge 0 r)) as L.
  rewrite sinh_0 in L. exact L.
Qed.

Lemma transforms_nonneg (t : string) (f : R -> R) (r : R) :
  In (t, f) Selectable.TRANSFORMS -> 0 <= f r.
Proof.
  unfold Selectable.TRANSFORMS. intros H.
  repeat (destruct H as [H|H]; [injection H as _ <-|]); try contradiction.
  - apply reciprocal_complement_nonneg.
  - apply exp_reciprocal_complement_nonneg.
  - apply neg_log_complement_nonneg.
  - apply inverse_sqrt_complement_nonneg.
  - apply tangent_half_pi_nonneg.
  - left. apply exp_pos.
  - apply inverse_cube_complement_nonneg.
  - apply log1p_nonneg.
  - left. apply exp_pos.
  - apply sqrt_pos.
  - apply pow2_ge_0.
  - apply arctan_normalized_nonneg.
  - apply saturating_ratio_nonneg.
  - apply sinh_transform_nonneg.
  - left. apply exp_pos.
Qed.

(* ------------------------------------------------------------------ *)
(** ** Bounds on [e] and on [ln 10] *)
(* ------------------------------------------------------------------ *)

Lemma exp_term_S (x : R) (i : nat) :
  exp_term x (S i) = exp_term x i * x / INR (S i).
Proof.
  unfold exp_term. rewrite fact_simpl, mult_INR. simpl pow.
  field. split; [apply INR_fact_neq_0 | apply not_0_INR; lia].
Qed.

Lemma exp_term_nonneg (x : R) (i : nat) : 0 <= x -> 0 <= exp_term x i.
Proof.
  intros H. unfold exp_term, Rdiv.
  apply Rmult_le_pos; [apply pow_le; exact H|].
  left. apply Rinv_0_lt_compat, INR_fact_lt_0.
Qed.

Lemma exp_term_decreasing (x : R) : 0 <= x <= 1 -> Un_decreasing (exp_term x).
Proof.
  intros [H0 H1] n. rewrite exp_term_S.
  pose proof (exp_term_nonneg x n H0) as P.
  assert (1 <= INR (S n)) as Hn by (rewrite S_INR; pose proof (pos_INR n); lra).
  unfold Rdiv. rewrite Rmult_assoc.
  rewrite <- (Rmult_1_r (exp_term x n)) at 2.
  apply Rmult_le_compat_l; [exact P|].
  apply Rmult_le_reg_r with (INR (S n)); [lra|].
  rewrite Rmult_assoc, Rinv_l by lra. lra.
Qed.

Lemma exp_term_cv (x : R) : Un_cv (exp_term x) 0.
Proof. exact (cv_speed_pow_fact x). Qed.

Lemma exp_opp_series (x : R) :
  Un_cv (fun N => sum_f_R0 (tg_alt (exp_term x)) N) (exp (- x)).
Proof.
  unfold exp. destruct (exist_exp (- x)) as [l Hl]. simpl.
  intros eps Heps. destruct (Hl eps Heps) as [N HN].
  exists N. intros n Hn. specialize (HN n Hn).
  erewrite sum_eq; [exact HN|].
  intros i _. unfold tg_alt, exp_term. cbv beta.
  replace (- x) with (-1 * x) by ring. rewrite Rpow_mult_distr.
  unfold Rdiv. ring.
Qed.

Lemma exp_opp_bounds (x : R) (N : nat) :
  0 <= x <= 1 ->
  sum_f_R0 (tg_alt (exp_term x)) (S (2 * N)) <= exp (- x)
  <= sum_f_R0 (tg_alt (exp_term x)) (2 * N).
Proof.
  intros H. apply alternated_series_ineq.
  - apply exp_term_decreasing, H.
  - apply exp_term_cv.
  - apply exp_opp_series.
Qed.

Lemma Q2R_inject_Z (z : Z) : Q2R (inject_Z z) = IZR z.
Proof. unfold Q2R. simpl. field. Qed.

Lemma alt_terms_spec (q : Q) (n : nat) :
  Q2R (fst (alt_terms q n)) = tg_alt (exp_term (Q2R q)) n
  /\ Q2R (snd (alt_terms q n)) = sum_f_R0 (tg_alt (exp_term (Q2R q))) n.
Proof.
  induction n as [|n [IHt IHs]].
  - simpl. unfold tg_alt, exp_term. simpl. split; unfold Q2R; simpl; field.
  - cbn [alt_terms]. destruct (alt_terms q n) as [t s]. cbn [fst snd] in *.
    assert (Q2R (Qred (- t * q / inject_Z (Z.of_nat (S n))))
            = tg_alt (exp_term (Q2R q)) (S n)) as E.
    { rewrite (Qeq_eqR _ _ (Qred_correct _)).
      unfold Qdiv. rewrite Q2R_mult, Q2R_mult, Q2R_opp, Q2R_inv, Q2R_inject_Z, IHt.
      - unfold tg_alt. rewrite exp_term_S, <- INR_IZR_INZ. simpl pow.
        field. apply not_0_INR. lia.
      - intros H. apply (f_equal Qnum) in H || idtac.
        unfold Qeq in H. simpl in H. lia. }
    split; [exact E|].
    rewrite (Qeq_eqR _ _ (Qred_correct _)), Q2R_plus, E, IHs. reflexivity.
Qed.

(** Rational enclosures of [exp x] for [0 <= x <= 1]. *)
Lemma exp_enclosure (q : Q) (N : nat) :
  0 <= Q2R q <= 1 ->
  0 < Q2R (snd (alt_terms q (S (2 * N)))) ->
  / Q2R (snd (alt_terms q (2 * N))) <= exp (Q2R q)
  <= / Q2R (snd (alt_terms q (S (2 * N)))).
Proof.
  intros H P.
  destruct (exp_opp_bounds (Q2R q) N H) as [Lo Hi].
  rewrite <- (proj2 (alt_terms_spec q (S (2 * N)))) in Lo.
  rewrite <- (proj2 (alt_terms_spec q (2 * N))) in Hi.
  assert (exp (Q2R q) * exp (- Q2R q) = 1) as E.
  { rewrite <- exp_plus, Rplus_opp_r. apply exp_0. }
  pose proof (exp_pos (Q2R q)) as A. pose proof (exp_pos (- Q2R q)) as B.
  assert (exp (Q2R q) = / exp (- Q2R q)) as ->.
  { apply Rmult_eq_reg_r with (exp (- Q2R q)); [|lra].
    rewrite E, Rinv_l; lra. }
  split; apply Rinv_le_contravar; lra.
Qed.

Lemma exp_INR (n : nat) : exp (INR n) = exp 1 ^ n.
Proof.
  induction n as [|n IH].
  - simpl. apply exp_0.
  - rewrite S_INR, exp_plus, IH. simpl. ring.
Qed.

Lemma Q2R_inv_pos (a : Q) : 0 < Q2R a -> Q2R (/ a) = / Q2R a.
Proof.
  intros P. apply Q2R_inv. intros Z. apply Qeq_eqR in Z.
  replace (Q2R 0) with 0 in Z by (unfold Q2R; simpl; lra). lra.
Qed.

Lemma Q2R_pos (a : Q) : (0 < a)%Q -> 0 < Q2R a.
Proof.
  intros P. replace 0 with (Q2R 0) by (unfold Q2R; simpl; lra).
  apply Qlt_Rlt, P.
Qed.

Lemma exp_1_bounds : 2.7182818 < exp 1 < 2.7182819.
Proof.
  assert (0 <= Q2R 1 <= 1) as H1 by (unfold Q2R; simpl; lra).
  assert (0 < Q2R (snd (alt_terms 1 (S (2 * 9))))) as Pb
    by (apply Q2R_pos; vm_compute; reflexivity).
  assert (0 < Q2R (snd (alt_terms 1 (2 * 9)))) as Pa
    by (apply Q2R_pos; vm_compute; reflexivity).
  destruct (exp_enclosure 1 9 H1 Pb) as [Lo Hi].
  replace (Q2R 1) with 1 in Lo, Hi by (unfold Q2R; simpl; lra).
  assert (Q2R (27182818 # 10000000) < Q2R (/ snd (alt_terms 1 (2 * 9)))) as A
    by (apply Qlt_Rlt; vm_compute; reflexivity).
  assert (Q2R (/ snd (alt_terms 1 (S (2 * 9)))) < Q2R (27182819 # 10000000)) as B
    by (apply Qlt_Rlt; vm_compute; reflexivity).
  rewrite (Q2R_inv_pos _ Pa) in A. rewrite (Q2R_inv_pos _ Pb) in B.
  set (a := snd (alt_terms 1 (2 * 9))) in *.
  set (b := snd (alt_terms 1 (S (2 * 9)))) in *.
  clearbody a b.
  replace (Q2R (27182818 # 10000000)) with 2.7182818 in A by (unfold Q2R; simpl; lra).
  replace (Q2R (27182819 # 10000000)) with 2.7182819 in B by (unfold Q2R; simpl; lra).
  lra.
Qed.

Lemma exp_ge_pow (n : nat) (x : R) : INR n <= x -> (5 / 2) ^ n <= exp x.
Proof.
  intros H. apply Rle_trans with (exp (INR n)); [|apply exp_le, H].
  rewrite exp_INR. apply pow_incr. pose proof exp_1_bounds. lra.
Qed.

Lemma exp_lt_pow (n : nat) (x : R) : x <= INR n -> exp x <= 3 ^ n.
Proof.
  intros H. apply Rle_trans with (exp (INR n)); [apply exp_le, H|].
  rewrite exp_INR. apply pow_incr. pose proof exp_1_bounds. lra.
Qed.

(** [ln 10000] to eight decimals. *)
Lemma ln_10000_bounds : 9.21034037 <= ln 10000 < 9.21034038.
Proof.
  assert (0 <= Q2R 1 <= 1) as H1 by (unfold Q2R; simpl; lra).
  assert (0 < Q2R (snd (alt_terms 1 (S (2 * 9))))) as P1.
  { replace 0 with (Q2R 0) by (unfold Q2R; simpl; lra).
    apply Qlt_Rlt. vm_compute. reflexivity. }
  destruct (exp_enclosure 1 9 H1 P1) as [E1lo E1hi].
  replace (Q2R 1) with 1 in E1lo, E1hi by (unfold Q2R; simpl; lra).
  split.
  - (* exp 9.21034037 <= 10000 *)
    assert (0 <= Q2R (21034037 # 100000000) <= 1) as H by (unfold Q2R; simpl; lra).
    assert (0 < Q2R (snd (alt_terms (21034037 # 100000000) (S (2 * 6))))) as P.
    { replace 0 with (Q2R 0) by (unfold Q2R; simpl; lra).
      apply Qlt_Rlt. vm_compute. reflexivity. }
    destruct (exp_enclosure _ 6 H P) as [_ Ehi].
    destruct (Rle_or_lt 9.21034037 (ln 10000)) as [G|G]; [exact G|exfalso].
    apply exp_increasing in G. rewrite exp_ln in G by lra.
    replace 9.21034037 with (INR 9 + Q2R (21034037 # 100000000)) in G
      by (unfold Q2R; simpl; lra).
    rewrite exp_plus in G.
    assert (exp (INR 9) <= (/ Q2R (snd (alt_terms 1 (S (2 * 9))))) ^ 9) as E9.
    { rewrite exp_INR. apply pow_incr. split; [left; apply exp_pos|exact E1hi]. }
    set (a := snd (alt_terms 1 (S (2 * 9)))) in *.
    set (b := snd (alt_terms (21034037 # 100000000) (S (2 * 6)))) in *.
    assert (Q2R ((/ a) * (/ a) * (/ a) * (/ a) * (/ a) * (/ a) * (/ a) * (/ a) * (/ a) * / b)
            <= Q2R 10000) as C.
    { apply Qle_Rle. vm_compute. discriminate. }
    rewrite !Q2R_mult, !Q2R_inv in C
      by (intros Z; apply Qeq_eqR in Z; unfold Q2R at 2 in Z; simpl in Z; lra).
    replace (Q2R 10000) with 10000 in C by (unfold Q2R; simpl; lra).
    simpl pow in E9. rewrite Rmult_1_r in E9.
    pose proof (exp_pos (INR 9)) as X1.
    pose proof (exp_pos (Q2R (21034037 # 100000000))) as X2.
    assert (exp (INR 9) * exp (Q2R (21034037 # 100000000))
            <= (/ Q2R a * / Q2R a * / Q2R a * / Q2R a * / Q2R a * / Q2R a
                * / Q2R a * / Q2R a * / Q2R a) * / Q2R b) as M.
    { apply Rmult_le_compat; try lra;
        repeat rewrite <- Rmult_assoc in E9; repeat rewrite <- Rmult_assoc; lra. }
    lra.
  - assert (0 <= Q2R (21034038 # 100000000) <= 1) as H by (unfold Q2R; simpl; lra).
    assert (0 < Q2R (snd (alt_terms (21034038 # 100000000) (S (2 * 6))))) as P.
    { replace 0 with (Q2R 0) by (unfold Q2R; simpl; lra).
      apply Qlt_Rlt. vm_compute. reflexivity. }
    destruct (exp_enclosure _ 6 H P) as [Elo _].
    apply exp_lt_inv. rewrite exp_ln by lra.
    replace 9.21034038 with (INR 9 + Q2R (21034038 # 100000000))
      by (unfold Q2R; simpl; lra).
    rewrite exp_plus.
    assert ((/ Q2R (snd (alt_terms 1 (2 * 9)))) ^ 9 <= exp (INR 9)) as E9.
    { rewrite exp_INR. apply pow_incr. split; [|exact E1lo].
      left. apply Rinv_0_lt_compat.
      replace 0 with (Q2R 0) by (unfold Q2R; simpl; lra).
      apply Qlt_Rlt. vm_compute. reflexivity. }
    set (a := snd (alt_terms 1 (2 * 9))) in *.
    set (b := snd (alt_terms (21034038 # 100000000) (2 * 6))) in *.
    assert (Q2R 10000
            < Q2R ((/ a) * (/ a) * (/ a) * (/ a) * (/ a) * (/ a) * (/ a) * (/ a) * (/ a) * / b)) as C.
    { apply Qlt_Rlt. vm_compute. reflexivity. }
    assert (0 < Q2R a) as Pa.
    { replace 0 with (Q2R 0) by (unfold Q2R; simpl; lra).
      apply Qlt_Rlt. vm_compute. reflexivity. }
    assert (0 < Q2R b) as Pb.
    { replace 0 with (Q2R 0) by (unfold Q2R; simpl; lra).
      apply Qlt_Rlt. vm_compute. reflexivity. }
    rewrite !Q2R_mult, !Q2R_inv in C
      by (intros Z; apply Qeq_eqR in Z; unfold Q2R at 2 in Z; simpl in Z; lra).
    replace (Q2R 10000) with 10000 in C by (unfold Q2R; simpl; lra).
    simpl pow in E9. rewrite Rmult_1_r in E9.
    assert (0 < / Q2R a) as Ia by (apply Rinv_0_lt_compat; exact Pa).
    assert (0 < / Q2R b) as Ib by (apply Rinv_0_lt_compat; exact Pb).
    assert ((/ Q2R a * / Q2R a * / Q2R a * / Q2R a * / Q2R a * / Q2R a
             * / Q2R a * / Q2R a * / Q2R a) * / Q2R b
            <= exp (INR 9) * exp (Q2R (21034038 # 100000000))) as M.
    { apply Rmult_le_compat; try lra;
        try (repeat apply Rmult_le_pos; lra);
        repeat rewrite <- Rmult_assoc in E9; repeat rewrite <- Rmult_assoc; lra. }
    lra.
Qed.

(* ------------------------------------------------------------------ *)
(** ** Rounding to six decimals *)
(* ------------------------------------------------------------------ *)

(** Below [1e21] the result is a multiple of [1e-6] within [5e-7] of the
    argument. *)
Lemma toFixed6_near (m : R) :
  Rabs m < 1e21 -> - 5e-7 <= toFixed6 m - m <= 5e-7.
Proof.
  intros H. unfold toFixed6.
  destruct (Rle_dec _ _) as [Hbig|_]; [lra|]. cbv zeta.
  pose proof (base_Int_part (Rabs m * 1e6 + / 2)) as [Lo Hi].
  set (n := IZR (Int_part (Rabs m * 1e6 + / 2))) in *.
  destruct (Rlt_dec m 0) as [Hneg|Hpos].
  - rewrite (Rabs_left m Hneg) in Lo, Hi. lra.
  - rewrite (Rabs_right m) in Lo, Hi by lra. lra.
Qed.

Lemma toFixed6_value (m : R) (z : Z) :
  0 <= m < 1e21 ->
  IZR z - / 2 <= m * 1e6 < IZR z + / 2 ->
  toFixed6 m = IZR z / 1e6.
Proof.
  intros Hm Hz. unfold toFixed6.
  rewrite (Rabs_right m) by lra.
  destruct (Rle_dec _ _) as [Hbig|_]; [lra|]. cbv zeta.
  destruct (Rlt_dec m 0) as [Hneg|_]; [lra|].
  rewrite <- (Int_part_spec (m * 1e6 + / 2) z) by lra.
  reflexivity.
Qed.

(* ------------------------------------------------------------------ *)

(* ------------------------------------------------------------------ *)
(** ** The two files agree where their text does *)
(* ------------------------------------------------------------------ *)

Section Agreement.

Context {N : Type} {A : Arith N}.

Lemma fit_same (x y : list N) : Fixed.fit x y = Selectable.fit x y.
Proof. reflexivity. Qed.

Lemma push_row_same (parseFloat : option (json N) -> option N)
  (acc : option (list N * list N)) (row : json N) :
  Fixed.push_row parseFloat acc row = Selectable.push_row parseFloat acc row.
Proof. reflexivity. Qed.

Lemma collect_same (parseFloat : option (json N) -> option N)
  (rows : list (json N)) :
  Fixed.collect parseFloat rows = Selectable.collect parseFloat rows.
Proof. reflexivity. Qed.

End Agreement.

(* ------------------------------------------------------------------ *)
(** ** The row loop *)
(* ------------------------------------------------------------------ *)

Section Rows.

Context {N : Type} {A : Arith N}.

Variable parseFloat : option (json N) -> option N.

Lemma index_None_iff (row : json N) (i : nat) : index row i = None <-> row = JNull.
Proof. destruct row; simpl; split; intros H; try discriminate; reflexivity. Qed.


Lemma read_row_None (row : json N) :
  read_row parseFloat row = None <-> throws parseFloat row.
Proof.
  unfold read_row, throws. split.
  - destruct (index row 0) as [e0|] eqn:I0.
    + destruct (parseFloat e0) as [a|] eqn:P0.
      * destruct (index row 1) as [e1|] eqn:I1.
        -- destruct (parseFloat e1) as [b|] eqn:P1; [discriminate|].
           intros _. right. right. exists e0, a, e1. auto.
        -- intros _. left. apply (index_None_iff row 1), I1.
      * intros _. right. left. exists e0. auto.
    + intros _. left. apply (index_None_iff row 0), I0.
  - intros [->|[(e0 & -> & ->)|(e0 & xi & e1 & -> & -> & -> & ->)]]; reflexivity.
Qed.

(** One turn of the loop, by what reading the row gives. *)
Lemma push_row_read (x y : list N) (row : json N) :
  Selectable.push_row parseFloat (Some (x, y)) row
  = match read_row parseFloat row with
    | None => None
    | Some p =>
        if valid p then Some (x ++ [fst p], y ++ [snd p]) else Some (x, y)
    end.
Proof.
  unfold Selectable.push_row, read_row, valid.
  destruct (index row 0) as [e0|]; [|reflexivity].
  destruct (parseFloat e0) as [a|]; [|reflexivity].
  destruct (index row 1) as [e1|]; [|reflexivity].
  destruct (parseFloat e1) as [b|]; reflexivity.
Qed.

Lemma fold_push_None (rows : list (json N)) :
  fold_left (Selectable.push_row parseFloat) rows None = None.
Proof. induction rows; simpl; auto. Qed.

(** The loop from any state: it throws exactly when reading one of the
    rows throws, and otherwise appends the survivors in order. *)
Lemma collect_from (rows : list (json N)) (x y : list N) :
  fold_left (Selectable.push_row parseFloat) rows (Some (x, y))
  = if existsb (fun row => match read_row parseFloat row with
                           | None => true
                           | Some _ => false
                           end) rows
    then None
    else Some (x ++ map fst (survivors parseFloat rows),
               y ++ map snd (survivors parseFloat rows)).
Proof.
  revert x y. induction rows as [|row rows IH]; intros x y.
  - simpl. rewrite !app_nil_r. reflexivity.
  - cbn [fold_left existsb survivors]. rewrite push_row_read.
    destruct (read_row parseFloat row) as [p|].
    + cbn [orb]. destruct (valid p).
      * rewrite IH. destruct (existsb _ rows); [reflexivity|].
        cbn [map]. rewrite <- !app_assoc. reflexivity.
      * apply IH.
    + apply fold_push_None.
Qed.

Lemma collect_None (rows : list (json N)) :
  Selectable.collect parseFloat rows = None <-> Exists (throws parseFloat) rows.
Proof.
  unfold Selectable.collect. rewrite collect_from.
  rewrite Exists_exists.
  destruct (existsb _ rows) eqn:E.
  - split; [intros _|reflexivity].
    apply existsb_exists in E. destruct E as (row & I & T).
    exists row. split; [exact I|]. apply read_row_None.
    destruct (read_row parseFloat row); [discriminate|reflexivity].
  - split; [discriminate|]. intros (row & I & T). exfalso.
    apply read_row_None in T.
    assert (existsb (fun row => match read_row parseFloat row with
                                | None => true
                                | Some _ => false
                                end) rows = true) as E'.
    { apply existsb_exists. exists row. split; [exact I|]. rewrite T. reflexivity. }
    congruence.
Qed.

Lemma collect_survivors (rows : list (json N)) :
  ~ Exists (throws parseFloat) rows ->
  Selectable.collect parseFloat rows
  = Some (map fst (survivors parseFloat rows), map snd (survivors parseFloat rows)).
Proof.
  intros H. unfold Selectable.collect. rewrite collect_from.
  destruct (existsb _ rows) eqn:E; [|reflexivity].
  exfalso. apply H, collect_None. unfold Selectable.collect.
  rewrite collect_from, E. reflexivity.
Qed.

Lemma collect_Some (rows : list (json N)) (x y : list N) :
  Selectable.collect parseFloat rows = Some (x, y) ->
  ~ Exists (throws parseFloat) rows
  /\ x = map fst (survivors parseFloat rows)
  /\ y = map snd (survivors parseFloat rows).
Proof.
  intros H.
  assert (~ Exists (throws parseFloat) rows) as T.
  { intros E. apply collect_None in E. congruence. }
  split; [exact T|].
  rewrite (collect_survivors rows T) in H. injection H as <- <-. auto.
Qed.

Lemma survivors_valid (rows : list (json N)) :
  Forall (fun p => valid p = true) (survivors parseFloat rows).
Proof.
  induction rows as [|row rows IH]; simpl; [constructor|].
  destruct (read_row parseFloat row) as [p|]; [|exact IH].
  destruct (valid p) eqn:V; [constructor; assumption|exact IH].
Qed.

Lemma survivors_length (rows : list (json N)) :
  (List.length (survivors parseFloat rows) <= List.length rows)%nat.
Proof.
  induction rows as [|row rows IH]; simpl; [lia|].
  destruct (read_row parseFloat row) as [p|]; [|lia].
  destruct (valid p); simpl; lia.
Qed.

End Rows.

(** In exact arithmetic a point passes the filter exactly when its
    abscissa is a positive real or [Infinity] and its ordinate is not
    [NaN]. *)
Lemma valid_reals (xi yi : R) :
  valid (Num xi, Num yi) = if Rlt_dec 0 xi then true else false.
Proof. reflexivity. Qed.

Lemma split_combine_fst (A B : Type) (x : list A) (y : list B) :
  List.length y = List.length x ->
  map fst (combine x y) = x /\ map snd (combine x y) = y.
Proof.
  revert y. induction x as [|x0 x IH]; intros [|y0 y] L; try discriminate.
  - split; reflexivity.
  - simpl. destruct (IH y ltac:(simpl in L; lia)) as [-> ->]. split; reflexivity.
Qed.

Lemma parseFloat_example_numbers : parses_numbers parseFloat_example.
Proof. intros r. reflexivity. Qed.

Section RealRows.

Variable parseFloat : option (json jsnumber) -> option jsnumber.

Hypothesis parses : parses_numbers parseFloat.

Lemma read_row_reals (xi yi : R) :
  read_row parseFloat (JArr [JNum (Num xi); JNum (Num yi)]) = Some (Num xi, Num yi).
Proof. unfold read_row. cbn [index nth_error]. rewrite !parses. reflexivity. Qed.

Lemma throws_rows_of (x y : list R) :
  ~ Exists (throws parseFloat) (rows_of (reals x) (reals y)).
Proof.
  revert y. induction x as [|x0 x IH]; intros [|y0 y] H;
    try (inversion H; fail).
  unfold rows_of, reals in H. cbn [map combine fst snd] in H.
  inversion H as [? ? T|? ? T]; subst.
  - apply read_row_None in T. rewrite read_row_reals in T. discriminate.
  - exact (IH y T).
Qed.

Lemma survivors_rows_of (x y : list R) :
  survivors parseFloat (rows_of (reals x) (reals y))
  = map (fun p => (Num (fst p), Num (snd p)))
        (filter (fun p => if Rlt_dec 0 (fst p) then true else false) (combine x y)).
Proof.
  revert y. induction x as [|x0 x IH]; intros [|y0 y]; try reflexivity.
  unfold rows_of, reals. cbn [map combine fst snd survivors filter].
  rewrite read_row_reals, valid_reals.
  fold (reals x) (reals y) (rows_of (reals x) (reals y)).
  rewrite IH. destruct (Rlt_dec 0 x0); reflexivity.
Qed.

(** Rows built from reals with positive abscissae are all kept. *)
Lemma collect_rows_of (x y : list R) :
  List.length y = List.length x -> Forall (fun xi => 0 < xi) x ->
  Selectable.collect parseFloat (rows_of (reals x) (reals y))
  = Some (reals x, reals y).
Proof.
  intros L F.
  rewrite (collect_survivors parseFloat _ (throws_rows_of x y)), survivors_rows_of.
  assert (filter (fun p => if Rlt_dec 0 (fst p) then true else false) (combine x y)
          = combine x y) as ->.
  { revert y L. induction F as [|x0 x P F IH]; intros [|y0 y] L;
      try reflexivity; try discriminate.
    cbn [combine filter fst]. destruct (Rlt_dec 0 x0); [|contradiction].
    rewrite IH by (simpl in L; lia). reflexivity. }
  rewrite !map_map. cbn [fst snd]. unfold reals.
  rewrite <- (map_map fst Num), <- (map_map snd Num).
  destruct (split_combine_fst _ _ x y L) as [-> ->]. reflexivity.
Qed.

End RealRows.

(* ------------------------------------------------------------------ *)
(** ** The handlers *)
(* ------------------------------------------------------------------ *)

Lemma toFixed6_grid (m : R) :
  Rabs m < 1e21 -> exists z : Z, toFixed6 m = IZR z / 1e6.
Proof.
  intros H. unfold toFixed6.
  destruct (Rle_dec _ _) as [Hbig|_]; [lra|]. cbv zeta.
  destruct (Rlt_dec m 0) as [Hneg|Hpos].
  - exists (- Int_part (Rabs m * 1e6 + / 2))%Z. rewrite opp_IZR. field.
  - eexists. reflexivity.
Qed.

(** Case analysis along the branches of a handler. *)
Ltac branch H :=
  match type of H with
  | context [if ?c then _ else _] =>
      let E := fresh "E" in destruct c eqn:E
  | context [match ?c with _ => _ end] =>
      let E := fresh "E" in destruct c eqn:E
  end.

Section Handlers.

Context {N : Type} {A : Arith N}.

Variable parseFloat : option (json N) -> option N.
Variable toKey : json N -> option string.

Lemma round_result_spec (m : jsval N) : rounded_or_passed m (round_result m).
Proof.
  destruct m as [n| | |]; try reflexivity.
  simpl. destruct (isFinite n); reflexivity.
Qed.

(** Every [200] of the selectable handler carries the rounded (or passed)
    result of calling the property named by the request's key on the value
    of [fit] on the request's points. *)
Lemma selectable_ok (request : Request N) (resp : Response N) :
  snd (Selectable.onRequestPost parseFloat toKey request) = Respond resp ->
  status resp = 200%nat ->
  exists b rows key name x y r2 m,
    parsed request = Some b
    /\ prop "rows" b = Some (JArr rows)
    /\ prop "transformKey" b = Some key
    /\ Selectable.collect parseFloat rows = Some (x, y)
    /\ Selectable.ToPropertyKey toKey key = Some name
    /\ Selectable.fit x y = Some r2
    /\ Selectable.call (Selectable.lookup name) r2 = Some m
    /\ body resp = MainResultBody (round_result m).
Proof.
  unfold Selectable.onRequestPost, Selectable.missing.
  intros H S.
  destruct (String.eqb (method request) "OPTIONS");
    [injection H as <-; discriminate S|].
  destruct (parsed request) as [b|]; [|injection H as <-; discriminate S].
  destruct (truthy (Some b)); [|injection H as <-; discriminate S].
  destruct (prop "rows" b) as [[| | | |rows|]|] eqn:Rw;
    try (injection H as <-; discriminate S).
  destruct (prop "transformKey" b) as [key|] eqn:K;
    [|injection H as <-; discriminate S].
  destruct (negb (truthy (Some key))); [injection H as <-; discriminate S|].
  destruct (Selectable.collect parseFloat rows) as [[x y]|] eqn:C;
    [|discriminate H].
  destruct (List.length x <? 2)%nat; [injection H as <-; discriminate S|].
  destruct (Selectable.ToPropertyKey toKey key) as [name|] eqn:T;
    [|discriminate H].
  cbv zeta in H.
  destruct (negb (Selectable.is_function _)); [injection H as <-; discriminate S|].
  destruct (Selectable.fit x y) as [r2|] eqn:F; [|injection H as <-; discriminate S].
  destruct (Selectable.call _ r2) as [m|] eqn:M; [|injection H as <-; discriminate S].
  injection H as <-.
  exists b, rows, key, name, x, y, r2, m. repeat split; assumption || reflexivity.
Qed.

Lemma fixed_ok (request : Request N) (resp : Response N) :
  snd (Fixed.onRequestPost parseFloat request) = Respond resp ->
  status resp = 200%nat ->
  exists b rows x y r2,
    parsed request = Some b
    /\ prop "rows" b = Some (JArr rows)
    /\ Fixed.collect parseFloat rows = Some (x, y)
    /\ Fixed.fit x y = Some r2
    /\ body resp = MainResultBody (round_result (VNumber (Fixed.transform r2))).
Proof.
  unfold Fixed.onRequestPost.
  intros H S.
  destruct (String.eqb (method request) "OPTIONS");
    [injection H as <-; discriminate S|].
  destruct (parsed request) as [b|]; [|injection H as <-; discriminate S].
  destruct (truthy (Some b)); [|injection H as <-; discriminate S].
  destruct (prop "rows" b) as [[| | | |rows|]|] eqn:Rw;
    try (injection H as <-; discriminate S).
  destruct (Fixed.collect parseFloat rows) as [[x y]|] eqn:C; [|discriminate H].
  destruct (List.length x <? 2)%nat; [injection H as <-; discriminate S|].
  destruct (Fixed.fit x y) as [r2|] eqn:F; [|injection H as <-; discriminate S].
  injection H as <-.
  exists b, rows, x, y, r2. repeat split; assumption || reflexivity.
Qed.

Lemma prop_truthy (k : string) (b v : json N) :
  prop k b = Some v -> truthy (Some b) = true.
Proof. destruct b; simpl; try discriminate. reflexivity. Qed.

(** The selectable handler once the body has passed the shape test and
    the row loop has ended with at least two points. *)
Lemma selectable_run
  (request : Request N) (rows : list (json N)) (key : json N) (x y : list N) :
  carries request rows (Some key) ->
  truthy (Some key) = true ->
  Selectable.collect parseFloat rows = Some (x, y) ->
  (2 <= List.length x)%nat ->
  Selectable.onRequestPost parseFloat toKey request
  = match Selectable.ToPropertyKey toKey key with
    | None => ([], Uncaught)
    | Some name =>
        let forward := Selectable.lookup name in
        if negb (Selectable.is_function forward) then
          ([], Respond (jsonResponse request 400 (ErrorBody "Unknown transform")))
        else
          match Selectable.fit x y with
          | None =>
              ([CallFit x y],
               Respond (jsonResponse request 422 (ErrorBody "Fit failed")))
          | Some r2 =>
              match Selectable.call forward r2 with
              | None =>
                  ([CallFit x y; CallForward r2],
                   Respond (jsonResponse request 422 (ErrorBody "Transform failed")))
              | Some mainResult =>
                  ([CallFit x y; CallForward r2],
                   Respond (jsonResponse request 200
                              (MainResultBody (round_result mainResult))))
              end
          end
    end.
Proof.
  intros (M & b & B & Rw & K) T C L.
  unfold Selectable.onRequestPost.
  rewrite M, B, (prop_truthy _ _ _ Rw), Rw, K, T. cbn [negb].
  rewrite C.
  destruct (Nat.ltb_spec (List.length x) 2) as [Hlt|_]; [lia|].
  reflexivity.
Qed.

(** A falsy or absent key is answered before the rows are read. *)
Lemma selectable_missing_key
  (request : Request N) (rows : list (json N)) (key : option (json N)) :
  carries request rows key ->
  truthy key = false ->
  Selectable.onRequestPost parseFloat toKey request
  = ([], Respond (jsonResponse request 400 (ErrorBody "Missing rows or transformKey"))).
Proof.
  intros (M & b & B & Rw & K) T.
  unfold Selectable.onRequestPost, Selectable.missing.
  rewrite M, B, (prop_truthy _ _ _ Rw), Rw, K.
  destruct key as [k|]; [|reflexivity].
  rewrite T. reflexivity.
Qed.

(** A row on which reading throws ends the selectable handler with an
    exception, once the key is present. *)
Lemma selectable_throws
  (request : Request N) (rows : list (json N)) (key : json N) :
  carries request rows (Some key) ->
  truthy (Some key) = true ->
  Selectable.collect parseFloat rows = None ->
  Selectable.onRequestPost parseFloat toKey request = ([], Uncaught).
Proof.
  intros (M & b & B & Rw & K) T C.
  unfold Selectable.onRequestPost.
  rewrite M, B, (prop_truthy _ _ _ Rw), Rw, K, T. cbn [negb].
  rewrite C. reflexivity.
Qed.

(** Fewer than two points end the selectable handler with a [400]. *)
Lemma selectable_few
  (request : Request N) (rows : list (json N)) (key : json N) (x y : list N) :
  carries request rows (Some key) ->
  truthy (Some key) = true ->
  Selectable.collect parseFloat rows = Some (x, y) ->
  (List.length x < 2)%nat ->
  Selectable.onRequestPost parseFloat toKey request
  = ([], Respond (jsonResponse request 400 (ErrorBody "Need at least 2 valid points"))).
Proof.
  intros (M & b & B & Rw & K) T C L.
  unfold Selectable.onRequestPost.
  rewrite M, B, (prop_truthy _ _ _ Rw), Rw, K, T. cbn [negb].
  rewrite C.
  destruct (Nat.ltb_spec (List.length x) 2) as [_|Hge]; [reflexivity|lia].
Qed.

Lemma fixed_run
  (request : Request N) (rows : list (json N)) (key : option (json N))
  (x y : list N) :
  carries request rows key ->
  Fixed.collect parseFloat rows = Some (x, y) ->
  (2 <= List.length x)%nat ->
  Fixed.onRequestPost parseFloat request
  = match Fixed.fit x y with
    | None =>
        ([CallFit x y],
         Respond (jsonResponse request 422 (ErrorBody "Pielāgošana neizdevās")))
    | Some r2 =>
        ([CallFit x y; CallForward r2],
         Respond (jsonResponse request 200
                    (MainResultBody (round_result (VNumber (Fixed.transform r2))))))
    end.
Proof.
  intros (M & b & B & Rw & K) C L.
  unfold Fixed.onRequestPost.
  rewrite M, B, (prop_truthy _ _ _ Rw), Rw, C.
  destruct (Nat.ltb_spec (List.length x) 2) as [Hlt|_]; [lia|].
  reflexivity.
Qed.

Lemma fixed_throws
  (request : Request N) (rows : list (json N)) (key : option (json N)) :
  carries request rows key ->
  Fixed.collect parseFloat rows = None ->
  Fixed.onRequestPost parseFloat request = ([], Uncaught).
Proof.
  intros (M & b & B & Rw & K) C.
  unfold Fixed.onRequestPost.
  rewrite M, B, (prop_truthy _ _ _ Rw), Rw, C. reflexivity.
Qed.


(** A key that is neither a name of the table nor the name of an inherited
    function resolves to no function. *)
Lemma lookup_unknown (s : string) :
  ~ In s (map fst (Selectable.TRANSFORMS (N := N))) ->
  ~ In s prototype_functions ->
  Selectable.is_function (Selectable.lookup (N := N) s) = false.
Proof.
  intros Hown Hinh. unfold Selectable.lookup.
  assert (Selectable.own s (Selectable.TRANSFORMS (N := N)) = None) as ->.
  { revert Hown. generalize (Selectable.TRANSFORMS (N := N)) as t.
    induction t as [|[k f] t IH]; intros H; simpl; [reflexivity|].
    destruct (String.eqb_spec s k) as [->|Ne].
    - exfalso. apply H. left. reflexivity.
    - apply IH. intros I. apply H. right. exact I. }
  unfold Selectable.inherited.
  repeat match goal with
         | |- context [String.eqb s ?k] =>
             destruct (String.eqb_spec s k) as [->|?];
               [exfalso; apply Hinh; simpl; tauto|]
         end.
  destruct (String.eqb s "__proto__"); reflexivity.
Qed.

(** A name of the table resolves to its closure. *)
Lemma lookup_own (t : string) (f : N -> N) :
  In (t, f) Selectable.TRANSFORMS -> Selectable.lookup t = Selectable.Closure f.
Proof.
  unfold Selectable.TRANSFORMS. intros H.
  repeat (destruct H as [H|H]; [injection H as <- <-; reflexivity|]).
  contradiction.
Qed.

End Handlers.

(* ------------------------------------------------------------------ *)
(** ** The extended arithmetic on finite numbers *)
(* ------------------------------------------------------------------ *)

(** On reals, and as long as no quotient by zero, logarithm of a number
    that is not positive or square root of a negative number is taken, the
    extended arithmetic computes what the arithmetic over [R] computes. *)

Ltac ext_arith :=
  cbn [int lit of_nat nan op_add op_sub op_mul op_div op_neg op_lt op_ge
       op_pow isNaN isFinite Math_abs Math_max Math_min Math_exp Math_log
       Math_sqrt Math_tan Math_atan Math_sinh Math_PI Number_toFixed6
       ExtendedArith Extended.add Extended.sub Extended.mul Extended.neg
       Extended.lt Extended.power Extended.is_nan
       Extended.is_finite Extended.abs Extended.max Extended.min
       Extended.exponential Extended.arctangent Extended.hyperbolic_sine
       Extended.tangent Extended.fixed6 exact_lit negb] in *.

Lemma div_reals (a b : R) :
  b <> 0 -> Extended.div (Num a) (Num b) = Num (a / b).
Proof.
  intros H. unfold Extended.div.
  destruct (Req_dec_T b 0); [contradiction|reflexivity].
Qed.

Lemma log_reals (a : R) : 0 < a -> Extended.log (Num a) = Num (ln a).
Proof.
  intros H. unfold Extended.log. destruct (Rlt_dec 0 a); [reflexivity|contradiction].
Qed.



Lemma nth_reals (l : list R) (i : nat) :
  (i < List.length l)%nat -> nth i (reals l) NaN = Num (nth i l 0).
Proof.
  intros H. unfold reals.
  rewrite (nth_indep _ NaN (Num 0)) by (rewrite length_map; exact H).
  apply map_nth.
Qed.

Lemma length_reals (l : list R) : List.length (reals l) = List.length l.
Proof. apply length_map. Qed.

Lemma sums_reals (n : nat) (u y : list R) :
  (n <= List.length u)%nat -> (n <= List.length y)%nat ->
  Selectable.sums n (reals u) (reals y)
  = (Num (Sigma n (fun i => nth i u 0)),
     Num (Sigma n (fun i => nth i u 0 * nth i u 0)),
     Num (Sigma n (fun i => nth i y 0)),
     Num (Sigma n (fun i => nth i u 0 * nth i y 0))).
Proof.
  unfold Selectable.sums.
  induction n as [|n IH]; intros Hu Hy.
  - reflexivity.
  - rewrite seq_S, fold_left_app, IH by lia. cbn [fold_left Nat.add]. ext_arith.
    rewrite !nth_reals by lia. reflexivity.
Qed.

Lemma squares_reals (n : nat) (y yPred : list R) (yMean : R) :
  (n <= List.length y)%nat -> (n <= List.length yPred)%nat ->
  Selectable.squares n (reals y) (reals yPred) (Num yMean)
  = (Num (Sigma n (fun i => (nth i y 0 - nth i yPred 0) ^ 2)),
     Num (Sigma n (fun i => (nth i y 0 - yMean) ^ 2))).
Proof.
  unfold Selectable.squares.
  induction n as [|n IH]; intros Hy Hp.
  - reflexivity.
  - rewrite seq_S, fold_left_app, IH by lia. cbn [fold_left Nat.add]. ext_arith.
    rewrite !nth_reals by lia. reflexivity.
Qed.

Lemma map_reals (f : R -> R) (g : jsnumber -> jsnumber) (l : list R) :
  Forall (fun r => g (Num r) = Num (f r)) l ->
  map g (reals l) = reals (map f l).
Proof.
  induction 1 as [|r l H _ IH]; [reflexivity|].
  unfold reals in *. cbn [map]. rewrite H, IH. reflexivity.
Qed.

(** [fit] on real points, none of them at the abscissa 0. *)
Lemma fit_reals (x y : list R) :
  List.length y = List.length x ->
  Forall (fun xi => xi <> 0) x ->
  Selectable.fit (reals x) (reals y) = option_map Num (Selectable.fit x y).
Proof.
  intros L F.
  rewrite (fit_fit_sums x y).
  unfold Selectable.fit, fit_sums.
  rewrite length_reals.
  set (n := List.length x).
  rewrite (map_reals (fun xi => 1 / (xi * xi))).
  2:{ eapply Forall_impl; [|exact F]. intros r Hr. ext_arith.
      apply div_reals. nra. }
  rewrite sums_reals by (rewrite ?length_map; unfold n; lia).
  rewrite (Sigma_ext _ (fun i => nth i (map (fun xi => 1 / (xi * xi)) x) 0) (u_of x))
    by (intros i Hi; unfold u_of; apply (nth_map_lt (fun xi => 1 / (xi * xi))); exact Hi).
  rewrite (Sigma_ext _ (fun i => nth i (map (fun xi => 1 / (xi * xi)) x) 0
                                 * nth i (map (fun xi => 1 / (xi * xi)) x) 0)
                       (fun i => u_of x i * u_of x i))
    by (intros i Hi; unfold u_of;
        rewrite (nth_map_lt (fun xi => 1 / (xi * xi))) by exact Hi; reflexivity).
  rewrite (Sigma_ext _ (fun i => nth i (map (fun xi => 1 / (xi * xi)) x) 0 * nth i y 0)
                       (fun i => u_of x i * nth i y 0))
    by (intros i Hi; unfold u_of;
        rewrite (nth_map_lt (fun xi => 1 / (xi * xi))) by exact Hi; reflexivity).
  cbv zeta.
  set (Su := Sigma n (u_of x)).
  set (Su2 := Sigma n (fun i => u_of x i * u_of x i)).
  set (Sy := Sigma n (fun i => nth i y 0)).
  set (Suy := Sigma n (fun i => u_of x i * nth i y 0)).
  ext_arith.
  set (det := INR n * Su2 - Su * Su).
  destruct (Rlt_dec (Rabs det) 1e-20) as [Hd|Hd]; [reflexivity|].
  assert (det <> 0) as Hdet.
  { intros E. apply Hd. rewrite E, Rabs_R0. lra. }
  assert (INR n <> 0) as Hn.
  { intros E. apply Hdet. unfold det. rewrite E.
    assert (n = 0%nat) as E0 by (apply INR_eq; rewrite E; reflexivity).
    unfold Su. rewrite E0. simpl. ring. }
  rewrite !(div_reals _ det) by exact Hdet.
  rewrite (div_reals _ (INR n)) by exact Hn.
  set (a := (Sy * Su2 - Su * Suy) / det).
  set (b := (INR n * Suy - Su * Sy) / det).
  rewrite (map_reals (fun xi => b / (xi * xi) + a)).
  2:{ eapply Forall_impl; [|exact F]. intros r Hr. ext_arith.
      rewrite div_reals by nra. reflexivity. }
  rewrite squares_reals by (rewrite ?length_map; unfold n; lia).
  ext_arith.
  match goal with
  | |- context [Rlt_dec 0 ?t] => set (ssTot := t)
  end.
  match goal with
  | |- context [Extended.div (Num ?s) (Num ssTot)] => set (ssRes := s)
  end.
  assert (Sigma n (fun i => (nth i y 0 - (b * u_of x i + a)) ^ 2) = ssRes) as ->.
  { unfold ssRes. apply Sigma_ext. intros i Hi.
    rewrite (nth_map_lt (fun xi => _ / (xi * xi) + _)) by exact Hi.
    unfold u_of, Rdiv. f_equal. ring. }
  destruct (Rlt_dec 0 ssTot) as [Ht|Ht]; [|reflexivity].
  rewrite div_reals by lra. reflexivity.
Qed.

(** The transforms on a real. *)


Lemma floored_pos (lo a : R) : 0 < lo -> 0 < Rmax lo a.
Proof. intros H. pose proof (floor_ge lo a). lra. Qed.

Lemma transform_reals (r : R) : Fixed.transform (Num r) = Num (Fixed.transform r).
Proof.
  unfold Fixed.transform. ext_arith. exact_arith.
  rewrite log_reals by (apply floored_pos; lra). reflexivity.
Qed.













Lemma saturating_ratio_reals (r : R) :
  Selectable.saturating_ratio (Num r) = Num (Selectable.saturating_ratio r).
Proof.
  unfold Selectable.saturating_ratio, truthy_number. ext_arith. exact_arith.
  rewrite div_reals by (pose proof (floor_ge 0 r); lra).
  ext_arith.
  destruct (Rlt_dec 0 _), (Rlt_dec _ 0); reflexivity.
Qed.



(* ------------------------------------------------------------------ *)
(** ** Monotonicity of the table (C1) *)
(* ------------------------------------------------------------------ *)

(** The table has fifteen entries under fifteen names. *)
Lemma TRANSFORMS_fifteen (N : Type) (A : Arith N) :
  List.length (Selectable.TRANSFORMS (N := N)) = 15%nat
  /\ NoDup (map fst (Selectable.TRANSFORMS (N := N))).
Proof.
  split; [reflexivity|].
  unfold Selectable.TRANSFORMS. cbn [map fst].
  repeat (constructor;
          [cbn [In]; intros H; repeat destruct H as [H|H];
           try discriminate H; exact H|]).
  constructor.
Qed.

(** At [0.998] the transform [exp(1/(1-R²))] is [exp 500], far above the
    value [1e100] it takes from [0.999] on. *)
Lemma exp_reciprocal_complement_drop :
  Selectable.exp_reciprocal_complement 0.999
  < Selectable.exp_reciprocal_complement 0.998.
Proof.
  unfold Selectable.exp_reciprocal_complement; exact_arith.
  destruct (Rge_dec 0.999 0.999) as [_|N]; [|lra].
  destruct (Rge_dec 0.998 0.999) as [N|_]; [lra|].
  rewrite (Rmin_right 0.999 0.998), (Rmax_right 0 0.998) by lra.
  apply Rlt_le_trans with ((5 / 2) ^ 500); [lra|].
  apply exp_ge_pow. rewrite INR_IZR_INZ. simpl. lra.
Qed.

(** C1, as stated, fails: the table holds a transform that is not
    non-decreasing.  [exp(-R²)] maps 0 to 1 and 1 to [exp (-1)], which is
    smaller. *)
Lemma transforms_not_all_nondecreasing :
  ~ (forall (t : string) (f : R -> R),
        In (t, f) Selectable.TRANSFORMS ->
        forall r1 r2 : R, r1 <= r2 -> f r1 <= f r2).
Proof.
  intros H.
  assert (In ("exp(-R²)"%string, Selectable.exp_negative (N := R))
             Selectable.TRANSFORMS) as I
    by (simpl; tauto).
  specialize (H _ _ I 0 1 ltac:(lra)).
  unfold Selectable.exp_negative in H; exact_arith.
  rewrite (Rmax_left 0 0), (Rmax_right 0 1) in H by lra.
  rewrite Ropp_0, exp_0 in H.
  pose proof (exp_increasing (-1) 0 ltac:(lra)) as L. rewrite exp_0 in L.
  replace (-(1)) with (-1) in H by ring. lra.
Qed.

(** C1, amended: every transform of the table other than [exp(-R²)] and
    [exp(1/(1-R²))] is non-decreasing over all reals; [exp(-R²)] is
    non-increasing; [exp(1/(1-R²))] is non-decreasing as long as both
    arguments lie on the same side of its ceiling [0.999]. *)
Theorem transforms_monotone (t : string) (f : R -> R) (r1 r2 : R) :
  In (t, f) Selectable.TRANSFORMS ->
  r1 <= r2 ->
  (t <> "exp(-R²)"%string -> t <> "exp(1/(1-R²)) ★"%string -> f r1 <= f r2)
  /\ (t = "exp(-R²)"%string -> f r2 <= f r1)
  /\ (t = "exp(1/(1-R²)) ★"%string -> r2 < 0.999 \/ 0.999 <= r1 -> f r1 <= f r2).
Proof.
  unfold Selectable.TRANSFORMS. intros H L.
  repeat (destruct H as [H|H]; [injection H as <- <-|]); try contradiction;
    (split; [intros N1 N2|split; [intros E|intros E S]]);
    try discriminate E;
    try (exfalso; apply N1; reflexivity);
    try (exfalso; apply N2; reflexivity).
  - apply reciprocal_complement_mono, L.
  - destruct S; [apply exp_reciprocal_complement_mono_below
                |apply exp_reciprocal_complement_mono_above]; assumption.
  - apply neg_log_complement_mono, L.
  - apply inverse_sqrt_complement_mono, L.
  - apply tangent_half_pi_mono, L.
  - apply exp_decay_scaled_mono, L.
  - apply inverse_cube_complement_mono, L.
  - apply log1p_mono, L.
  - apply exp_clamped_low_mono, L.
  - apply sqrt1p_mono, L.
  - apply square_mono, L.
  - apply arctan_normalized_mono, L.
  - apply saturating_ratio_mono, L.
  - apply sinh_transform_mono, L.
  - apply exp_negative_antitone, L.
Qed.

Lemma transforms_monotone_witness :
  In ("tan(π·R²/2) ★"%string, Selectable.tangent_half_pi (N := R))
     Selectable.TRANSFORMS
  /\ 0.2 <= 0.7
  /\ Selectable.tangent_half_pi 0.2 <= Selectable.tangent_half_pi 0.7.
Proof.
  assert (In ("tan(π·R²/2) ★"%string, Selectable.tangent_half_pi (N := R))
             Selectable.TRANSFORMS) as I by (simpl; tauto).
  assert (0.2 <= 0.7) as L by lra.
  split; [exact I|split; [exact L|]].
  apply (proj1 (transforms_monotone _ _ 0.2 0.7 I L)); discriminate.
Defined.

(* ------------------------------------------------------------------ *)
(** ** Baselines (C7) *)
(* ------------------------------------------------------------------ *)

(** C7: at [R² = 0] the transform [1/(1-R²)] returns 1, [exp(1/(1-R²))]
    returns [e], which rounds to 2.718282, [-log(1-R²)] returns 0 in both
    variants, and [R²²] returns 0. *)
Theorem baselines_at_zero :
  Selectable.reciprocal_complement 0 = 1
  /\ Selectable.exp_reciprocal_complement 0 = exp 1
  /\ toFixed6 (exp 1) = 2.718282
  /\ Selectable.neg_log_complement 0 = 0
  /\ Fixed.transform 0 = 0
  /\ Selectable.square 0 = 0.
Proof.
  assert (Rmax 0 (Rmin 0.999 0) = 0) as C1.
  { rewrite Rmin_right, Rmax_left; lra. }
  assert (Rmax 0 (Rmin 0.9999 0) = 0) as C2.
  { rewrite Rmin_right, Rmax_left; lra. }
  assert (- ln (Rmax 1e-10 (1 - 0)) = 0) as L.
  { rewrite Rmax_right by lra. replace (1 - 0) with 1 by ring.
    rewrite ln_1. ring. }
  repeat split.
  - unfold Selectable.reciprocal_complement; exact_arith.
    destruct (Rge_dec 0 0.999); [lra|]. rewrite C1. field.
  - unfold Selectable.exp_reciprocal_complement; exact_arith.
    destruct (Rge_dec 0 0.999); [lra|]. rewrite C1. f_equal. field.
  - pose proof exp_1_bounds as B.
    rewrite (toFixed6_value (exp 1) 2718282); lra.
  - unfold Selectable.neg_log_complement; exact_arith. rewrite C2. exact L.
  - unfold Fixed.transform; exact_arith. rewrite C2. exact L.
  - unfold Selectable.square; exact_arith. rewrite Rmax_left by lra. simpl. ring.
Qed.

(* ------------------------------------------------------------------ *)
(** ** The two variants (C9) *)
(* ------------------------------------------------------------------ *)

(** C9: the [fit] of the fixed variant and the [fit] of the selectable
    variant return the same result on every pair of sequences, and the
    fixed variant's [transform] is the entry [-log(1-R²) ★] of the table;
    this in every arithmetic, that over the reals included. *)
Theorem variants_agree (N : Type) (A : Arith N) :
  (forall x y : list N, Fixed.fit x y = Selectable.fit x y)
  /\ (exists f : N -> N,
        Selectable.own "-log(1-R²) ★" Selectable.TRANSFORMS = Some f
        /\ forall r2 : N, Fixed.transform r2 = f r2).
Proof.
  split.
  - intros x y. unfold Fixed.fit, Selectable.fit, Fixed.sums, Selectable.sums,
      Fixed.squares, Selectable.squares. reflexivity.
  - exists Selectable.neg_log_complement. split.
    + reflexivity.
    + intros r2. unfold Fixed.transform, Selectable.neg_log_complement. reflexivity.
Qed.

(* ------------------------------------------------------------------ *)
(** ** Data on the curve (C2) *)
(* ------------------------------------------------------------------ *)

(** From [0.9999] on, the fixed transform is the constant [-ln (1 - 0.9999)]:
    the inner clamp binds and keeps the argument of the logarithm at
    [1e-4], above the floor [1e-10]. *)
Lemma transform_saturated (r2 : R) :
  0.9999 <= r2 -> Fixed.transform r2 = - ln (1 - 0.9999).
Proof.
  intros H. unfold Fixed.transform; exact_arith.
  rewrite (Rmin_left 0.9999 r2), (Rmax_right 0 0.9999), Rmax_right by lra.
  reflexivity.
Qed.

Lemma ln_decimal (n : nat) : ln (/ 10 ^ n) = - (INR n * ln 10).
Proof.
  rewrite ln_Rinv by (apply pow_lt; lra).
  rewrite ln_pow by lra. reflexivity.
Qed.

Lemma ln_10_bounds : 2.3025850925 <= ln 10 < 2.302585095.
Proof.
  pose proof ln_10000_bounds as B.
  replace 10000 with (10 ^ 4) in B by lra.
  rewrite ln_pow in B by lra. simpl INR in B. lra.
Qed.

(** [-ln (1 - 0.9999)] is [4 ln 10] and rounds to 9.21034; [-ln 1e-10] is
    [10 ln 10] and rounds to 23.025851. *)
Lemma saturation_rounded : toFixed6 (- ln (1 - 0.9999)) = 9.21034.
Proof.
  replace (1 - 0.9999) with (/ 10 ^ 4) by lra.
  rewrite ln_decimal. simpl INR. pose proof ln_10_bounds as B.
  rewrite (toFixed6_value _ 9210340); lra.
Qed.

Lemma floor_rounded : toFixed6 (- ln 1e-10) = 23.025851.
Proof.
  replace 1e-10 with (/ 10 ^ 10) by lra.
  rewrite ln_decimal. simpl INR. pose proof ln_10_bounds as B.
  rewrite (toFixed6_value _ 23025851); lra.
Qed.

Lemma rounded_values_differ :
  toFixed6 (- ln (1 - 0.9999)) <> toFixed6 (- ln 1e-10).
Proof. rewrite saturation_rounded, floor_rounded. lra. Qed.

(** The determinant for the abscissae 1 and 2. *)
Lemma det_of_1_2 : det_of [1; 2] = 9 / 16.
Proof. unfold det_of, u_of. simpl. lra. Qed.

Lemma on_curve_1_2 : on_curve 0 1 [1; 2] [1; 1 / 4].
Proof.
  split; [reflexivity|].
  intros i Hi. simpl in Hi.
  destruct i as [|[|i]]; simpl; [lra|lra|lia].
Qed.


(** The rows [[1, 1], [2, 0.25]] in exact arithmetic. *)
Lemma fit_1_2 : Selectable.fit [1; 2] [1; 1 / 4] = Some 1.
Proof.
  rewrite (fit_on_curve 0 1 _ _ on_curve_1_2)
    by (rewrite det_of_1_2, Rabs_right; lra).
  destruct (Req_dec_T 1 0); [lra|reflexivity].
Qed.

Lemma positive_nonzero (x : list R) :
  Forall (fun xi => 0 < xi) x -> Forall (fun xi => xi <> 0) x.
Proof. intros F. eapply Forall_impl; [|exact F]. intros r Hr. cbv beta in Hr. lra. Qed.

Lemma fit_1_2_reals :
  Selectable.fit (reals [1; 2]) (reals [1; 1 / 4]) = Some (Num 1).
Proof.
  rewrite fit_reals, fit_1_2; [reflexivity|reflexivity|].
  repeat constructor; lra.
Qed.

(** C2, amended: for data lying exactly on [y = b0/x² + a0] with [b0]
    nonzero, at least two rows and positive abscissae, on which [fit] does
    not signal DEGENERATE (the determinant is not below [1e-20] in
    magnitude), in exact arithmetic [fit] returns 1, over the reals and
    over the reals with the special values, and the fixed endpoint,
    computing in exact arithmetic, answers 200 with [mainResult] equal to
    [-ln (1 - 0.9999)], that is [ln 10000], about 9.21034, rounded to six
    decimals: the clamp at 0.9999 binds, the floor [1e-10] does not. *)
Theorem perfect_fit
  (parseFloat : option (json jsnumber) -> option jsnumber)
  (request : Request jsnumber) (key : option (json jsnumber))
  (a0 b0 : R) (x y : list R) :
  parses_numbers parseFloat ->
  carries request (rows_of (reals x) (reals y)) key ->
  (2 <= List.length x)%nat ->
  Forall (fun xi => 0 < xi) x ->
  on_curve a0 b0 x y ->
  b0 <> 0 ->
  ~ Rabs (det_of x) < 1e-20 ->
  Fixed.fit x y = Some 1
  /\ Fixed.fit (reals x) (reals y) = Some (Num 1)
  /\ Fixed.onRequestPost parseFloat request
     = ([CallFit (reals x) (reals y); CallForward (Num 1)],
        Respond (jsonResponse request 200
                   (MainResultBody
                      (VNumber (Num (toFixed6 (- ln (1 - 0.9999))))))))
  /\ toFixed6 (- ln (1 - 0.9999)) = 9.21034.
Proof.
  intros P C L F O B D.
  assert (Fixed.fit x y = Some 1) as E.
  { rewrite fit_same, (fit_on_curve a0 b0 x y O D).
    destruct (Req_dec_T b0 0); [contradiction|reflexivity]. }
  assert (Fixed.fit (reals x) (reals y) = Some (Num 1)) as E'.
  { rewrite fit_same, fit_reals, <- fit_same, E;
      [reflexivity|apply O|apply positive_nonzero, F]. }
  split; [exact E|]. split; [exact E'|]. split; [|exact saturation_rounded].
  rewrite (fixed_run parseFloat request (rows_of (reals x) (reals y)) key
             (reals x) (reals y) C).
  - rewrite E', transform_reals, transform_saturated by lra. reflexivity.
  - rewrite collect_same. apply collect_rows_of; [exact P|apply O|exact F].
  - rewrite length_reals. exact L.
Qed.

Lemma perfect_fit_witness :
  Fixed.fit [1; 2] [1; 1 / 4] = Some 1
  /\ snd (Fixed.onRequestPost parseFloat_example
            (post (JObj [("rows"%string,
                          JArr (rows_of (reals [1; 2]) (reals [1; 1 / 4])))])))
     = Respond (jsonResponse
                  (post (JObj [("rows"%string,
                                JArr (rows_of (reals [1; 2]) (reals [1; 1 / 4])))]))
                  200
                  (MainResultBody (VNumber (Num (toFixed6 (- ln (1 - 0.9999))))))).
Proof.
  assert (carries (post (JObj [("rows"%string,
                                JArr (rows_of (reals [1; 2]) (reals [1; 1 / 4])))]))
                  (rows_of (reals [1; 2]) (reals [1; 1 / 4])) None) as C.
  { split; [reflexivity|]. eexists. repeat split. }
  assert (Forall (fun xi => 0 < xi) [1; 2]) as F.
  { repeat constructor; lra. }
  assert (~ Rabs (det_of [1; 2]) < 1e-20) as D.
  { rewrite det_of_1_2, Rabs_right; lra. }
  destruct (perfect_fit parseFloat_example _ None 0 1 [1; 2] [1; 1 / 4]
              parseFloat_example_numbers C ltac:(simpl; lia) F on_curve_1_2
              ltac:(lra) D) as (E & _ & H & _).
  split; [exact E|]. rewrite H. reflexivity.
Defined.

(** C2, as stated, fails at the rows [[1, 1], [2, 0.25]], which lie on
    [y = 1/x²]: the abscissae are distinct and positive and [fit] returns
    1, but the fixed endpoint answers 9.21034, which is [-ln (1 - 0.9999)]
    rounded to six decimals, and not 23.025851, which is [-ln 1e-10]
    rounded to six decimals. *)
Lemma curve_data_not_floor :
  NoDup [1; 2]
  /\ Forall (fun xi => 0 < xi) [1; 2]
  /\ on_curve 0 1 [1; 2] [1; 1 / 4]
  /\ Fixed.fit [1; 2] [1; 1 / 4] = Some 1
  /\ snd (Fixed.onRequestPost parseFloat_example
            (post (JObj [("rows"%string,
                          JArr (rows_of (reals [1; 2]) (reals [1; 1 / 4])))])))
     = Respond (jsonResponse
                  (post (JObj [("rows"%string,
                                JArr (rows_of (reals [1; 2]) (reals [1; 1 / 4])))]))
                  200 (MainResultBody (VNumber (Num 9.21034))))
  /\ toFixed6 (- ln 1e-10) = 23.025851
  /\ snd (Fixed.onRequestPost parseFloat_example
            (post (JObj [("rows"%string,
                          JArr (rows_of (reals [1; 2]) (reals [1; 1 / 4])))])))
     <> Respond (jsonResponse
                   (post (JObj [("rows"%string,
                                 JArr (rows_of (reals [1; 2]) (reals [1; 1 / 4])))]))
                   200
                   (MainResultBody (VNumber (Num (toFixed6 (- ln 1e-10)))))).
Proof.
  assert (carries (post (JObj [("rows"%string,
                                JArr (rows_of (reals [1; 2]) (reals [1; 1 / 4])))]))
                  (rows_of (reals [1; 2]) (reals [1; 1 / 4])) None) as C.
  { split; [reflexivity|]. eexists. repeat split. }
  assert (Forall (fun xi => 0 < xi) [1; 2]) as F.
  { repeat constructor; lra. }
  assert (Fixed.fit [1; 2] [1; 1 / 4] = Some 1) as E.
  { rewrite fit_same. exact fit_1_2. }
  assert (snd (Fixed.onRequestPost parseFloat_example
                 (post (JObj [("rows"%string,
                               JArr (rows_of (reals [1; 2]) (reals [1; 1 / 4])))])))
          = Respond (jsonResponse
                       (post (JObj [("rows"%string,
                                     JArr (rows_of (reals [1; 2]) (reals [1; 1 / 4])))]))
                       200 (MainResultBody (VNumber (Num 9.21034))))) as H.
  { rewrite (fixed_run parseFloat_example _ _ None (reals [1; 2]) (reals [1; 1 / 4]) C).
    - rewrite fit_same, fit_1_2_reals, transform_reals, transform_saturated by lra.
      cbn [snd round_result]. ext_arith.
      rewrite saturation_rounded. reflexivity.
    - rewrite collect_same.
      apply collect_rows_of; [exact parseFloat_example_numbers|reflexivity|exact F].
    - simpl. lia. }
  split; [|split; [exact F|split; [exact on_curve_1_2|split; [exact E|]]]].
  { repeat constructor; simpl; intros Ne; repeat destruct Ne as [Ne|Ne]; try lra. }
  split; [exact H|]. split; [exact floor_rounded|].
  rewrite H, floor_rounded. intros Ne. injection Ne as Ne. lra.
Qed.
(** A constant signal ([b0 = 0]) on the curve gives [R² = 0], not 1. *)
Lemma constant_signal_fit (a0 : R) (x y : list R) :
  on_curve a0 0 x y -> ~ Rabs (det_of x) < 1e-20 -> Selectable.fit x y = Some 0.
Proof.
  intros O D. rewrite (fit_on_curve a0 0 x y O D).
  destruct (Req_dec_T 0 0) as [_|N]; [reflexivity|contradiction].
Qed.

(** Distinct abscissae do not keep the determinant above the threshold:
    for [x = [1e6; 2e6]] it is about [5.6e-25]. *)
Lemma distinct_but_degenerate (y : list R) :
  NoDup [1e6; 2e6] /\ Selectable.fit [1e6; 2e6] y = None.
Proof.
  split.
  - repeat constructor; simpl; intros H; repeat destruct H as [H|H]; try lra.
  - apply fit_None_iff. unfold det_of, u_of. simpl.
    match goal with |- Rabs ?d < _ => assert (0 <= d < 1e-20) as B by lra end.
    rewrite Rabs_right; lra.
Qed.


(* ------------------------------------------------------------------ *)
(** ** The degenerate fit (C3) *)
(* ------------------------------------------------------------------ *)

(** Whenever a handler has called [fit] and [fit] returned [null], the
    answer is a 422 with an error payload. *)
Lemma selectable_degenerate (N : Type) (A : Arith N)
  (parseFloat : option (json N) -> option N) (toKey : json N -> option string)
  (request : Request N) (x y : list N) :
  In (CallFit x y) (fst (Selectable.onRequestPost parseFloat toKey request)) ->
  Selectable.fit x y = None ->
  snd (Selectable.onRequestPost parseFloat toKey request)
  = Respond (jsonResponse request 422 (ErrorBody "Fit failed")).
Proof.
  unfold Selectable.onRequestPost, Selectable.missing.
  intros H Hn.
  repeat (branch H; cbn [snd fst In] in H |- *); try contradiction;
    try reflexivity;
    repeat (destruct H as [H|H]; try discriminate H; try contradiction);
    injection H as <- <-; congruence.
Qed.

Lemma fixed_degenerate (N : Type) (A : Arith N)
  (parseFloat : option (json N) -> option N)
  (request : Request N) (x y : list N) :
  In (CallFit x y) (fst (Fixed.onRequestPost parseFloat request)) ->
  Fixed.fit x y = None ->
  snd (Fixed.onRequestPost parseFloat request)
  = Respond (jsonResponse request 422 (ErrorBody "Pielāgošana neizdevās")).
Proof.
  unfold Fixed.onRequestPost.
  intros H Hn.
  repeat (branch H; cbn [snd fst In] in H |- *); try contradiction;
    try reflexivity;
    repeat (destruct H as [H|H]; try discriminate H; try contradiction);
    injection H as <- <-; congruence.
Qed.

(** The degenerate fit in exact arithmetic: [fit] returns [null] exactly
    when [|n Su2 - Su²| < 1e-20]; equal abscissae make the determinant
    zero, so that [fit] returns [null]; and, in every arithmetic, a
    handler that called [fit] and got [null] answers 422 with an error
    payload. *)
Theorem degenerate_exact :
  (forall x y : list R, Selectable.fit x y = None <-> Rabs (det_of x) < 1e-20)
  /\ (forall x y : list R, Fixed.fit x y = None <-> Rabs (det_of x) < 1e-20)
  /\ (forall (x y : list R) c,
        Forall (fun xi => xi = c) x -> Selectable.fit x y = None)
  /\ (forall (N : Type) (A : Arith N) parseFloat toKey
             (request : Request N) (x y : list N),
        In (CallFit x y) (fst (Selectable.onRequestPost parseFloat toKey request)) ->
        Selectable.fit x y = None ->
        snd (Selectable.onRequestPost parseFloat toKey request)
        = Respond (jsonResponse request 422 (ErrorBody "Fit failed")))
  /\ (forall (N : Type) (A : Arith N) parseFloat
             (request : Request N) (x y : list N),
        In (CallFit x y) (fst (Fixed.onRequestPost parseFloat request)) ->
        Fixed.fit x y = None ->
        snd (Fixed.onRequestPost parseFloat request)
        = Respond (jsonResponse request 422 (ErrorBody "Pielāgošana neizdevās"))).
Proof.
  split; [intros x y; apply fit_None_iff|].
  split; [intros x y; rewrite fit_same; apply fit_None_iff|].
  split.
  { intros x y c H. apply fit_None_iff.
    rewrite (det_of_constant x c H), Rabs_R0. lra. }
  split.
  - intros N A parseFloat toKey request x y. apply selectable_degenerate.
  - intros N A parseFloat request x y. apply fixed_degenerate.
Qed.

Module Binary64Facts.

Import Floats.
Local Open Scope float_scope.

(** The program read in the binary64 arithmetic computes [fit] as the
    module [Binary64] writes it out, whatever the host. *)
Lemma fit_arith (h : Binary64.Host) (x y : list float) :
  Selectable.fit (A := Binary64.arith h) x y = Binary64.fit x y
  /\ Fixed.fit (A := Binary64.arith h) x y = Binary64.fit x y.
Proof. split; reflexivity. Qed.

(** C3, at its failing input: the abscissae [5, 5, 5] are all equal, yet
    in binary64 the determinant that [fit] computes is about [1.7e-18],
    not below [1e-20], and [fit] returns the number 0 instead of [null]. *)
Theorem degenerate_missed_binary64 :
  Forall (fun xi => xi = 5) [5; 5; 5]
  /\ PrimFloat.ltb (abs (Binary64.det [5; 5; 5] [1; 2; 3])) Binary64.tiny = false
  /\ Binary64.fit [5; 5; 5] [1; 2; 3] = Some 0.
Proof.
  split; [repeat constructor|].
  split; vm_compute; reflexivity.
Qed.

(** Equal abscissae can also give a clearly negative value. *)
Lemma equal_abscissae_negative :
  exists r, Binary64.fit [3; 3; 3; 3; 3] [1; 2; 3; 4; 7] = Some r
            /\ PrimFloat.ltb r (-2) = true.
Proof.
  eexists. split; vm_compute; reflexivity.
Qed.

(** In binary64 the abscissae 1, 2, 3 with the ordinates 999995, 1000032,
    999973 give an R² of about [-2.2e-12]. *)
Lemma negative_r2_binary64 :
  exists r,
    Binary64.fit [1; 2; 3] [999995; 1000032; 999973] = Some r
    /\ PrimFloat.ltb r 0 = true
    /\ valid_input64 [1; 2; 3] [999995; 1000032; 999973].
Proof.
  eexists. split; [vm_compute; reflexivity|].
  split; [vm_compute; reflexivity|].
  split; [reflexivity|]. split; [simpl; lia|].
  repeat constructor.
Qed.

(** The four points of [fit_spread] below, which are binary64 numbers:
    the computed R² lies between 0.9986 and 0.999, where
    [exp(1/(1-R²))] is not yet replaced by [1e100]. *)
Lemma spread_r2_binary64 :
  exists r,
    Binary64.fit [1; 1; 2; 2] [1.03515625; 0.96484375; -0.96484375; -1.03515625]
    = Some r
    /\ PrimFloat.ltb 0x1.ff487fcb923a3p-1 r = true
    /\ PrimFloat.ltb r 0x1.ff7ced916872bp-1 = true.
Proof.
  eexists. split; [vm_compute; reflexivity|].
  split; vm_compute; reflexivity.
Qed.

(** Rounding inside [fit].  The points [(1, 1e14 + 1)], [(2, 1e14 + 1/4)]
    and [(4, 1e14 + 1/16)] are binary64 numbers and lie exactly on
    [y = 1/x² + 1e14], and the determinant is far from 0; the computed R²
    is about 0.9945, below the clamp 0.9999 of the fixed transform. *)
Lemma on_curve_rounded :
  exists r,
    Binary64.fit [1; 2; 4]
      [100000000000001; 100000000000000.25; 100000000000000.0625] = Some r
    /\ PrimFloat.ltb r (Binary64.literal64 d0_9999) = true
    /\ PrimFloat.ltb 1 (Binary64.det [1; 2; 4] [0; 0; 0]) = true.
Proof.
  eexists. split; [vm_compute; reflexivity|].
  split; vm_compute; reflexivity.
Qed.

(** The constant ordinates 0.1 (the binary64 number nearest to it): the
    computed mean differs from them in the last place, the total sum of
    squares is positive, and the computed R² is 1, not 0. *)
Lemma constant_ordinates_rounded :
  Binary64.fit [1; 2; 4]
    [0x1.999999999999ap-4; 0x1.999999999999ap-4; 0x1.999999999999ap-4]
  = Some 1.
Proof. vm_compute. reflexivity. Qed.

(** Overflow inside [fit]: on the points [(1, 1e308)] and [(2, -1e308)]
    the slope overflows to [Infinity] and the computed R² is [NaN]. *)
Lemma overflow_r2_binary64 :
  exists r,
    Binary64.fit [1; 2] [0x1.1ccf385ebc8ap+1023; -0x1.1ccf385ebc8ap+1023] = Some r
    /\ PrimFloat.is_nan r = true
    /\ valid_input64 [1; 2] [0x1.1ccf385ebc8ap+1023; -0x1.1ccf385ebc8ap+1023].
Proof.
  eexists. split; [vm_compute; reflexivity|].
  split; [vm_compute; reflexivity|].
  split; [reflexivity|]. split; [simpl; lia|].
  repeat constructor.
Qed.

End Binary64Facts.

(* ------------------------------------------------------------------ *)
(** ** The range of R² (C4) *)
(* ------------------------------------------------------------------ *)

(** C4: on a valid input on which [fit] does not signal DEGENERATE, the
    returned R² is at most 1 in exact arithmetic; it is the value
    [1 - ssRes/ssTot] (or 0 when [ssTot] is not positive) as computed, with
    no clamp applied, so that a negative value is returned as it is, which
    happens in binary64; and the result is a function of the input. *)
Theorem r2_at_most_one_unclamped (x y : list R) (r : R) :
  valid_input x y ->
  Selectable.fit x y = Some r ->
  r <= 1
  /\ Selectable.fit x y = fit_sums x y
  /\ (forall x' y', x' = x -> y' = y -> Selectable.fit x' y' = Some r)
  /\ (exists x64 y64 r64,
        valid_input64 x64 y64
        /\ Binary64.fit x64 y64 = Some r64
        /\ PrimFloat.ltb r64 PrimFloat.zero = true).
Proof.
  intros V H. split; [apply (fit_bounds x y r H)|].
  split; [apply fit_fit_sums|].
  split; [intros x' y' -> ->; exact H|].
  destruct Binary64Facts.negative_r2_binary64 as (r64 & E & Ne & V64).
  eexists _, _, r64. split; [exact V64|]. split; [exact E|exact Ne].
Qed.

Lemma r2_at_most_one_unclamped_witness :
  valid_input [1; 2] [1; 1 / 4]
  /\ Selectable.fit [1; 2] [1; 1 / 4] = Some 1
  /\ 1 <= 1.
Proof.
  assert (valid_input [1; 2] [1; 1 / 4]) as V.
  { split; [reflexivity|]. split; [simpl; lia|]. repeat constructor; lra. }
  split; [exact V|]. split; [exact fit_1_2|].
  exact (proj1 (r2_at_most_one_unclamped [1; 2] [1; 1 / 4] 1 V fit_1_2)).
Defined.

(* ------------------------------------------------------------------ *)
(** ** Unknown transforms (C5) *)
(* ------------------------------------------------------------------ *)

Lemma collect_1_2 :
  Selectable.collect parseFloat_example (rows_of (reals [1; 2]) (reals [1; 1 / 4]))
  = Some (reals [1; 2], reals [1; 1 / 4]).
Proof.
  apply collect_rows_of.
  - exact parseFloat_example_numbers.
  - reflexivity.
  - repeat constructor; lra.
Qed.

(** The request of the examples: the rows [[1, 1], [2, 0.25]] and a key. *)
Lemma carries_example (k : json jsnumber) :
  carries
    (post (JObj [("rows"%string, JArr (rows_of (reals [1; 2]) (reals [1; 1 / 4])));
                 ("transformKey"%string, k)]))
    (rows_of (reals [1; 2]) (reals [1; 1 / 4])) (Some k).
Proof. split; [reflexivity|]. eexists. repeat split. Qed.

(** The selectable handler on the rows [[1, 1], [2, 0.25]] and a key that
    resolves to a function. *)
Lemma selectable_example (k : string) :
  negb (String.eqb k "") = true ->
  Selectable.is_function (Selectable.lookup (N := jsnumber) k) = true ->
  Selectable.onRequestPost parseFloat_example toKey_example
    (post (JObj [("rows"%string, JArr (rows_of (reals [1; 2]) (reals [1; 1 / 4])));
                 ("transformKey"%string, JStr k)]))
  = ([CallFit (reals [1; 2]) (reals [1; 1 / 4]); CallForward (Num 1)],
     Respond
       (jsonResponse
          (post (JObj [("rows"%string,
                        JArr (rows_of (reals [1; 2]) (reals [1; 1 / 4])));
                       ("transformKey"%string, JStr k)]))
          (match Selectable.call (Selectable.lookup k) (Num 1) with
           | None => 422%nat
           | Some _ => 200%nat
           end)
          (match Selectable.call (Selectable.lookup k) (Num 1) with
           | None => ErrorBody "Transform failed"
           | Some m => MainResultBody (round_result m)
           end))).
Proof.
  intros T F.
  rewrite (selectable_run parseFloat_example toKey_example _ _ (JStr k)
             (reals [1; 2]) (reals [1; 1 / 4]) (carries_example (JStr k)) T
             collect_1_2 ltac:(simpl; lia)).
  cbv zeta. cbn [Selectable.ToPropertyKey]. rewrite F, fit_1_2_reals. cbn [negb].
  destruct (Selectable.call _ _); reflexivity.
Qed.

(** C5, as stated, fails at two keys, each with the two valid rows
    [[1, 1], [2, 0.25]] and neither one of the fifteen names.  For the
    empty key the answer is the 400 of a missing key, not the one of an
    unknown transform.  For the key [constructor] the lookup finds the
    function inherited from [Object.prototype]: [fit] is called and the
    answer is a 200.  And with a [null] after the two valid rows the
    unknown key [bogus] is not answered at all: reading the [null] row
    throws before the key is looked up. *)
Lemma keys_outside_table_not_rejected :
  ~ In ""%string (map fst (Selectable.TRANSFORMS (N := jsnumber)))
  /\ ~ In "constructor"%string (map fst (Selectable.TRANSFORMS (N := jsnumber)))
  /\ Selectable.collect parseFloat_example
       (rows_of (reals [1; 2]) (reals [1; 1 / 4]))
     = Some (reals [1; 2], reals [1; 1 / 4])
  /\ snd (Selectable.onRequestPost parseFloat_example toKey_example
            (post (JObj [("rows"%string,
                          JArr (rows_of (reals [1; 2]) (reals [1; 1 / 4])));
                         ("transformKey"%string, JStr "")])))
     <> Respond (jsonResponse
                   (post (JObj [("rows"%string,
                                 JArr (rows_of (reals [1; 2]) (reals [1; 1 / 4])));
                                ("transformKey"%string, JStr "")]))
                   400 (ErrorBody "Unknown transform"))
  /\ Selectable.onRequestPost parseFloat_example toKey_example
       (post (JObj [("rows"%string,
                     JArr (rows_of (reals [1; 2]) (reals [1; 1 / 4])));
                    ("transformKey"%string, JStr "constructor")]))
     = ([CallFit (reals [1; 2]) (reals [1; 1 / 4]); CallForward (Num 1)],
        Respond (jsonResponse
                   (post (JObj [("rows"%string,
                                 JArr (rows_of (reals [1; 2]) (reals [1; 1 / 4])));
                                ("transformKey"%string, JStr "constructor")]))
                   200 (MainResultBody (VNumberObject (Num 1)))))
  /\ ~ In "bogus"%string (map fst (Selectable.TRANSFORMS (N := jsnumber)))
  /\ Selectable.onRequestPost parseFloat_example toKey_example
       (post (JObj [("rows"%string,
                     JArr (rows_of (reals [1; 2]) (reals [1; 1 / 4]) ++ [JNull]));
                    ("transformKey"%string, JStr "bogus")]))
     = ([], Uncaught).
Proof.
  split.
  { simpl. intros H. repeat destruct H as [H|H]; try discriminate H. exact H. }
  split.
  { simpl. intros H. repeat destruct H as [H|H]; try discriminate H. exact H. }
  split; [exact collect_1_2|].
  split.
  { rewrite (selectable_missing_key parseFloat_example toKey_example _ _ _
               (carries_example (JStr "")) eq_refl).
    cbn [snd]. intros H. injection H as H. discriminate H. }
  split; [exact (selectable_example "constructor" eq_refl eq_refl)|].
  split.
  { simpl. intros H. repeat destruct H as [H|H]; try discriminate H. exact H. }
  apply (selectable_throws parseFloat_example toKey_example _
           (rows_of (reals [1; 2]) (reals [1; 1 / 4]) ++ [JNull]) (JStr "bogus")).
  - split; [reflexivity|]. eexists. repeat split.
  - reflexivity.
  - apply collect_None, Exists_app. right. constructor. left. reflexivity.
Qed.

(** C5, amended: in the selectable variant, in every arithmetic, for a
    body whose rows can all be read (reading none of them throws), at
    least two of which are valid: a falsy or absent [transformKey] is
    answered 400 'Missing rows or transformKey'; and a truthy one whose
    property name (the key itself when it is a string, its conversion
    otherwise, when the conversion does not throw) is neither one of the
    fifteen names nor the name of a function inherited from
    [Object.prototype] is answered 400 'Unknown transform'.  In both cases
    [fit] is not called and no transform is applied. *)
Theorem unknown_transform_rejected
  (N : Type) (A : Arith N)
  (parseFloat : option (json N) -> option N) (toKey : json N -> option string)
  (request : Request N) (rows : list (json N)) (key : option (json N)) :
  carries request rows key ->
  ~ Exists (throws parseFloat) rows ->
  (2 <= List.length (survivors parseFloat rows))%nat ->
  (truthy key = false ->
   Selectable.onRequestPost parseFloat toKey request
   = ([], Respond (jsonResponse request 400
                     (ErrorBody "Missing rows or transformKey"))))
  /\ (forall k name,
        key = Some k ->
        truthy key = true ->
        Selectable.ToPropertyKey toKey k = Some name ->
        ~ In name (map fst (Selectable.TRANSFORMS (N := N))) ->
        ~ In name prototype_functions ->
        Selectable.onRequestPost parseFloat toKey request
        = ([], Respond (jsonResponse request 400 (ErrorBody "Unknown transform")))).
Proof.
  intros C T L. split.
  - intros F. apply (selectable_missing_key parseFloat toKey request rows key C F).
  - intros k name -> F K Hown Hinh.
    rewrite (selectable_run parseFloat toKey request rows k _ _ C F
               (collect_survivors parseFloat rows T))
      by (rewrite length_map; exact L).
    rewrite K. cbv zeta. rewrite (lookup_unknown name Hown Hinh). reflexivity.
Qed.

Lemma unknown_transform_rejected_witness :
  Selectable.onRequestPost parseFloat_example toKey_example
    (post (JObj [("rows"%string, JArr (rows_of (reals [1; 2]) (reals [1; 1 / 4])));
                 ("transformKey"%string, JStr "bogus")]))
  = ([], Respond (jsonResponse
                    (post (JObj [("rows"%string,
                                  JArr (rows_of (reals [1; 2]) (reals [1; 1 / 4])));
                                 ("transformKey"%string, JStr "bogus")]))
                    400 (ErrorBody "Unknown transform"))).
Proof.
  apply (proj2 (unknown_transform_rejected jsnumber ExtendedArith
                  parseFloat_example toKey_example _
                  (rows_of (reals [1; 2]) (reals [1; 1 / 4]))
                  (Some (JStr "bogus"))
                  (carries_example (JStr "bogus"))
                  (throws_rows_of parseFloat_example parseFloat_example_numbers
                     [1; 2] [1; 1 / 4])
                  ltac:(rewrite (survivors_rows_of parseFloat_example
                                   parseFloat_example_numbers);
                        cbn [combine filter fst];
                        repeat (destruct (Rlt_dec _ _); [|exfalso; lra]);
                        simpl; lia))
           (JStr "bogus") "bogus"%string eq_refl eq_refl eq_refl).
  - simpl. intros H. repeat destruct H as [H|H]; try discriminate H. exact H.
  - simpl. intros H. repeat destruct H as [H|H]; try discriminate H. exact H.
Defined.

(* ------------------------------------------------------------------ *)
(** ** Row filtering (C6) *)
(* ------------------------------------------------------------------ *)



(** The example of the specification: rows that are all invalid. *)
Lemma only_invalid_rows :
  snd (Selectable.onRequestPost (N := jsnumber) parseFloat_example toKey_example
         (post (JObj [("rows"%string,
                       JArr [JArr [JStr "abc"; JNum (Num 5)];
                             JArr [JNum (Num (-1)); JNum (Num 5)]]);
                      ("transformKey"%string, JStr "R²²")])))
  = Respond (jsonResponse
               (post (JObj [("rows"%string,
                             JArr [JArr [JStr "abc"; JNum (Num 5)];
                                   JArr [JNum (Num (-1)); JNum (Num 5)]]);
                            ("transformKey"%string, JStr "R²²")]))
               400 (ErrorBody "Need at least 2 valid points")).
Proof.
  rewrite (selectable_few parseFloat_example toKey_example _
             [JArr [JStr "abc"; JNum (Num 5)]; JArr [JNum (Num (-1)); JNum (Num 5)]]
             (JStr "R²²") [] []).
  - reflexivity.
  - split; [reflexivity|]. eexists. repeat split.
  - reflexivity.
  - unfold Selectable.collect. simpl.
    destruct (Rlt_dec 0 (-1)); [lra|reflexivity].
  - simpl. lia.
Qed.




(* ------------------------------------------------------------------ *)
(** ** Rounding of the result (C8) *)
(* ------------------------------------------------------------------ *)

Module Binary64Handlers.

Import Floats.
Local Open Scope float_scope.

(** The request of [Binary64Examples] with the key ['R²²']: [fit] returns
    [NaN], the square of [Math.max(0, NaN)] is [NaN], which is a number
    but not a finite one, and the 200 carries it as it is, whatever the
    host. *)
Lemma nan_passed_binary64 (h : Binary64.Host) :
  Selectable.onRequestPost (A := Binary64.arith h)
    (parseFloat_example (A := Binary64.arith h)) toKey_example
    (Binary64Examples.overflow_request "R²²")
  = ([CallFit [1; 2] [0x1.1ccf385ebc8ap+1023; -0x1.1ccf385ebc8ap+1023];
      CallForward nan],
     Respond (jsonResponse (Binary64Examples.overflow_request "R²²") 200
                (MainResultBody (VNumber nan)))).
Proof. vm_compute. reflexivity. Qed.

(** The same rows sent to the fixed handler: the clamps hand [NaN] on to
    [Math.log], and with a host whose logarithm answers [NaN] on [NaN], as
    ECMA-262 requires, the 200 carries [NaN], unrounded. *)
Theorem fixed_nan_passed_binary64 (h : Binary64.Host) :
  Binary64.host_log h nan = nan ->
  Fixed.onRequestPost (A := Binary64.arith h)
    (parseFloat_example (A := Binary64.arith h))
    Binary64Examples.overflow_request_fixed
  = ([CallFit [1; 2] [0x1.1ccf385ebc8ap+1023; -0x1.1ccf385ebc8ap+1023];
      CallForward nan],
     Respond (jsonResponse Binary64Examples.overflow_request_fixed 200
                (MainResultBody (VNumber nan)))).
Proof.
  intros H. vm_compute in H. vm_compute. rewrite H. vm_compute. reflexivity.
Qed.

Lemma fixed_nan_passed_binary64_witness :
  snd (Fixed.onRequestPost (A := Binary64.arith Binary64Examples.nan_host)
         (parseFloat_example (A := Binary64.arith Binary64Examples.nan_host))
         Binary64Examples.overflow_request_fixed)
  = Respond (jsonResponse Binary64Examples.overflow_request_fixed 200
               (MainResultBody (VNumber nan))).
Proof.
  rewrite (fixed_nan_passed_binary64 Binary64Examples.nan_host eq_refl).
  reflexivity.
Defined.

End Binary64Handlers.

(** C8: in every arithmetic, every 200 of either handler carries as
    [mainResult] the output of the transform (the property named by the
    request's key, or the fixed transform) on the value of [fit] on the
    points read from the request, rounded by [toFixed(6)] when that output
    is a number for which [isFinite] holds, and unchanged otherwise.  In
    exact arithmetic the rounded value of a real below [1e21] in magnitude
    is a multiple of [1e-6] within [5e-7] of it, and [isFinite] holds of
    the reals and of no other number: [NaN] and the two infinities pass
    unchanged.  The other case occurs: in binary64 a request is answered
    with [NaN], unrounded. *)
Theorem mainResult_rounded
  (N : Type) (A : Arith N)
  (parseFloat : option (json N) -> option N) (toKey : json N -> option string)
  (request : Request N) (resp : Response N) :
  status resp = 200%nat ->
  (snd (Selectable.onRequestPost parseFloat toKey request) = Respond resp ->
   exists b rows key name x y r2 m v,
     parsed request = Some b
     /\ prop "rows" b = Some (JArr rows)
     /\ prop "transformKey" b = Some key
     /\ Selectable.collect parseFloat rows = Some (x, y)
     /\ Selectable.ToPropertyKey toKey key = Some name
     /\ Selectable.fit x y = Some r2
     /\ Selectable.call (Selectable.lookup name) r2 = Some m
     /\ body resp = MainResultBody v
     /\ rounded_or_passed m v)
  /\ (snd (Fixed.onRequestPost parseFloat request) = Respond resp ->
      exists b rows x y r2 v,
        parsed request = Some b
        /\ prop "rows" b = Some (JArr rows)
        /\ Fixed.collect parseFloat rows = Some (x, y)
        /\ Fixed.fit x y = Some r2
        /\ body resp = MainResultBody v
        /\ rounded_or_passed (VNumber (Fixed.transform r2)) v)
  /\ (forall m : R,
        Number_toFixed6 (Num m) = Num (toFixed6 m)
        /\ (Rabs m < 1e21 ->
            (exists z : Z, toFixed6 m = IZR z / 1e6)
            /\ - 5e-7 <= toFixed6 m - m <= 5e-7))
  /\ (forall n : jsnumber,
        (isFinite n = true <-> exists m : R, n = Num m)
        /\ round_result (VNumber n)
           = VNumber match n with
                     | Num m => Num (toFixed6 m)
                     | _ => n
                     end)
  /\ (forall h : Binary64.Host,
        snd (Selectable.onRequestPost (A := Binary64.arith h)
               (parseFloat_example (A := Binary64.arith h)) toKey_example
               (Binary64Examples.overflow_request "R²²"))
        = Respond (jsonResponse (Binary64Examples.overflow_request "R²²") 200
                     (MainResultBody (VNumber PrimFloat.nan)))
        /\ isFinite (Arith := Binary64.arith h) PrimFloat.nan = false).
Proof.
  intros S. split; [|split; [|split; [|split]]].
  - intros H.
    destruct (selectable_ok parseFloat toKey request resp H S)
      as (b & rows & key & name & x & y & r2 & m & P & Rw & K & C & T & F & M & B).
    exists b, rows, key, name, x, y, r2, m, (round_result m).
    repeat split; try assumption. apply round_result_spec.
  - intros H.
    destruct (fixed_ok parseFloat request resp H S)
      as (b & rows & x & y & r2 & P & Rw & C & F & B).
    exists b, rows, x, y, r2, (round_result (VNumber (Fixed.transform r2))).
    repeat split; try assumption. apply round_result_spec.
  - intros m. split; [reflexivity|].
    intros H. split; [apply toFixed6_grid|apply toFixed6_near]; exact H.
  - intros [| | |m]; (split; [split|reflexivity]);
      try discriminate; try (intros (m' & E); discriminate).
    + intros _. exists m. reflexivity.
    + reflexivity.
  - intros h. split; [|reflexivity].
    rewrite Binary64Handlers.nan_passed_binary64. reflexivity.
Qed.

Lemma mainResult_rounded_witness :
  exists v,
    v = VNumber (Num (toFixed6 (Selectable.square 1)))
    /\ exists x y r2 name m,
         Selectable.fit x y = Some r2
         /\ Selectable.call (Selectable.lookup name) r2 = Some m
         /\ rounded_or_passed m v.
Proof.
  pose proof (f_equal snd (selectable_example "R²²" eq_refl eq_refl)) as E.
  cbn [snd Selectable.call Selectable.lookup Selectable.own Selectable.TRANSFORMS
       String.eqb Ascii.eqb Bool.eqb] in E.
  destruct (proj1 (mainResult_rounded jsnumber ExtendedArith
                     parseFloat_example toKey_example _ _
                     (eq_refl : status (jsonResponse _ 200 _) = 200%nat)) E)
    as (b & rows & key & name & x & y & r2 & m & v & _ & _ & _ & _ & _ & F & C & B & Rd).
  cbn [body jsonResponse] in B. injection B as <-.
  eexists. split; [reflexivity|].
  exists x, y, r2, name, m. repeat split; assumption.
Defined.

(* ------------------------------------------------------------------ *)
(** ** Reachability of the defensive branches (C10) *)
(* ------------------------------------------------------------------ *)

(** In exact arithmetic a closure of the table never throws and returns a
    nonnegative real. *)
Lemma closures_total (t : string) (f : R -> R) (r2 : R) :
  In (t, f) Selectable.TRANSFORMS ->
  Selectable.call (Selectable.lookup t) r2 = Some (VNumber (f r2))
  /\ 0 <= f r2.
Proof.
  intros H. rewrite (lookup_own t f H). split; [reflexivity|].
  apply (transforms_nonneg t f r2 H).
Qed.
(** Four points, two at [x = 1] and two at [x = 2], spread by [9/256]
    around 1 and -1: the fit is good but not perfect. *)
Lemma fit_spread :
  Selectable.fit [1; 1; 2; 2]
    [1 + 9 / 256; 1 - 9 / 256; -1 + 9 / 256; -1 - 9 / 256]
  = Some (65536 / 65617).
Proof.
  rewrite fit_fit_sums. unfold fit_sums, u_of. simpl.
  match goal with
  | |- context [Rlt_dec (Rabs ?d) ?e] =>
      assert (d = 9 / 4) as -> by lra;
      destruct (Rlt_dec (Rabs (9 / 4)) e) as [H|_];
        [rewrite Rabs_right in H by lra; lra|]
  end.
  f_equal.
  match goal with
  | |- context [Rlt_dec 0 ?t] =>
      destruct (Rlt_dec 0 t) as [_|H]; [|exfalso; apply H; lra]
  end.
  lra.
Qed.

(** On that value the transform [exp(1/(1-R²))] is [exp (65617/81)],
    beyond the largest binary64 number: [Math.exp] returns [Infinity]
    there. *)
Lemma exp_reciprocal_complement_overflow :
  MAX_VALUE < Selectable.exp_reciprocal_complement (65536 / 65617).
Proof.
  unfold Selectable.exp_reciprocal_complement, MAX_VALUE; exact_arith.
  destruct (Rge_dec (65536 / 65617) 0.999) as [N|_]; [lra|].
  rewrite (Rmin_right 0.999 (65536 / 65617)), (Rmax_right 0 (65536 / 65617)) by lra.
  apply Rlt_le_trans with ((5 / 2) ^ 810); [lra|].
  apply exp_ge_pow. rewrite INR_IZR_INZ. simpl. lra.
Qed.


(** C10, at its failing inputs.  With the rows [[1, 1], [2, 0.25]], on
    which [fit] succeeds, the key [valueOf] resolves to the function
    inherited from [Object.prototype], whose call throws, and the handler
    answers 422 'Transform failed'; the keys [toString] and [constructor]
    resolve to inherited functions whose results are not numbers and pass
    the rounding step unchanged, the second being R² itself.  And on the
    four points of [fit_spread] the transform [exp(1/(1-R²))] of the table
    exceeds the largest binary64 number. *)
Theorem defensive_branches_reached :
  Selectable.fit [1; 2] [1; 1 / 4] = Some 1
  /\ snd (Selectable.onRequestPost parseFloat_example toKey_example
            (post (JObj [("rows"%string,
                          JArr (rows_of (reals [1; 2]) (reals [1; 1 / 4])));
                         ("transformKey"%string, JStr "valueOf")])))
     = Respond (jsonResponse
                  (post (JObj [("rows"%string,
                                JArr (rows_of (reals [1; 2]) (reals [1; 1 / 4])));
                               ("transformKey"%string, JStr "valueOf")]))
                  422 (ErrorBody "Transform failed"))
  /\ snd (Selectable.onRequestPost parseFloat_example toKey_example
            (post (JObj [("rows"%string,
                          JArr (rows_of (reals [1; 2]) (reals [1; 1 / 4])));
                         ("transformKey"%string, JStr "toString")])))
     = Respond (jsonResponse
                  (post (JObj [("rows"%string,
                                JArr (rows_of (reals [1; 2]) (reals [1; 1 / 4])));
                               ("transformKey"%string, JStr "toString")]))
                  200 (MainResultBody (VString "[object Undefined]")))
  /\ snd (Selectable.onRequestPost parseFloat_example toKey_example
            (post (JObj [("rows"%string,
                          JArr (rows_of (reals [1; 2]) (reals [1; 1 / 4])));
                         ("transformKey"%string, JStr "constructor")])))
     = Respond (jsonResponse
                  (post (JObj [("rows"%string,
                                JArr (rows_of (reals [1; 2]) (reals [1; 1 / 4])));
                               ("transformKey"%string, JStr "constructor")]))
                  200 (MainResultBody (VNumberObject (Num 1))))
  /\ Selectable.fit [1; 1; 2; 2]
       [1 + 9 / 256; 1 - 9 / 256; -1 + 9 / 256; -1 - 9 / 256]
     = Some (65536 / 65617)
  /\ MAX_VALUE < Selectable.exp_reciprocal_complement (65536 / 65617).
Proof.
  split; [exact fit_1_2|].
  split; [exact (f_equal snd (selectable_example "valueOf" eq_refl eq_refl))|].
  split; [exact (f_equal snd (selectable_example "toString" eq_refl eq_refl))|].
  split; [exact (f_equal snd (selectable_example "constructor" eq_refl eq_refl))|].
  split; [exact fit_spread|exact exp_reciprocal_complement_overflow].
Qed.

(** With a key of the table the call cannot throw, in any arithmetic: the
    422 'Transform failed' then does not occur, and the result is a
    number. *)
Lemma table_key_never_fails (N : Type) (A : Arith N)
  (parseFloat : option (json N) -> option N) (toKey : json N -> option string)
  (request : Request N) (rows : list (json N)) (t : string) (f : N -> N)
  (x y : list N) :
  carries request rows (Some (JStr t)) ->
  Selectable.collect parseFloat rows = Some (x, y) ->
  (2 <= List.length x)%nat ->
  In (t, f) Selectable.TRANSFORMS ->
  Selectable.onRequestPost parseFloat toKey request
  = match Selectable.fit x y with
    | None =>
        ([CallFit x y], Respond (jsonResponse request 422 (ErrorBody "Fit failed")))
    | Some r2 =>
        ([CallFit x y; CallForward r2],
         Respond (jsonResponse request 200
                    (MainResultBody (round_result (VNumber (f r2))))))
    end.
Proof.
  intros C K L I.
  assert (truthy (Some (JStr t)) = true) as T.
  { revert I. unfold Selectable.TRANSFORMS. intros I.
    repeat (destruct I as [I|I]; [injection I as <- _; reflexivity|]).
    contradiction. }
  rewrite (selectable_run parseFloat toKey request rows (JStr t) x y C T K L).
  cbv zeta. cbn [Selectable.ToPropertyKey].
  rewrite (lookup_own t f I). cbn [Selectable.is_function negb Selectable.call].
  destruct (Selectable.fit x y); reflexivity.
Qed.
(* ------------------------------------------------------------------ *)
(** ** Further properties of [fit] *)
(* ------------------------------------------------------------------ *)

Lemma Sigma_zero_inv (n : nat) (g : nat -> R) :
  (forall i, 0 <= g i) -> Sigma n g = 0 -> forall i, (i < n)%nat -> g i = 0.
Proof.
  intros P. induction n as [|n IH]; intros H i Hi; [lia|].
  cbn [Sigma] in H.
  pose proof (Sigma_nonneg n g P) as S. pose proof (P n) as Pn.
  destruct (Nat.eq_dec i n) as [->|N]; [lra|].
  apply IH; [lra|lia].
Qed.

Lemma Sigma_scal (n : nat) (c : R) (g : nat -> R) :
  Sigma n (fun i => c * g i) = c * Sigma n g.
Proof.
  induction n as [|n IH]; simpl; [ring|rewrite IH; ring].
Qed.

Lemma Sigma_lin (n : nat) (u y : nat -> R) (c d : R) :
  Sigma n (fun i => u i * (c * y i + d))
  = c * Sigma n (fun i => u i * y i) + d * Sigma n u.
Proof.
  induction n as [|n IH]; simpl; [ring|rewrite IH; ring].
Qed.

(** A vanishing determinant forces all values to be equal. *)
Lemma det_zero_equal (n : nat) (f : nat -> R) :
  INR n * Sigma n (fun i => f i * f i) - Sigma n f * Sigma n f = 0 ->
  forall i j, (i < n)%nat -> (j < n)%nat -> f i = f j.
Proof.
  induction n as [|n IH]; intros H i j Hi Hj; [lia|].
  cbn [Sigma] in H. rewrite S_INR in H.
  pose proof (det_nonneg n f) as D.
  pose proof (Sigma_shift_sq n f (f n)) as E.
  assert (0 <= Sigma n (fun k => (f k - f n) ^ 2)) as P
    by (apply Sigma_nonneg; intros k; apply pow2_ge_0).
  assert (Sigma n (fun k => (f k - f n) ^ 2) = 0) as Z by nra.
  assert (INR n * Sigma n (fun k => f k * f k) - Sigma n f * Sigma n f = 0) as D0
    by nra.
  assert (forall k, (k < n)%nat -> f k = f n) as L.
  { intros k Hk.
    pose proof (Sigma_zero_inv n _ (fun k => pow2_ge_0 (f k - f n)) Z k Hk) as Q.
    cbv beta in Q. nra. }
  destruct (Nat.eq_dec i n) as [->|Ni], (Nat.eq_dec j n) as [->|Nj].
  - reflexivity.
  - symmetry. apply L. lia.
  - apply L. lia.
  - apply (IH D0); lia.
Qed.

Lemma inv_sq_inj (a b : R) : 0 < a -> 0 < b -> 1 / (a * a) = 1 / (b * b) -> a = b.
Proof.
  intros Ha Hb H.
  assert (a * a = b * b) as E.
  { apply Rinv_eq_reg. unfold Rdiv in H. rewrite !Rmult_1_l in H. exact H. }
  nra.
Qed.

(** In exact arithmetic the normal equations of positive abscissae are
    singular exactly when all abscissae are equal (in particular for fewer
    than two points), and the determinant is positive otherwise. *)
Theorem singular_iff_equal_abscissae (x : list R) :
  Forall (fun xi => 0 < xi) x ->
  (det_of x = 0 <-> exists c, Forall (fun xi => xi = c) x)
  /\ ((~ exists c, Forall (fun xi => xi = c) x) -> 0 < det_of x).
Proof.
  intros F.
  assert (det_of x = 0 -> exists c, Forall (fun xi => xi = c) x) as A.
  { intros H. exists (nth 0 x 0). apply Forall_forall. intros xi Hin.
    destruct (In_nth x xi 0 Hin) as (i & Hi & <-).
    unfold det_of in H. cbv zeta in H.
    assert (0 < List.length x)%nat as H0 by lia.
    pose proof (det_zero_equal _ (u_of x) H i 0%nat Hi H0) as U.
    rewrite Forall_forall in F.
    apply inv_sq_inj; [apply F, nth_In; exact Hi|apply F, nth_In; exact H0|exact U]. }
  split; [split; [exact A|]|].
  - intros [c H]. apply (det_of_constant x c H).
  - intros N. pose proof (det_of_nonneg x) as P.
    destruct P as [P|P]; [exact P|]. exfalso. apply N, A. symmetry. exact P.
Qed.

Lemma singular_iff_equal_abscissae_witness :
  Forall (fun xi => 0 < xi) [3] /\ Selectable.fit [3] [7] = None.
Proof.
  assert (Forall (fun xi => 0 < xi) [3]) as F by (repeat constructor; lra).
  split; [exact F|].
  apply fit_None_iff.
  rewrite (proj2 (proj1 (singular_iff_equal_abscissae [3] F))).
  - rewrite Rabs_R0. lra.
  - exists 3. repeat constructor.
Defined.

(** [fit] returns exactly 1 precisely on the non-degenerate inputs whose
    points all lie on one curve [y = b0/x² + a0] with [b0] nonzero. *)
Theorem fit_one_iff_on_curve (x y : list R) :
  List.length y = List.length x ->
  (Selectable.fit x y = Some 1
   <-> ~ Rabs (det_of x) < 1e-20
       /\ exists a0 b0, b0 <> 0 /\ on_curve a0 b0 x y).
Proof.
  intros L. split.
  - intros H.
    assert (~ Rabs (det_of x) < 1e-20) as D.
    { intros N. apply fit_None_iff with (y := y) in N. congruence. }
    split; [exact D|].
    pose proof (fit_nil_length _ _ _ H) as Hn.
    rewrite fit_fit_sums in H. unfold fit_sums in H. cbv zeta in H.
    unfold det_of in D. cbv zeta in D.
    set (n := List.length x) in *.
    destruct (Rlt_dec _ _) as [N|_]; [contradiction|].
    apply (f_equal (fun o => match o with Some v => v | None => 0 end)) in H.
    cbv beta iota in H.
    set (Su := Sigma n (u_of x)) in *.
    set (Su2 := Sigma n (fun i => u_of x i * u_of x i)) in *.
    set (Sy := Sigma n (fun i => nth i y 0)) in *.
    set (Suy := Sigma n (fun i => u_of x i * nth i y 0)) in *.
    set (a := (Sy * Su2 - Su * Suy) / (INR n * Su2 - Su * Su)) in *.
    set (b := (INR n * Suy - Su * Sy) / (INR n * Su2 - Su * Su)) in *.
    destruct (Rlt_dec 0 _) as [T|T]; [|lra].
    set (ssTot := Sigma n (fun i => (nth i y 0 - Sy / INR n) ^ 2)) in *.
    set (ssRes := Sigma n (fun i => (nth i y 0 - (b * u_of x i + a)) ^ 2)) in *.
    assert (ssRes = 0) as Z.
    { assert (ssRes / ssTot = 0) as Q by lra.
      unfold Rdiv in Q. apply Rmult_integral in Q. destruct Q as [Q|Q]; [exact Q|].
      exfalso. apply (Rinv_neq_0_compat ssTot); lra. }
    assert (forall i, (i < n)%nat -> nth i y 0 = b * u_of x i + a) as Y.
    { intros i Hi.
      pose proof (Sigma_zero_inv n _
                    (fun i => pow2_ge_0 (nth i y 0 - (b * u_of x i + a))) Z i Hi) as Q.
      cbv beta in Q. nra. }
    exists a, b. split.
    + intros B. rewrite B in Y.
      assert (ssTot = 0); [|lra].
      unfold ssTot, Sy. apply Sigma_zero. intros i Hi.
      rewrite (Sigma_ext n (fun i => nth i y 0) (fun _ => a))
        by (intros k Hk; rewrite (Y k Hk); ring).
      rewrite Sigma_const, (Y i Hi).
      assert (INR n <> 0) by (apply not_0_INR; lia).
      field. assumption.
    + split; [exact L|]. intros i Hi. rewrite (Y i Hi). unfold u_of, Rdiv. ring.
  - intros (D & a0 & b0 & B & O).
    rewrite (fit_on_curve a0 b0 x y O D).
    destruct (Req_dec_T b0 0); [contradiction|reflexivity].
Qed.

Lemma fit_one_iff_on_curve_witness :
  List.length [1; 1 / 4] = List.length [1; 2]
  /\ exists a0 b0, b0 <> 0 /\ on_curve a0 b0 [1; 2] [1; 1 / 4].
Proof.
  split; [reflexivity|].
  apply (proj1 (fit_one_iff_on_curve [1; 2] [1; 1 / 4] eq_refl)).
  exact fit_1_2.
Defined.

(** R² does not change when the ordinates are rescaled and shifted:
    [fit(x, c y + d) = fit(x, y)] for nonzero [c]. *)
Theorem fit_affine_invariant (x y : list R) (c d : R) :
  c <> 0 ->
  List.length y = List.length x ->
  Selectable.fit x (map (fun v => c * v + d) y) = Selectable.fit x y.
Proof.
  intros C L. rewrite !fit_fit_sums. unfold fit_sums. cbv zeta.
  set (n := List.length x).
  assert (forall i, (i < n)%nat ->
                    nth i (map (fun v => c * v + d) y) 0 = c * nth i y 0 + d) as Y.
  { intros i Hi. apply (nth_map_lt (fun v => c * v + d)). unfold n in Hi. lia. }
  rewrite (Sigma_ext n (fun i => nth i (map (fun v => c * v + d) y) 0)
             (fun i => c * nth i y 0 + d)) by exact Y.
  rewrite (Sigma_ext n (fun i => u_of x i * nth i (map (fun v => c * v + d) y) 0)
             (fun i => u_of x i * (c * nth i y 0 + d)))
    by (intros i Hi; rewrite (Y i Hi); reflexivity).
  rewrite Sigma_line, Sigma_lin.
  set (Su := Sigma n (u_of x)). set (Su2 := Sigma n (fun i => u_of x i * u_of x i)).
  set (Sy := Sigma n (fun i => nth i y 0)).
  set (Suy := Sigma n (fun i => u_of x i * nth i y 0)).
  set (det := INR n * Su2 - Su * Su).
  destruct (Rlt_dec (Rabs det) 1e-20) as [D|D]; [reflexivity|].
  assert (det <> 0) as D0 by (intros E; apply D; rewrite E, Rabs_R0; lra).
  assert (INR n <> 0) as N0.
  { intros E. apply D0. unfold det, Su, Su2.
    destruct n; [simpl; ring|]. exfalso. revert E. apply not_0_INR. lia. }
  set (a := (Sy * Su2 - Su * Suy) / det). set (b := (INR n * Suy - Su * Sy) / det).
  assert (((c * Sy + INR n * d) * Su2 - Su * (c * Suy + d * Su)) / det = c * a + d)
    as -> by (unfold a, det; field; exact D0).
  assert ((INR n * (c * Suy + d * Su) - Su * (c * Sy + INR n * d)) / det = c * b)
    as -> by (unfold b, det; field; exact D0).
  rewrite (Sigma_ext n
             (fun i => (nth i (map (fun v => c * v + d) y) 0
                        - (c * b * u_of x i + (c * a + d))) ^ 2)
             (fun i => (c * c) * (nth i y 0 - (b * u_of x i + a)) ^ 2))
    by (intros i Hi; rewrite (Y i Hi); ring).
  rewrite (Sigma_ext n
             (fun i => (nth i (map (fun v => c * v + d) y) 0
                        - (c * Sy + INR n * d) / INR n) ^ 2)
             (fun i => (c * c) * (nth i y 0 - Sy / INR n) ^ 2))
    by (intros i Hi; rewrite (Y i Hi); field; exact N0).
  rewrite !Sigma_scal.
  set (ssRes := Sigma n (fun i => (nth i y 0 - (b * u_of x i + a)) ^ 2)).
  set (ssTot := Sigma n (fun i => (nth i y 0 - Sy / INR n) ^ 2)).
  assert (0 < c * c) as CC by nra.
  f_equal.
  destruct (Rlt_dec 0 ssTot) as [T|T], (Rlt_dec 0 (c * c * ssTot)) as [T'|T'].
  - field. split; lra.
  - exfalso. apply T'. apply Rmult_lt_0_compat; assumption.
  - exfalso. apply T. nra.
  - reflexivity.
Qed.

Lemma fit_affine_invariant_witness :
  Selectable.fit [1; 2] (map (fun v => 3 * v + 5) [1; 1 / 4]) = Some 1.
Proof.
  rewrite (fit_affine_invariant [1; 2] [1; 1 / 4] 3 5 ltac:(lra) eq_refl).
  exact fit_1_2.
Defined.


(** In exact arithmetic constant ordinates give [R² = 0] on every
    non-degenerate input, and the fixed transform and the rounding step
    then give 0.  (In binary64 the mean of equal ordinates can differ from
    them in the last place: see [Binary64Facts.constant_ordinates_rounded].) *)
Theorem fit_constant_ordinates (x y : list R) (a0 : R) :
  List.length y = List.length x ->
  Forall (fun yi => yi = a0) y ->
  ~ Rabs (det_of x) < 1e-20 ->
  Selectable.fit x y = Some 0
  /\ round_result (VNumber (Fixed.transform (Num 0))) = VNumber (Num 0).
Proof.
  intros L F D. split.
  - assert (on_curve a0 0 x y) as O.
    { split; [exact L|]. intros i Hi. rewrite Forall_forall in F.
      rewrite (F (nth i y 0)) by (apply nth_In; lia). unfold Rdiv. ring. }
    rewrite (fit_on_curve a0 0 x y O D).
    destruct (Req_dec_T 0 0); [reflexivity|contradiction].
  - rewrite transform_reals. cbn [round_result]. ext_arith.
    assert (Fixed.transform 0 = 0) as ->.
    { unfold Fixed.transform; exact_arith.
      rewrite (Rmin_right 0.9999 0), (Rmax_left 0 0), Rmax_right by lra.
      replace (1 - 0) with 1 by ring. rewrite ln_1. ring. }
    rewrite (toFixed6_value 0 0); [do 2 f_equal; lra|lra|lra].
Qed.

Lemma fit_constant_ordinates_witness : Selectable.fit [1; 2] [4; 4] = Some 0.
Proof.
  apply (fit_constant_ordinates [1; 2] [4; 4] 4 eq_refl).
  - repeat constructor.
  - rewrite det_of_1_2, Rabs_right; lra.
Defined.

(* ------------------------------------------------------------------ *)
(** ** Further properties of the row loop *)
(* ------------------------------------------------------------------ *)

Lemma valid_abscissae (N : Type) (A : Arith N) (l : list (N * N)) :
  Forall (fun p => valid p = true) l ->
  Forall (fun xi => (int 0 <? xi)%js = true /\ isNaN xi = false) (map fst l)
  /\ Forall (fun yi => isNaN yi = false) (map snd l).
Proof.
  induction 1 as [|p l Hp _ [IH1 IH2]]; [split; constructor|].
  cbn [map]. unfold valid in Hp.
  destruct (isNaN (fst p)) eqn:E1, (isNaN (snd p)) eqn:E2,
           (int 0 <? fst p)%js eqn:E3;
    try discriminate Hp.
  split; constructor; auto.
Qed.

(** The loop hands [fit] what it requires, in every arithmetic: whenever
    it ends, the two arrays have the same length, no number in them is
    [NaN], every abscissa is positive, and no more points were kept than
    there were rows; and both variants build the same arrays. *)
Theorem collect_invariant (N : Type) (A : Arith N)
  (parseFloat : option (json N) -> option N)
  (rows : list (json N)) (x y : list N) :
  Selectable.collect parseFloat rows = Some (x, y) ->
  List.length y = List.length x
  /\ Forall (fun xi => (int 0 <? xi)%js = true /\ isNaN xi = false) x
  /\ Forall (fun yi => isNaN yi = false) y
  /\ (List.length x <= List.length rows)%nat
  /\ Fixed.collect parseFloat rows = Some (x, y).
Proof.
  intros C. destruct (collect_Some parseFloat rows x y C) as (_ & -> & ->).
  pose proof (survivors_valid parseFloat rows) as V.
  pose proof (survivors_length parseFloat rows) as L.
  rewrite !length_map.
  destruct (valid_abscissae N A _ V) as [F1 F2].
  repeat split; assumption.
Qed.

Lemma collect_invariant_witness :
  List.length (reals [1; 1 / 4]) = List.length (reals [1; 2])
  /\ Forall (fun xi => (int 0 <? xi)%js = true /\ isNaN xi = false) (reals [1; 2]).
Proof.
  destruct (collect_invariant jsnumber ExtendedArith parseFloat_example _
              (reals [1; 2]) (reals [1; 1 / 4]) collect_1_2) as (L & F & _).
  split; assumption.
Defined.

(** The loop throws exactly when reading one of the rows throws: the row
    is [null], or [parseFloat] throws on one of its two entries.  The
    request then ends with an exception that no handler catches, in both
    variants, and [fit] is not called. *)
Theorem row_loop_throws (N : Type) (A : Arith N)
  (parseFloat : option (json N) -> option N) (toKey : json N -> option string)
  (rows : list (json N)) :
  (Selectable.collect parseFloat rows = None <-> Exists (throws parseFloat) rows)
  /\ (Fixed.collect parseFloat rows = None <-> Exists (throws parseFloat) rows)
  /\ (In JNull rows -> Exists (throws parseFloat) rows)
  /\ (Exists (throws parseFloat) rows ->
      forall request key,
        carries request rows (Some key) ->
        truthy (Some key) = true ->
        Selectable.onRequestPost parseFloat toKey request = ([], Uncaught))
  /\ (Exists (throws parseFloat) rows ->
      forall request key,
        carries request rows key ->
        Fixed.onRequestPost parseFloat request = ([], Uncaught)).
Proof.
  split; [apply collect_None|].
  split; [rewrite collect_same; apply collect_None|].
  split.
  { intros I. apply Exists_exists. exists JNull. split; [exact I|]. left. reflexivity. }
  split.
  - intros T request key C K.
    apply (selectable_throws parseFloat toKey request rows key C K).
    apply collect_None, T.
  - intros T request key C.
    apply (fixed_throws parseFloat request rows key C).
    rewrite collect_same. apply collect_None, T.
Qed.

(** Rows built from reals, in exact arithmetic: the loop keeps, in order,
    exactly the pairs whose abscissa is positive. *)
Theorem collect_keeps_positive
  (parseFloat : option (json jsnumber) -> option jsnumber) (x y : list R) :
  parses_numbers parseFloat ->
  Selectable.collect parseFloat (rows_of (reals x) (reals y))
  = Some (reals (map fst (filter (fun p => if Rlt_dec 0 (fst p) then true else false)
                            (combine x y))),
          reals (map snd (filter (fun p => if Rlt_dec 0 (fst p) then true else false)
                            (combine x y)))).
Proof.
  intros P.
  rewrite (collect_survivors parseFloat _ (throws_rows_of parseFloat P x y)).
  rewrite (survivors_rows_of parseFloat P). unfold reals.
  rewrite !map_map. reflexivity.
Qed.

Lemma collect_keeps_positive_witness :
  Selectable.collect parseFloat_example
    (rows_of (reals [1; -1; 2]) (reals [5; 6; 7]))
  = Some (reals [1; 2], reals [5; 7]).
Proof.
  rewrite (collect_keeps_positive parseFloat_example [1; -1; 2] [5; 6; 7]
             parseFloat_example_numbers).
  cbn [combine filter fst].
  destruct (Rlt_dec 0 1); [|exfalso; lra].
  destruct (Rlt_dec 0 (-1)); [exfalso; lra|].
  destruct (Rlt_dec 0 2); [|exfalso; lra].
  reflexivity.
Defined.

(* ------------------------------------------------------------------ *)
(** ** Further properties of the handlers *)
(* ------------------------------------------------------------------ *)

(** A branch that ends in a 400. *)
Ltac answer400 H :=
  cbn [snd fst] in H |- *; injection H as <-; right; left; cbn;
  repeat split; eexists; split; [reflexivity|simpl; tauto].

(** What an answer of the selectable handler can be, in every arithmetic:
    a 204 without body, a 400 with one of four messages and without any
    call of [fit], a 422 'Fit failed' after [fit] returned [null], a 422
    'Transform failed' after [fit] succeeded, or a 200 with a [mainResult]
    after [fit] succeeded.  An error payload never comes with a 200, and
    the only statuses are 200, 204, 400 and 422. *)
Theorem selectable_outcomes (N : Type) (A : Arith N)
  (parseFloat : option (json N) -> option N) (toKey : json N -> option string)
  (request : Request N) (resp : Response N) :
  snd (Selectable.onRequestPost parseFloat toKey request) = Respond resp ->
  let trace := fst (Selectable.onRequestPost parseFloat toKey request) in
  (status resp = 204%nat /\ body resp = NoBody /\ trace = [])
  \/ (status resp = 400%nat /\ trace = []
      /\ exists msg,
           body resp = ErrorBody msg
           /\ In msg ["Invalid JSON"; "Missing rows or transformKey";
                      "Need at least 2 valid points"; "Unknown transform"]%string)
  \/ (status resp = 422%nat /\ body resp = ErrorBody "Fit failed"
      /\ exists x y, trace = [CallFit x y] /\ Selectable.fit x y = None)
  \/ (status resp = 422%nat /\ body resp = ErrorBody "Transform failed"
      /\ exists x y r2,
           trace = [CallFit x y; CallForward r2] /\ Selectable.fit x y = Some r2)
  \/ (status resp = 200%nat
      /\ exists x y r2 v,
           body resp = MainResultBody v
           /\ trace = [CallFit x y; CallForward r2]
           /\ Selectable.fit x y = Some r2).
Proof.
  unfold Selectable.onRequestPost, Selectable.missing. intros H. cbv zeta.
  destruct (String.eqb (method request) "OPTIONS");
    [cbn [snd fst] in H |- *; injection H as <-; left; auto|].
  destruct (parsed request) as [b|]; [|answer400 H].
  destruct (if truthy (Some b) then prop "rows" b else None) as [[| | | |rs|]|];
    try answer400 H.
  destruct (if truthy (Some b) then prop "transformKey" b else None) as [k|];
    [|answer400 H].
  destruct (negb (truthy (Some k))); [answer400 H|].
  destruct (Selectable.collect parseFloat rs) as [[x y]|]; [|discriminate H].
  destruct (List.length x <? 2)%nat; [answer400 H|].
  destruct (Selectable.ToPropertyKey toKey k) as [name|]; [|discriminate H].
  cbv zeta in H |- *.
  destruct (negb (Selectable.is_function _)); [answer400 H|].
  destruct (Selectable.fit x y) as [r2|] eqn:F.
  - destruct (Selectable.call _ r2) as [m|];
      cbn [snd fst] in H |- *; injection H as <-; cbn.
    + do 4 right. split; [reflexivity|]. exists x, y, r2, (round_result m). auto.
    + do 3 right. left. repeat split. exists x, y, r2. auto.
  - cbn [snd fst] in H |- *. injection H as <-. cbn.
    do 2 right. left. repeat split. exists x, y. auto.
Qed.

Lemma selectable_outcomes_witness :
  exists resp,
    snd (Selectable.onRequestPost parseFloat_example toKey_example
           (post (JObj [("rows"%string,
                         JArr (rows_of (reals [1; 2]) (reals [1; 1 / 4])));
                        ("transformKey"%string, JStr "valueOf")])))
    = Respond resp
    /\ (status resp = 204%nat \/ status resp = 400%nat
        \/ status resp = 422%nat \/ status resp = 200%nat).
Proof.
  eexists. split.
  - exact (f_equal snd (selectable_example "valueOf" eq_refl eq_refl)).
  - destruct (selectable_outcomes jsnumber ExtendedArith
                parseFloat_example toKey_example _ _
                (f_equal snd (selectable_example "valueOf" eq_refl eq_refl)))
      as [(S & _)|[(S & _)|[(S & _)|[(S & _)|(S & _)]]]]; auto.
Defined.

(** The same for the fixed handler, which has three 400 messages, one 422
    and no failing transform.  The [mainResult] of a 200 is the number
    that the fixed transform gives on the value of [fit], rounded by
    [toFixed(6)] when [isFinite] holds for it and unchanged (it is then
    [NaN] or infinite) otherwise. *)
Theorem fixed_outcomes (N : Type) (A : Arith N)
  (parseFloat : option (json N) -> option N)
  (request : Request N) (resp : Response N) :
  snd (Fixed.onRequestPost parseFloat request) = Respond resp ->
  let trace := fst (Fixed.onRequestPost parseFloat request) in
  (status resp = 204%nat /\ body resp = NoBody /\ trace = [])
  \/ (status resp = 400%nat /\ trace = []
      /\ exists msg,
           body resp = ErrorBody msg
           /\ In msg ["Nederīga JSON struktūra"; "Trūkst datu rindu";
                      "Vajag vismaz 2 derīgus punktus"]%string)
  \/ (status resp = 422%nat /\ body resp = ErrorBody "Pielāgošana neizdevās"
      /\ exists x y, trace = [CallFit x y] /\ Fixed.fit x y = None)
  \/ (status resp = 200%nat
      /\ exists x y r2 v,
           body resp = MainResultBody (VNumber v)
           /\ v = (if isFinite (Fixed.transform r2)
                   then Number_toFixed6 (Fixed.transform r2)
                   else Fixed.transform r2)
           /\ trace = [CallFit x y; CallForward r2]
           /\ Fixed.fit x y = Some r2).
Proof.
  unfold Fixed.onRequestPost. intros H. cbv zeta.
  destruct (String.eqb (method request) "OPTIONS");
    [cbn [snd fst] in H |- *; injection H as <-; left; auto|].
  destruct (parsed request) as [b|]; [|answer400 H].
  destruct (if truthy (Some b) then prop "rows" b else None) as [[| | | |rs|]|];
    try answer400 H.
  destruct (Fixed.collect parseFloat rs) as [[x y]|]; [|discriminate H].
  destruct (List.length x <? 2)%nat; [answer400 H|].
  destruct (Fixed.fit x y) as [r2|] eqn:F;
    cbn [snd fst] in H |- *; injection H as <-; cbn.
  - do 3 right. split; [reflexivity|].
    exists x, y, r2.
    exists (if isFinite (Fixed.transform r2)
            then Number_toFixed6 (Fixed.transform r2)
            else Fixed.transform r2).
    destruct (isFinite (Fixed.transform r2)); auto.
  - do 2 right. left. repeat split. exists x, y. auto.
Qed.

Lemma fixed_outcomes_witness :
  exists resp,
    snd (Fixed.onRequestPost parseFloat_example
           (post (JObj [("rows"%string,
                         JArr (rows_of (reals [1; 2]) (reals [1; 1 / 4])))])))
    = Respond resp
    /\ (status resp = 204%nat \/ status resp = 400%nat
        \/ status resp = 422%nat \/ status resp = 200%nat).
Proof.
  assert (carries (post (JObj [("rows"%string,
                                JArr (rows_of (reals [1; 2]) (reals [1; 1 / 4])))]))
                  (rows_of (reals [1; 2]) (reals [1; 1 / 4])) None) as C.
  { split; [reflexivity|]. eexists. repeat split. }
  pose proof (f_equal snd
                (fixed_run parseFloat_example _ _ None (reals [1; 2]) (reals [1; 1 / 4])
                   C (eq_trans (collect_same _ _) collect_1_2) ltac:(simpl; lia)))
    as E.
  rewrite fit_same, fit_1_2_reals in E. cbn [snd] in E.
  eexists. split; [exact E|].
  destruct (fixed_outcomes jsnumber ExtendedArith parseFloat_example _ _ E)
    as [(S & _)|[(S & _)|[(S & _)|(S & _)]]]; auto.
Defined.

(** Every answer of either handler carries the three CORS headers, with
    the request's [Origin] echoed (or [*] when it is absent or empty), and
    every answer but the 204 of a preflight is declared as JSON. *)
Theorem answers_carry_cors (N : Type) (A : Arith N)
  (parseFloat : option (json N) -> option N) (toKey : json N -> option string)
  (request : Request N) (resp : Response N) :
  snd (Selectable.onRequestPost parseFloat toKey request) = Respond resp
  \/ snd (Fixed.onRequestPost parseFloat request) = Respond resp ->
  In ("Access-Control-Allow-Origin"%string,
      match origin request with
      | Some o => if String.eqb o "" then "*"%string else o
      | None => "*"%string
      end) (headers resp)
  /\ In ("Access-Control-Allow-Methods"%string, "POST, OPTIONS"%string) (headers resp)
  /\ In ("Access-Control-Allow-Headers"%string, "Content-Type"%string) (headers resp)
  /\ (status resp <> 204%nat ->
      In ("Content-Type"%string, "application/json"%string) (headers resp))
  /\ (status resp = 204%nat <-> String.eqb (method request) "OPTIONS" = true).
Proof.
  assert (forall st p,
             st <> 204%nat ->
             let r := jsonResponse request st p in
             In ("Access-Control-Allow-Origin"%string,
                 match origin request with
                 | Some o => if String.eqb o "" then "*"%string else o
                 | None => "*"%string
                 end) (headers r)
             /\ In ("Access-Control-Allow-Methods"%string, "POST, OPTIONS"%string)
                  (headers r)
             /\ In ("Access-Control-Allow-Headers"%string, "Content-Type"%string)
                  (headers r)
             /\ (status r <> 204%nat ->
                 In ("Content-Type"%string, "application/json"%string) (headers r))
             /\ (status r = 204%nat <-> false = true)) as J.
  { intros st p Ne. cbn. unfold corsHeaders.
    destruct (origin request) as [o|]; cbn;
      repeat split; auto; try (intros; discriminate); try contradiction. }
  intros [H|H].
  - unfold Selectable.onRequestPost, Selectable.missing in H.
    destruct (String.eqb (method request) "OPTIONS").
    + injection H as <-. cbn. unfold corsHeaders.
      destruct (origin request) as [o|]; cbn; repeat split; auto; contradiction.
    + repeat (branch H; cbn [snd fst] in H); try discriminate H;
        injection H as <-; apply J; discriminate.
  - unfold Fixed.onRequestPost in H.
    destruct (String.eqb (method request) "OPTIONS").
    + injection H as <-. cbn. unfold corsHeaders.
      destruct (origin request) as [o|]; cbn; repeat split; auto; contradiction.
    + repeat (branch H; cbn [snd fst] in H); try discriminate H;
        injection H as <-; apply J; discriminate.
Qed.

Lemma answers_carry_cors_witness :
  In ("Access-Control-Allow-Origin"%string, "https://fizmix.example"%string)
     (headers (mkResponse (N := jsnumber) 204
                 (corsHeaders (mkRequest (N := jsnumber) "OPTIONS"
                                 (Some "https://fizmix.example"%string) None))
                 NoBody)).
Proof.
  apply (answers_carry_cors jsnumber ExtendedArith parseFloat_example toKey_example
           (mkRequest "OPTIONS" (Some "https://fizmix.example"%string) None)).
  left. reflexivity.
Defined.

(** With the key ['-log(1-R²) ★'] the selectable handler does what the
    fixed handler does on the same request, in every arithmetic: the same
    calls, the same status and headers, and on a 200 the same
    [mainResult]; only the wording of the errors differs. *)
Theorem selectable_as_fixed (N : Type) (A : Arith N)
  (parseFloat : option (json N) -> option N) (toKey : json N -> option string)
  (request : Request N) (b : json N) :
  parsed request = Some b ->
  prop "transformKey" b = Some (JStr "-log(1-R²) ★") ->
  fst (Selectable.onRequestPost parseFloat toKey request)
  = fst (Fixed.onRequestPost parseFloat request)
  /\ match snd (Selectable.onRequestPost parseFloat toKey request),
           snd (Fixed.onRequestPost parseFloat request) with
     | Respond r1, Respond r2 =>
         status r1 = status r2
         /\ headers r1 = headers r2
         /\ (status r1 = 200%nat -> body r1 = body r2)
     | Uncaught, Uncaught => True
     | _, _ => False
     end.
Proof.
  intros B K.
  unfold Selectable.onRequestPost, Fixed.onRequestPost, Selectable.missing.
  destruct (String.eqb (method request) "OPTIONS"); [cbn; auto|].
  rewrite B, (prop_truthy _ _ _ K), K.
  destruct (prop "rows" b) as [[| | | |rs|]|];
    try (cbn; repeat split; intros; discriminate).
  cbn [truthy String.eqb Ascii.eqb Bool.eqb negb].
  change (Fixed.collect parseFloat rs) with (Selectable.collect parseFloat rs).
  destruct (Selectable.collect parseFloat rs) as [[x y]|]; [|cbn; auto].
  destruct (List.length x <? 2)%nat; [cbn; repeat split; intros; discriminate|].
  cbv zeta. cbn [Selectable.ToPropertyKey].
  change (Selectable.lookup (N := N) "-log(1-R²) ★")
    with (Selectable.Closure (N := N) Selectable.neg_log_complement).
  cbn [Selectable.is_function negb Selectable.call].
  change (Fixed.fit x y) with (Selectable.fit x y).
  destruct (Selectable.fit x y) as [r2|]; cbn; repeat split; intros; discriminate.
Qed.

Lemma selectable_as_fixed_witness :
  fst (Selectable.onRequestPost parseFloat_example toKey_example
         (post (JObj [("rows"%string,
                       JArr (rows_of (reals [1; 2]) (reals [1; 1 / 4])));
                      ("transformKey"%string, JStr "-log(1-R²) ★")])))
  = fst (Fixed.onRequestPost parseFloat_example
           (post (JObj [("rows"%string,
                         JArr (rows_of (reals [1; 2]) (reals [1; 1 / 4])));
                        ("transformKey"%string, JStr "-log(1-R²) ★")]))).
Proof.
  apply (selectable_as_fixed jsnumber ExtendedArith parseFloat_example toKey_example _
           (JObj [("rows"%string, JArr (rows_of (reals [1; 2]) (reals [1; 1 / 4])));
                  ("transformKey"%string, JStr "-log(1-R²) ★")])).
  - reflexivity.
  - reflexivity.
Defined.

(* ------------------------------------------------------------------ *)
(** ** Further properties of the rounding step *)
(* ------------------------------------------------------------------ *)

Lemma Int_part_le (a b : R) : a <= b -> (Int_part a <= Int_part b)%Z.
Proof.
  intros H.
  destruct (base_Int_part a) as [A _]. destruct (base_Int_part b) as [_ B].
  assert (IZR (Int_part a) < IZR (Int_part b + 1)) as L
    by (rewrite plus_IZR; lra).
  apply lt_IZR in L. lia.
Qed.

Lemma Int_part_nonneg (a : R) : 0 <= a -> (0 <= Int_part a)%Z.
Proof.
  intros H. destruct (base_Int_part a) as [_ B].
  assert (IZR (-1) < IZR (Int_part a)) as L by lra.
  apply lt_IZR in L. lia.
Qed.

(** Below [1e21] in magnitude the rounded magnitude is at most [1e21]. *)
Lemma rounded_magnitude_le (a : R) :
  0 <= a < 1e21 -> 0 <= IZR (Int_part (a * 1e6 + / 2)) / 1e6 <= 1e21.
Proof.
  intros [A0 A1].
  pose proof (Int_part_nonneg (a * 1e6 + / 2) ltac:(lra)) as N.
  destruct (base_Int_part (a * 1e6 + / 2)) as [U _].
  assert (IZR (Int_part (a * 1e6 + / 2)) < IZR (10 ^ 27 + 1)) as L.
  { rewrite plus_IZR. replace (IZR (10 ^ 27)) with 1e27 by (simpl; lra). lra. }
  apply lt_IZR in L.
  assert (Int_part (a * 1e6 + / 2) <= 10 ^ 27)%Z as L' by lia.
  apply IZR_le in L', N.
  replace (IZR (10 ^ 27)) with 1e27 in L' by (simpl; lra).
  split.
  - apply Rmult_le_pos; [exact N|lra].
  - apply Rmult_le_reg_r with 1e6; [lra|].
    unfold Rdiv. rewrite Rmult_assoc, Rinv_l by lra. lra.
Qed.

Lemma toFixed6_small_nonneg (m : R) :
  0 <= m < 1e21 -> toFixed6 m = IZR (Int_part (m * 1e6 + / 2)) / 1e6.
Proof.
  intros H. unfold toFixed6. rewrite (Rabs_right m) by lra.
  destruct (Rle_dec 1e21 m); [lra|]. cbv zeta.
  destruct (Rlt_dec m 0); [lra|reflexivity].
Qed.

Lemma toFixed6_small_neg (m : R) :
  - 1e21 < m < 0 -> toFixed6 m = - (IZR (Int_part (- m * 1e6 + / 2)) / 1e6).
Proof.
  intros H. unfold toFixed6. rewrite (Rabs_left m) by lra.
  destruct (Rle_dec 1e21 (- m)); [lra|]. cbv zeta.
  destruct (Rlt_dec m 0); [reflexivity|lra].
Qed.

Lemma toFixed6_big (m : R) : 1e21 <= Rabs m -> toFixed6 m = m.
Proof.
  intros H. unfold toFixed6. destruct (Rle_dec 1e21 (Rabs m)); [reflexivity|lra].
Qed.

Lemma toFixed6_mono (m1 m2 : R) : m1 <= m2 -> toFixed6 m1 <= toFixed6 m2.
Proof.
  intros H.
  assert (forall m, m <= - 1e21 \/ - 1e21 < m < 0 \/ 0 <= m < 1e21 \/ 1e21 <= m)
    as Cases by (intros m; lra).
  assert (forall m, m <= - 1e21 -> toFixed6 m = m) as Lo
    by (intros m Hm; apply toFixed6_big; rewrite Rabs_left; lra).
  assert (forall m, 1e21 <= m -> toFixed6 m = m) as Hi
    by (intros m Hm; apply toFixed6_big; rewrite Rabs_right; lra).
  assert (forall m, - 1e21 < m < 0 -> - 1e21 <= toFixed6 m <= 0) as Neg.
  { intros m Hm. rewrite (toFixed6_small_neg m Hm).
    pose proof (rounded_magnitude_le (- m) ltac:(lra)). lra. }
  assert (forall m, 0 <= m < 1e21 -> 0 <= toFixed6 m <= 1e21) as Pos.
  { intros m Hm. rewrite (toFixed6_small_nonneg m Hm).
    apply rounded_magnitude_le, Hm. }
  destruct (Cases m1) as [A|[A|[A|A]]], (Cases m2) as [B|[B|[B|B]]]; try lra;
    try (rewrite (Lo m1 A)); try (rewrite (Hi m2 B));
    try (rewrite (Lo m2 B)); try (rewrite (Hi m1 A));
    try (pose proof (Neg m1 A)); try (pose proof (Neg m2 B));
    try (pose proof (Pos m1 A)); try (pose proof (Pos m2 B)); try lra.
  - (* both negative and small *)
    rewrite (toFixed6_small_neg m1 A), (toFixed6_small_neg m2 B).
    pose proof (Int_part_le (- m2 * 1e6 + / 2) (- m1 * 1e6 + / 2) ltac:(lra)) as I.
    apply IZR_le in I.
    assert (IZR (Int_part (- m2 * 1e6 + / 2)) / 1e6
            <= IZR (Int_part (- m1 * 1e6 + / 2)) / 1e6); [|lra].
    apply Rmult_le_compat_r; [lra|exact I].
  - (* both nonnegative and small *)
    rewrite (toFixed6_small_nonneg m1 A), (toFixed6_small_nonneg m2 B).
    pose proof (Int_part_le (m1 * 1e6 + / 2) (m2 * 1e6 + / 2) ltac:(lra)) as I.
    apply IZR_le in I.
    apply Rmult_le_compat_r; [lra|exact I].
Qed.

(** The rounding step never reverses the order of two results, and it
    leaves a result that is already rounded unchanged.  With the monotone
    fixed transform: a larger R² never gives a smaller [mainResult]. *)
Theorem rounding_keeps_order (m1 m2 : R) :
  m1 <= m2 ->
  toFixed6 m1 <= toFixed6 m2
  /\ toFixed6 (toFixed6 m1) = toFixed6 m1
  /\ toFixed6 (Fixed.transform m1) <= toFixed6 (Fixed.transform m2).
Proof.
  intros H. split; [apply toFixed6_mono, H|]. split.
  - destruct (Rle_dec 1e21 (Rabs m1)) as [Big|Small].
    + rewrite (toFixed6_big m1 Big). apply toFixed6_big, Big.
    + destruct (toFixed6_grid m1 ltac:(lra)) as [z Z].
      destruct (Rlt_dec m1 0) as [Ng|Ps].
      * assert (- 1e21 < m1 < 0) as A
          by (rewrite Rabs_left in Small by lra; lra).
        assert (- 1e21 <= toFixed6 m1 <= 0) as Bd.
        { rewrite (toFixed6_small_neg m1 A).
          pose proof (rounded_magnitude_le (- m1) ltac:(lra)). lra. }
        destruct (Req_dec_T (toFixed6 m1) (- 1e21)) as [E|NE].
        { apply toFixed6_big. rewrite E, Rabs_left; lra. }
        destruct (Req_dec_T (toFixed6 m1) 0) as [E0|NE0].
        { rewrite E0. rewrite (toFixed6_value 0 0); lra. }
        rewrite (toFixed6_small_neg (toFixed6 m1)) by lra.
        rewrite Z at 1 2.
        rewrite <- (Int_part_spec (- (IZR z / 1e6) * 1e6 + / 2) (- z)%Z).
        -- rewrite opp_IZR. field.
        -- rewrite opp_IZR. split; field_simplify; lra.
      * assert (0 <= m1 < 1e21) as A
          by (rewrite Rabs_right in Small by lra; lra).
        assert (0 <= toFixed6 m1 <= 1e21) as Bd.
        { rewrite (toFixed6_small_nonneg m1 A). apply rounded_magnitude_le, A. }
        destruct (Req_dec_T (toFixed6 m1) 1e21) as [E|NE].
        { apply toFixed6_big. rewrite E, Rabs_right; lra. }
        rewrite (toFixed6_small_nonneg (toFixed6 m1)) by lra.
        rewrite Z at 1 2.
        rewrite <- (Int_part_spec (IZR z / 1e6 * 1e6 + / 2) z).
        -- reflexivity.
        -- split; field_simplify; lra.
  - apply toFixed6_mono.
    change (Selectable.neg_log_complement m1 <= Selectable.neg_log_complement m2).
    apply neg_log_complement_mono, H.
Qed.

Lemma rounding_keeps_order_witness :
  toFixed6 (Fixed.transform 0.2) <= toFixed6 (Fixed.transform 0.7).
Proof.
  apply (rounding_keeps_order 0.2 0.7). lra.
Defined.

(* ------------------------------------------------------------------ *)
(** ** Further properties of the fixed transform *)
(* ------------------------------------------------------------------ *)

(** The floor [1e-10] below the logarithm never applies: the clamp keeps
    [1 - r] at [1e-4] or more. *)
Lemma transform_without_floor (r2 : R) :
  Fixed.transform r2 = - ln (1 - Rmax 0 (Rmin 0.9999 r2)).
Proof.
  unfold Fixed.transform; exact_arith.
  pose proof (clamp_range 0 0.9999 r2 ltac:(lra)) as B.
  rewrite Rmax_right by lra. reflexivity.
Qed.

(** The fixed transform can be undone between 0 and 0.9999, where
    [1 - exp(-t)] gives R² back; it is 0 for every R² that is not
    positive and constant from 0.9999 on; so it takes its values between
    0 and [-ln (1 - 0.9999)], and every [mainResult] of the fixed
    endpoint lies between 0 and 9.21034. *)
Theorem transform_range_and_inverse (r2 : R) :
  (0 <= r2 <= 0.9999 -> 1 - exp (- Fixed.transform r2) = r2)
  /\ (r2 <= 0 -> Fixed.transform r2 = 0)
  /\ (0.9999 <= r2 -> Fixed.transform r2 = - ln (1 - 0.9999))
  /\ 0 <= Fixed.transform r2 <= - ln (1 - 0.9999)
  /\ 0 <= toFixed6 (Fixed.transform r2) <= 9.21034.
Proof.
  assert (Fixed.transform 0 = 0) as T0.
  { rewrite transform_without_floor.
    rewrite (Rmin_right 0.9999 0), (Rmax_left 0 0) by lra.
    replace (1 - 0) with 1 by ring. rewrite ln_1. ring. }
  assert (0 <= Fixed.transform r2 <= - ln (1 - 0.9999)) as Rg.
  { split.
    - apply (neg_log_complement_nonneg r2).
    - destruct (Rle_dec 0.9999 r2) as [H|H].
      + rewrite transform_saturated by exact H. lra.
      + rewrite <- (transform_saturated 1) by lra.
        apply (neg_log_complement_mono r2 1). lra. }
  split; [|split; [|split; [|split; [exact Rg|]]]].
  - intros [H0 H1]. rewrite transform_without_floor.
    rewrite (Rmin_right 0.9999 r2), (Rmax_right 0 r2) by lra.
    rewrite Ropp_involutive, exp_ln by lra. ring.
  - intros H. rewrite <- T0. rewrite !transform_without_floor.
    rewrite (Rmin_right 0.9999 r2), (Rmax_left 0 r2) by lra.
    rewrite (Rmin_right 0.9999 0), (Rmax_left 0 0) by lra. reflexivity.
  - apply transform_saturated.
  - split.
    + replace 0 with (toFixed6 0) at 1 by (rewrite (toFixed6_value 0 0); lra).
      apply toFixed6_mono, Rg.
    + rewrite <- saturation_rounded. apply toFixed6_mono, Rg.
Qed.

Lemma transform_range_and_inverse_witness :
  1 - exp (- Fixed.transform 0.5) = 0.5.
Proof.
  apply (proj1 (transform_range_and_inverse 0.5)). lra.
Defined.

(* ------------------------------------------------------------------ *)
(** ** Further properties of the table *)
(* ------------------------------------------------------------------ *)

Lemma floor_neg (lo r : R) : r <= lo -> Rmax lo r = lo.
Proof. intros H. apply Rmax_left, H. Qed.

Lemma clamp_neg (hi r : R) : 0 <= hi -> r <= 0 -> Rmax 0 (Rmin hi r) = 0.
Proof.
  intros Hh H. rewrite (Rmin_right hi r) by lra. apply Rmax_left, H.
Qed.

(** No transform of the table tells a negative R² from 0: each one is
    constant on the reals below 0 (below -10 for [exp(R²)], which clamps
    there instead). *)
Theorem table_ignores_negative (t : string) (f : R -> R) (r : R) :
  In (t, f) Selectable.TRANSFORMS ->
  (t <> "exp(R²)"%string -> r <= 0 -> f r = f 0)
  /\ (t = "exp(R²)"%string -> r <= -10 -> f r = f (-10)).
Proof.
  unfold Selectable.TRANSFORMS. intros H.
  repeat (destruct H as [H|H]; [injection H as <- <-|]); try contradiction;
    (split; [intros N L|intros E L]);
    try discriminate E; try (exfalso; apply N; reflexivity).
  - unfold Selectable.reciprocal_complement; exact_arith. split_ge; try lra.
    rewrite !clamp_neg by lra. reflexivity.
  - unfold Selectable.exp_reciprocal_complement; exact_arith. split_ge; try lra.
    rewrite !clamp_neg by lra. reflexivity.
  - unfold Selectable.neg_log_complement; exact_arith. rewrite !clamp_neg by lra. reflexivity.
  - unfold Selectable.inverse_sqrt_complement; exact_arith. split_ge; try lra.
    rewrite !clamp_neg by lra. reflexivity.
  - unfold Selectable.tangent_half_pi; exact_arith. rewrite !clamp_neg by lra. reflexivity.
  - unfold Selectable.exp_decay_scaled; exact_arith. rewrite !(floor_neg 0) by lra. reflexivity.
  - unfold Selectable.inverse_cube_complement; exact_arith. split_ge; try lra.
    rewrite !clamp_neg by lra. reflexivity.
  - unfold Selectable.log1p; exact_arith. rewrite !(floor_neg 0) by lra. reflexivity.
  - unfold Selectable.exp_clamped_low; exact_arith. rewrite !(floor_neg (-10)) by lra. reflexivity.
  - unfold Selectable.sqrt1p; exact_arith. rewrite !(floor_neg 0) by lra. reflexivity.
  - unfold Selectable.square; exact_arith. rewrite !(floor_neg 0) by lra. reflexivity.
  - unfold Selectable.arctan_normalized; exact_arith. rewrite !(floor_neg 0) by lra. reflexivity.
  - rewrite !saturating_ratio_eq, !(floor_neg 0) by lra. reflexivity.
  - unfold Selectable.sinh_transform; exact_arith. rewrite !(floor_neg 0) by lra. reflexivity.
  - unfold Selectable.exp_negative; exact_arith. rewrite !(floor_neg 0) by lra. reflexivity.
Qed.

Lemma table_ignores_negative_witness :
  Selectable.square (-3) = Selectable.square 0.
Proof.
  apply (proj1 (table_ignores_negative "R²²" Selectable.square (-3)
                  ltac:(simpl; tauto))).
  - discriminate.
  - lra.
Defined.

(** Below their ceiling 0.999 the three power transforms marked ★ are
    the plain formulas in [max(0, R²)]: neither the inner [min] nor the
    floor [1e-10] applies; and they stay below 1000, 32 and 1e9, far from
    the constants 1e10, 1e10 and 1e30 that they return from the ceiling
    on.  This in exact arithmetic, for a real R². *)
Theorem power_transforms_below_ceiling (r : R) :
  r < 0.999 ->
  (Selectable.reciprocal_complement r = 1 / (1 - Rmax 0 r)
   /\ Selectable.reciprocal_complement r < 1000)
  /\ (Selectable.inverse_sqrt_complement r = 1 / sqrt (1 - Rmax 0 r)
      /\ Selectable.inverse_sqrt_complement r < 32)
  /\ (Selectable.inverse_cube_complement r = 1 / (1 - Rmax 0 r) ^ 3
      /\ Selectable.inverse_cube_complement r < 1e9)
  /\ (Selectable.reciprocal_complement 0.999 = 1e10
      /\ Selectable.inverse_sqrt_complement 0.999 = 1e10
      /\ Selectable.inverse_cube_complement 0.999 = 1e30).
Proof.
  intros H.
  assert (Rmax 0 (Rmin 0.999 r) = Rmax 0 r) as C
    by (rewrite (Rmin_right 0.999 r) by lra; reflexivity).
  assert (0 <= Rmax 0 r < 0.999) as B.
  { split; [apply floor_ge|]. apply Rmax_lub_lt; lra. }
  set (m := Rmax 0 r) in *.
  assert (Rmax 1e-10 (1 - m) = 1 - m) as Fl by (apply Rmax_right; lra).
  assert (forall d, 0 < d -> forall a, / d < a -> 1 / a < d) as Inv.
  { intros d Hd a Ha.
    assert (0 < / d) by (apply Rinv_0_lt_compat; exact Hd).
    unfold Rdiv. rewrite Rmult_1_l.
    rewrite <- (Rinv_inv d). apply Rinv_lt_contravar; [|exact Ha].
    apply Rmult_lt_0_compat; lra. }
  split; [|split; [|split]].
  - unfold Selectable.reciprocal_complement; exact_arith.
    destruct (Rge_dec r 0.999); [lra|]. rewrite C. split; [reflexivity|].
    apply Inv; lra.
  - unfold Selectable.inverse_sqrt_complement; exact_arith.
    destruct (Rge_dec r 0.999); [lra|]. rewrite C, Fl. split; [reflexivity|].
    apply Inv; [lra|].
    replace (/ 32) with (sqrt (/ 32 * / 32)) by (apply sqrt_square; lra).
    apply sqrt_lt_1_alt. lra.
  - unfold Selectable.inverse_cube_complement; exact_arith.
    destruct (Rge_dec r 0.999); [lra|]. rewrite C, Fl. split; [reflexivity|].
    apply Inv; [lra|].
    assert (0.001 < 1 - m) as D by lra.
    assert (0.001 * 0.001 < (1 - m) * (1 - m)) as D2 by nra.
    simpl pow. nra.
  - unfold Selectable.reciprocal_complement, Selectable.inverse_sqrt_complement,
      Selectable.inverse_cube_complement.
    exact_arith. destruct (Rge_dec 0.999 0.999); [cbv iota; auto|lra].
Qed.

Lemma power_transforms_below_ceiling_witness :
  Selectable.reciprocal_complement 0.5 < 1000.
Proof.
  apply (power_transforms_below_ceiling 0.5). lra.
Defined.

(** The fallback of [R²/(1+R²)].  On a real R² the quotient is returned as
    it is, also when it is 0; the fallback [|| 0] changes the result
    exactly where the quotient is [NaN], which it is for the R² [NaN] and
    [Infinity]: the transform then returns 0.  So it never returns [NaN],
    in exact arithmetic with the special values; in binary64 it returns 0
    on [NaN], whatever the host. *)
Theorem saturating_ratio_fallback :
  (forall r : R,
      Selectable.saturating_ratio (Num r) = Num (Rmax 0 r / (1 + Rmax 0 r)))
  /\ Selectable.saturating_ratio NaN = Num 0
  /\ Selectable.saturating_ratio PInf = Num 0
  /\ Selectable.saturating_ratio NInf = Num 0
  /\ (forall n : jsnumber, isNaN (Selectable.saturating_ratio n) = false)
  /\ (forall h : Binary64.Host,
        Selectable.saturating_ratio (A := Binary64.arith h) PrimFloat.nan
        = PrimFloat.zero).
Proof.
  split.
  { intros r. rewrite saturating_ratio_reals, saturating_ratio_eq. reflexivity. }
  split; [reflexivity|]. split; [reflexivity|].
  split.
  { unfold Selectable.saturating_ratio, truthy_number. ext_arith.
    rewrite div_reals by lra. ext_arith.
    destruct (Rlt_dec 0 (0 / (1 + 0))), (Rlt_dec (0 / (1 + 0)) 0);
      cbn [orb]; try reflexivity; exfalso; lra. }
  split.
  { intros [| | |r]; try reflexivity.
    - unfold Selectable.saturating_ratio, truthy_number. ext_arith.
      rewrite div_reals by lra. ext_arith.
      destruct (_ || _); reflexivity.
    - rewrite saturating_ratio_reals. reflexivity. }
  intros h. vm_compute. reflexivity.
Qed.

(** On a value returned by [fit], which lies between 0 and 1 in exact
    arithmetic, the nine transforms without a ceiling stay within these
    bounds. *)
Theorem unstarred_ranges (x y : list R) (r : R) :
  Selectable.fit x y = Some r ->
  0 <= Selectable.square r <= 1
  /\ 0 <= Selectable.saturating_ratio r <= 1 / 2
  /\ 0 <= Selectable.arctan_normalized r <= 1 / 2
  /\ exp (-1) <= Selectable.exp_negative r <= 1
  /\ exp (-10) <= Selectable.exp_decay_scaled r <= 1
  /\ 0 <= Selectable.log1p r <= ln 2
  /\ 1 <= Selectable.sqrt1p r <= sqrt 2
  /\ 0 <= Selectable.sinh_transform r <= sinh 1
  /\ 1 <= Selectable.exp_clamped_low r <= exp 1.
Proof.
  intros H. destruct (fit_bounds x y r H) as [R0 R1].
  assert (Rmax 0 0 = 0) as M0 by (apply Rmax_left; lra).
  assert (Rmax 0 1 = 1) as M1 by (apply Rmax_right; lra).
  repeat split.
  - apply pow2_ge_0.
  - pose proof (square_mono r 1 R1) as U. unfold Selectable.square in U at 2; exact_arith.
    rewrite M1 in U. lra.
  - apply saturating_ratio_nonneg.
  - pose proof (saturating_ratio_mono r 1 R1) as U.
    rewrite (saturating_ratio_eq 1), M1 in U. lra.
  - apply arctan_normalized_nonneg.
  - pose proof (arctan_normalized_mono r 1 R1) as U.
    unfold Selectable.arctan_normalized in U at 2; exact_arith. rewrite M1, atan_1 in U.
    pose proof PI_RGT_0.
    replace (PI / 4 * 2 / PI) with (1 / 2) in U by (field; lra). exact U.
  - pose proof (exp_negative_antitone r 1 R1) as U.
    unfold Selectable.exp_negative in U at 1; exact_arith. rewrite M1 in U. exact U.
  - pose proof (exp_negative_antitone 0 r R0) as U.
    unfold Selectable.exp_negative in U at 2; exact_arith. rewrite M0, Ropp_0, exp_0 in U. exact U.
  - pose proof (exp_decay_scaled_mono 0 r R0) as U.
    unfold Selectable.exp_decay_scaled in U at 1; exact_arith. rewrite M0 in U.
    replace (10 * (0 - 1)) with (-10) in U by ring. exact U.
  - pose proof (exp_decay_scaled_mono r 1 R1) as U.
    unfold Selectable.exp_decay_scaled in U at 2; exact_arith. rewrite M1 in U.
    replace (10 * (1 - 1)) with 0 in U by ring. rewrite exp_0 in U. exact U.
  - apply log1p_nonneg.
  - pose proof (log1p_mono r 1 R1) as U.
    unfold Selectable.log1p in U at 2; exact_arith. rewrite M1 in U.
    replace (1 + 1) with 2 in U by ring. exact U.
  - pose proof (sqrt1p_mono 0 r R0) as U.
    unfold Selectable.sqrt1p in U at 1; exact_arith. rewrite M0 in U.
    replace (1 + 0) with 1 in U by ring. rewrite sqrt_1 in U. exact U.
  - pose proof (sqrt1p_mono r 1 R1) as U.
    unfold Selectable.sqrt1p in U at 2; exact_arith. rewrite M1 in U.
    replace (1 + 1) with 2 in U by ring. exact U.
  - apply sinh_transform_nonneg.
  - pose proof (sinh_transform_mono r 1 R1) as U.
    unfold Selectable.sinh_transform in U at 2; exact_arith. rewrite M1 in U. exact U.
  - pose proof (exp_clamped_low_mono 0 r R0) as U.
    unfold Selectable.exp_clamped_low in U at 1; exact_arith.
    rewrite (Rmax_right (-10) 0), exp_0 in U by lra. exact U.
  - pose proof (exp_clamped_low_mono r 1 R1) as U.
    unfold Selectable.exp_clamped_low in U at 2; exact_arith.
    rewrite (Rmax_right (-10) 1) in U by lra. exact U.
Qed.

Lemma unstarred_ranges_witness : 0 <= Selectable.square 1 <= 1.
Proof.
  apply (unstarred_ranges [1; 2] [1; 1 / 4] 1 fit_1_2).
Defined.


Lemma own_In (N : Type) (key : string) (f : N -> N) (table : list (string * (N -> N))) :
  Selectable.own key table = Some f -> In (key, f) table.
Proof.
  induction table as [|[k g] table IH]; simpl; [discriminate|].
  destruct (String.eqb_spec key k) as [->|Ne].
  - intros H. injection H as <-. left. reflexivity.
  - intros H. right. apply IH, H.
Qed.

(** What the lookup of a key finds, in every arithmetic: each of the
    fifteen names finds the closure written beside it and no other; and a
    key resolves to a function exactly when it is one of the fifteen names
    or one of the eleven names of functions inherited from
    [Object.prototype]. *)
Theorem lookup_characterised (N : Type) (A : Arith N) (key : string) :
  (forall f : N -> N,
      Selectable.lookup key = Selectable.Closure f
      <-> In (key, f) Selectable.TRANSFORMS)
  /\ (Selectable.is_function (Selectable.lookup (N := N) key) = true
      <-> In key (map fst (Selectable.TRANSFORMS (N := N)))
          \/ In key prototype_functions).
Proof.
  split.
  - intros f. split; [|apply lookup_own].
    unfold Selectable.lookup.
    destruct (Selectable.own key Selectable.TRANSFORMS) as [g|] eqn:E.
    + intros H. injection H as <-. apply own_In, E.
    + unfold Selectable.inherited.
      repeat match goal with
             | |- context [String.eqb key ?k] => destruct (String.eqb key k)
             end; discriminate.
  - split.
    + intros H.
      destruct (in_dec string_dec key (map fst (Selectable.TRANSFORMS (N := N))))
        as [I|Ne]; [left; exact I|].
      destruct (in_dec string_dec key prototype_functions) as [I|Ne'];
        [right; exact I|].
      rewrite (lookup_unknown key Ne Ne') in H. discriminate.
    + intros [I|I].
      * apply in_map_iff in I. destruct I as ([k f] & <- & I).
        cbn [fst]. rewrite (lookup_own _ _ I). reflexivity.
      * unfold prototype_functions in I.
        repeat (destruct I as [<-|I]; [reflexivity|]). contradiction.
Qed.

(** With a name of the table as key, in every arithmetic: when every row
    can be read and at least two survive, the answer is a 422 'Fit
    failed', [fit] having returned [null] on the survivors, or a 200 whose
    [mainResult] is the number that the closure of that name gives on the
    value of [fit], rounded when [isFinite] holds for it and unchanged
    otherwise.  'Transform failed' and a [mainResult] that is not of type
    number do not occur. *)
Theorem table_key_answers (N : Type) (A : Arith N)
  (parseFloat : option (json N) -> option N) (toKey : json N -> option string)
  (request : Request N) (rows : list (json N)) (t : string) (f : N -> N) :
  carries request rows (Some (JStr t)) ->
  ~ Exists (throws parseFloat) rows ->
  (2 <= List.length (survivors parseFloat rows))%nat ->
  In (t, f) Selectable.TRANSFORMS ->
  let x := map fst (survivors parseFloat rows) in
  let y := map snd (survivors parseFloat rows) in
  (Selectable.fit x y = None
   /\ Selectable.onRequestPost parseFloat toKey request
      = ([CallFit x y],
         Respond (jsonResponse request 422 (ErrorBody "Fit failed"))))
  \/ (exists r2,
        Selectable.fit x y = Some r2
        /\ Selectable.onRequestPost parseFloat toKey request
           = ([CallFit x y; CallForward r2],
              Respond (jsonResponse request 200
                         (MainResultBody
                            (VNumber (if isFinite (f r2)
                                      then Number_toFixed6 (f r2)
                                      else f r2)))))).
Proof.
  intros C T L I x y.
  rewrite (table_key_never_fails N A parseFloat toKey request rows t f x y C
             (collect_survivors parseFloat rows T)
             ltac:(unfold x; rewrite length_map; exact L) I).
  destruct (Selectable.fit x y) as [r2|].
  - right. exists r2. split; [reflexivity|].
    cbn [round_result]. destruct (isFinite (f r2)); reflexivity.
  - left. split; reflexivity.
Qed.

Lemma survivors_1_2 :
  survivors parseFloat_example (rows_of (reals [1; 2]) (reals [1; 1 / 4]))
  = [(Num 1, Num 1); (Num 2, Num (1 / 4))].
Proof.
  rewrite (survivors_rows_of parseFloat_example parseFloat_example_numbers).
  cbn [combine filter fst].
  repeat (destruct (Rlt_dec _ _); [|exfalso; lra]). reflexivity.
Qed.

Lemma table_key_answers_witness :
  snd (Selectable.onRequestPost parseFloat_example toKey_example
         (post (JObj [("rows"%string,
                       JArr (rows_of (reals [1; 2]) (reals [1; 1 / 4])));
                      ("transformKey"%string, JStr "R²²")])))
  = Respond (jsonResponse
               (post (JObj [("rows"%string,
                             JArr (rows_of (reals [1; 2]) (reals [1; 1 / 4])));
                            ("transformKey"%string, JStr "R²²")]))
               200 (MainResultBody
                      (VNumber (Number_toFixed6 (Selectable.square (Num 1)))))).
Proof.
  destruct (table_key_answers jsnumber ExtendedArith
              parseFloat_example toKey_example _ _ "R²²" Selectable.square
              (carries_example (JStr "R²²"))
              (throws_rows_of parseFloat_example parseFloat_example_numbers
                 [1; 2] [1; 1 / 4])
              ltac:(rewrite survivors_1_2; simpl; lia)
              ltac:(simpl; tauto))
    as [(Ne & _)|(r2 & F & E)].
  - exfalso. rewrite survivors_1_2 in Ne. cbn [map fst snd] in Ne.
    change (Selectable.fit (reals [1; 2]) (reals [1; 1 / 4]) = None) in Ne.
    rewrite fit_1_2_reals in Ne. discriminate Ne.
  - rewrite survivors_1_2 in F. cbn [map fst snd] in F.
    change (Selectable.fit (reals [1; 2]) (reals [1; 1 / 4]) = Some r2) in F.
    rewrite fit_1_2_reals in F. injection F as <-.
    rewrite E. reflexivity.
Defined.



(* ------------------------------------------------------------------ *)
(** ** The order of the rows *)
(* ------------------------------------------------------------------ *)

Lemma Sigma_head (n : nat) (f : nat -> R) :
  Sigma (S n) f = f 0%nat + Sigma n (fun i => f (S i)).
Proof.
  induction n as [|n IH].
  - simpl. ring.
  - change (Sigma (S (S n)) f) with (Sigma (S n) f + f (S n)).
    rewrite IH. cbn [Sigma]. ring.
Qed.

Lemma point_sum_pair_sum (x y : list R) (g : R -> R -> R) :
  List.length y = List.length x ->
  point_sum x y g = pair_sum (combine x y) g.
Proof.
  unfold point_sum. revert y.
  induction x as [|x0 x IH]; intros y L.
  - reflexivity.
  - destruct y as [|y0 y]; [discriminate|].
    cbn [List.length]. rewrite Sigma_head. cbn [nth combine pair_sum fold_right fst snd].
    rewrite (IH y) by (simpl in L; lia). reflexivity.
Qed.

Lemma pair_sum_perm (l l' : list (R * R)) (g : R -> R -> R) :
  Permutation l l' -> pair_sum l g = pair_sum l' g.
Proof.
  induction 1 as [|p l l' _ IH|p q l|l l' l'' _ IH1 _ IH2]; simpl.
  - reflexivity.
  - fold (pair_sum l g). fold (pair_sum l' g). rewrite IH. reflexivity.
  - ring.
  - rewrite IH1. exact IH2.
Qed.

Lemma fit_sums_point_sum (x y : list R) :
  fit_sums x y
  = let n := List.length x in
    let Su := point_sum x y (fun a _ => 1 / (a * a)) in
    let Su2 := point_sum x y (fun a _ => 1 / (a * a) * (1 / (a * a))) in
    let Sy := point_sum x y (fun _ b => b) in
    let Suy := point_sum x y (fun a b => 1 / (a * a) * b) in
    let det := INR n * Su2 - Su * Su in
    if Rlt_dec (Rabs det) 1e-20 then None
    else
      let a := (Sy * Su2 - Su * Suy) / det in
      let b := (INR n * Suy - Su * Sy) / det in
      let ssRes := point_sum x y (fun p q => (q - (b * (1 / (p * p)) + a)) ^ 2) in
      let ssTot := point_sum x y (fun _ q => (q - Sy / INR n) ^ 2) in
      Some (if Rlt_dec 0 ssTot then 1 - ssRes / ssTot else 0).
Proof. reflexivity. Qed.

(** In exact arithmetic the result of [fit] does not depend on the order
    of the points. *)
Theorem fit_order_independent (x y x' y' : list R) :
  List.length y = List.length x ->
  List.length y' = List.length x' ->
  Permutation (combine x y) (combine x' y') ->
  Selectable.fit x y = Selectable.fit x' y'.
Proof.
  intros L L' P.
  assert (forall g, point_sum x y g = point_sum x' y' g) as E.
  { intros g. rewrite !point_sum_pair_sum by assumption.
    apply pair_sum_perm, P. }
  assert (List.length x = List.length x') as N.
  { apply Permutation_length in P. rewrite !length_combine in P.
    rewrite L, L' in P. rewrite !Nat.min_id in P. exact P. }
  rewrite !fit_fit_sums, !fit_sums_point_sum. cbv zeta.
  rewrite N, !E. reflexivity.
Qed.

Lemma fit_order_independent_witness :
  Selectable.fit [2; 1] [1 / 4; 1] = Some 1.
Proof.
  rewrite (fit_order_independent [2; 1] [1 / 4; 1] [1; 2] [1; 1 / 4]
             eq_refl eq_refl).
  - exact fit_1_2.
  - simpl. apply perm_swap.
Defined.
